(** * statistical_analysis.analyze_df: a shallow embedding

    The repository is one Python function, [analyze_df], that derives two
    per-device features from a table of scan records with pandas, labels
    the devices with scikit-learn's [IsolationForest], rescales the scores
    with [MinMaxScaler] and returns the set of devices labelled [-1].

    Modelling choices.
    - A pandas [DataFrame] is a list of column labels and a list of rows;
      a row is a finite map from column label to cell.  The row index is
      not modelled: every assignment in the source is positional.
    - Cells are dynamically typed ([value]); [NaN] is the missing value.
    - Integers are unbounded ([Z]) and float64 cells are exact rationals
      ([Qc]): rounding is not modelled.  Square roots are taken by a
      function the development is parametric in.
    - The caller's DataFrame is a mutable object shared with the caller:
      [analyze_df] is a state transformer over a [World] that holds it,
      together with the log of the calls made to [IsolationForest.fit].
    - pandas and scikit-learn are libraries, not code of the repository:
      their operations follow their documented behaviour; the randomised
      tree scoring of the forest is a parameter.
    - [analyze_df] is the function on its default path,
      [create_plots=False] and [verbose=False].  [analyze_df_full] is the
      function with its two options: the plots and the messages are the
      trace of the calls made to the operating system, to
      [matplotlib.pyplot] and to [print], in order and with their
      arguments.  What the interpreter, ruptures and the operating system
      decide (the text of a float, the change points, whether a file
      operation is refused) is a parameter, [Runtime]. *)

From Stdlib Require Import QArith Qcanon Qround Lqa.
From stdpp Require Import base option sorting strings numbers countable list gmap.
From stdpp Require Import pretty.

Set Default Proof Using "Type".

Local Open Scope Z_scope.
Local Open Scope Qc_scope.

(** ** Cells, rows and frames *)

Inductive value :=
  | VStr (s : string)
  | VInt (z : Z)
  | VFloat (q : Qc)
  | NaN.

#[global] Instance value_eq_dec : EqDecision value.
Proof. solve_decision. Defined.

#[global] Instance value_inhabited : Inhabited value := populate NaN.

Definition value_code (v : value) : string + Z + Qc + unit :=
  match v with
  | VStr s => inl (inl (inl s))
  | VInt z => inl (inl (inr z))
  | VFloat q => inl (inr q)
  | NaN => inr tt
  end.

Definition value_decode (c : string + Z + Qc + unit) : value :=
  match c with
  | inl (inl (inl s)) => VStr s
  | inl (inl (inr z)) => VInt z
  | inl (inr q) => VFloat q
  | inr _ => NaN
  end.

#[global] Instance value_countable : Countable value.
Proof.
  apply (inj_countable' value_code value_decode).
  by intros [].
Defined.

Abbreviation Row := (gmap string value).

Record DataFrame := mkFrame {
  columns : list string;
  rows : list Row
}.

#[global] Instance DataFrame_eq_dec : EqDecision DataFrame.
Proof. solve_decision. Defined.

(** Exceptions the pipeline can raise.  [KeyError] carries the missing
    labels. *)
Inductive exn :=
  | KeyError (missing : list string)
  | TypeError
  | ValueError.

#[global] Instance exn_eq_dec : EqDecision exn.
Proof. solve_decision. Defined.

Inductive Result (A : Type) :=
  | Ok (a : A)
  | Err (e : exn).
Arguments Ok {A} a.
Arguments Err {A} e.

#[global] Instance Result_eq_dec {A} `{EqDecision A} : EqDecision (Result A).
Proof. solve_decision. Defined.

#[global] Instance Result_ret : MRet Result := @Ok.
#[global] Instance Result_bind : MBind Result := λ A B f m,
  match m with Ok a => f a | Err e => Err e end.
#[global] Instance Result_fmap : FMap Result := λ A B f m,
  match m with Ok a => Ok (f a) | Err e => Err e end.

(** [r[c]]: the cell of row [r] in column [c]. *)
Definition cell (c : string) (r : Row) : value := default NaN (r !! c).

Definition isna (v : value) : bool :=
  match v with NaN => true | _ => false end.

Definition missing_labels (cols : list string) (df : DataFrame) : list string :=
  filter (λ c, c ∉ columns df) cols.

(** Every label of [cols] is a column of [df], or [KeyError]. *)
Definition require (cols : list string) (df : DataFrame) : Result unit :=
  match missing_labels cols df with
  | [] => Ok tt
  | miss => Err (KeyError miss)
  end.

(** [df[c]] *)
Definition getitem (c : string) (df : DataFrame) : Result (list value) :=
  _ ← require [c] df; Ok (cell c <$> rows df).

(** [df[c] = vals], positional; [vals] has one entry per row. *)
Definition setitem (c : string) (vals : list value) (df : DataFrame) : DataFrame :=
  {| columns := if decide (c ∈ columns df) then columns df else columns df ++ [c];
     rows := zip_with (λ r v, <[c := v]> r) (rows df) vals |}.

(** [df.drop(columns=cols)]: a new frame; [KeyError] when a label is not
    a column. *)
Definition drop (cols : list string) (df : DataFrame) : Result DataFrame :=
  _ ← require cols df;
  Ok {| columns := filter (λ c, c ∉ cols) (columns df);
        rows := (λ r, foldr delete r cols) <$> rows df |}.

(** [df[cols]] with a list of labels: a new frame with these columns. *)
Definition select (cols : list string) (df : DataFrame) : Result DataFrame :=
  _ ← require cols df;
  Ok {| columns := cols;
        rows := (λ r, filter (λ kv, kv.1 ∈ cols) r) <$> rows df |}.

(** Duplicates removal that keeps the first occurrence and the order. *)
Fixpoint keep_first {A} `{EqDecision A} (l : list A) : list A :=
  match l with
  | [] => []
  | x :: l' => x :: filter (λ y, y ≠ x) (keep_first l')
  end.

(** [df.drop_duplicates()]: rows are compared on all columns, [NaN]
    cells comparing equal. *)
Definition drop_duplicates (df : DataFrame) : DataFrame :=
  {| columns := columns df; rows := keep_first (rows df) |}.

(** *** Group-by and transform *)

Definition same_group (keys : list string) (r r' : Row) : Prop :=
  Forall (λ k, cell k r = cell k r') keys.

#[global] Instance same_group_dec keys r r' : Decision (same_group keys r r').
Proof. unfold same_group. apply _. Defined.

(** The rows of [df] in the group of [r]. *)
Definition group_of (keys : list string) (df : DataFrame) (r : Row) : list Row :=
  filter (same_group keys r) (rows df).

(** [df.groupby(keys)[c].transform(agg)]: one value per row, the
    aggregate of column [c] over the row's group.  Rows with a missing
    key belong to no group ([dropna=True]) and get [NaN]. *)
Definition groupby_transform (keys : list string) (c : string)
    (agg : list value → Result value) (df : DataFrame) : Result (list value) :=
  _ ← require keys df;
  _ ← require [c] df;
  mapM (λ r, if existsb (λ k, isna (cell k r)) keys then Ok NaN
            else agg (cell c <$> group_of keys df r)) (rows df).

(** *** Arithmetic on cells *)


Definition Qc_sum (xs : list Qc) : Qc := foldr Qcplus 0 xs.

(** A cell read as a float: [None] for the missing value; a string
    raises [TypeError]. *)
Definition to_float (v : value) : Result (option Qc) :=
  match v with
  | VInt z => Ok (Some (Qc_of_Z z))
  | VFloat q => Ok (Some q)
  | NaN => Ok None
  | VStr _ => Err TypeError
  end.

(** The non-missing numbers of a column slice. *)
Definition numeric (vs : list value) : Result (list Qc) :=
  omap id <$> mapM to_float vs.

(** Element-wise [a - b] of two cells. *)
Definition sub_value (a b : value) : Result value :=
  match a, b with
  | VStr _, _ | _, VStr _ => Err TypeError
  | NaN, _ | _, NaN => Ok NaN
  | VInt x, VInt y => Ok (VInt (x - y))
  | VInt x, VFloat y => Ok (VFloat (Qc_of_Z x - y))
  | VFloat x, VInt y => Ok (VFloat (x - Qc_of_Z y))
  | VFloat x, VFloat y => Ok (VFloat (x - y))
  end.

(** [a - b] of two columns of the same frame. *)
Definition sub_series (a b : list value) : Result (list value) :=
  mapM (λ ab, sub_value ab.1 ab.2) (zip a b).

Definition arith_mean (xs : list Qc) : Qc :=
  Qc_sum xs / Qc_of_Z (Z.of_nat (length xs)).

(** ['count']: the number of non-missing cells. *)
Definition agg_count (vs : list value) : Result value :=
  Ok (VInt (Z.of_nat (length (filter (λ v, isna v = false) vs)))).

(** ['mean']: the mean of the non-missing cells, [NaN] when there is none. *)
Definition agg_mean (vs : list value) : Result value :=
  xs ← numeric vs;
  Ok (match xs with [] => NaN | _ => VFloat (arith_mean xs) end).

Section Libraries.
(** Square root on non-negative floats. *)
Variable sqrt : Qc → Qc.
(** Whether the installed [IsolationForest] admits missing values in
    its input (releases differ). *)
Variable accepts_nan : bool.
(** [score_samples seed X x]: the score the forest grown from the
    training matrix [X] with [random_state=seed] gives to sample [x];
    the lower, the more abnormal. *)
Variable score_samples : Z → list (list value) → list value → Qc.

(** The standard deviation with [ddof=1]. *)
Definition sample_std (xs : list Qc) : Qc :=
  let m := arith_mean xs in
  sqrt (Qc_sum ((λ x, (x - m) * (x - m)) <$> xs) / (Qc_of_Z (Z.of_nat (length xs)) - 1)).

(** ['std']: the sample standard deviation of the non-missing cells,
    [NaN] when there are fewer than two. *)
Definition agg_std (vs : list value) : Result value :=
  xs ← numeric vs;
  Ok (if decide (length xs < 2)%nat then NaN else VFloat (sample_std xs)).

(** ** scikit-learn *)

(** [df.values] *)
Definition to_matrix (df : DataFrame) : list (list value) :=
  (λ r, (λ c, cell c r) <$> columns df) <$> rows df.

Definition Qc_min (x y : Qc) : Qc := if decide (x ≤ y) then x else y.
Definition Qc_max (x y : Qc) : Qc := if decide (x ≤ y) then y else x.

(** [np.percentile(a, q)] with linear interpolation. *)
Definition percentile (a : list Qc) (q : Qc) : Qc :=
  let s := merge_sort Qcle a in
  let n := Z.of_nat (length a) in
  let vi := Qc_of_Z (n - 1) * q / Qc_of_Z 100 in
  let prev := Qfloor vi in
  let next := Z.min (prev + 1) (n - 1) in
  let gamma := vi - Qc_of_Z prev in
  let lo := default 0 (s !! Z.to_nat prev) in
  let hi := default 0 (s !! Z.to_nat next) in
  lo + (hi - lo) * gamma.

(** Input validation of [fit]: at least one sample, numeric cells, and
    no missing value unless the release admits them. *)
Definition valid_X (X : list (list value)) : bool :=
  bool_decide (X ≠ []) &&
  forallb (forallb (λ v, match v with
                         | VStr _ => false
                         | NaN => accepts_nan
                         | _ => true
                         end)) X.

(** A fitted [IsolationForest]. *)
Record Forest := mkForest {
  f_seed : Z;
  f_train : list (list value);
  offset_ : Qc
}.

(** [IsolationForest(contamination=c, random_state=seed).fit(X)]:
    [contamination] must lie in (0, 0.5]; the threshold [offset_] is
    the [100*c]-th percentile of the training scores. *)
Definition fit (c : Qc) (seed : Z) (X : list (list value)) : Result Forest :=
  if bool_decide (0 < c ∧ c ≤ Q2Qc (1 # 2)) then
    if valid_X X then
      Ok {| f_seed := seed; f_train := X;
            offset_ := percentile (score_samples seed X <$> X) (Qc_of_Z 100 * c) |}
    else Err ValueError
  else Err ValueError.

(** [decision_function(X) = score_samples(X) - offset_], sample by
    sample. *)
Definition decision_one (m : Forest) (x : list value) : Qc :=
  score_samples (f_seed m) (f_train m) x - offset_ m.

Definition decision_function (m : Forest) (X : list (list value)) : list Qc :=
  decision_one m <$> X.

(** [predict]: [-1] where the decision function is negative, else [1]. *)
Definition label (d : Qc) : Z :=
  if bool_decide (d < 0) then (-1)%Z else 1%Z.

Definition predict (m : Forest) (X : list (list value)) : list Z :=
  label <$> decision_function m X.

(** [MinMaxScaler()] on one column.  [fit] computes [scale_], which is
    [1 / data_range_] with a zero range replaced by 1, and [min_], which
    is [0 - data_min_ * scale_]; [transform] returns [X * scale_ + min_]. *)
Record Scaler := mkScaler {
  scale_ : Qc;
  min_ : Qc
}.

Definition data_min (x : Qc) (l : list Qc) : Qc := foldr Qc_min x l.
Definition data_max (x : Qc) (l : list Qc) : Qc := foldr Qc_max x l.

Definition MinMaxScaler_fit (X : list Qc) : Result Scaler :=
  match X with
  | [] => Err ValueError
  | x :: l =>
      let data_range := data_max x l - data_min x l in
      let scale := 1 / (if decide (data_range = 0) then 1 else data_range) in
      Ok {| scale_ := scale; min_ := 0 - data_min x l * scale |}
  end.

Definition MinMaxScaler_transform (s : Scaler) (X : list Qc) : list Qc :=
  (λ v, v * scale_ s + min_ s) <$> X.

Definition MinMaxScaler_fit_transform (X : list Qc) : Result (list Qc) :=
  s ← MinMaxScaler_fit X; Ok (MinMaxScaler_transform s X).

(** ** The caller's world *)

Record World := mkWorld {
  caller_df : DataFrame;
  fit_log : list (Qc * Z * list (list value))
}.

Definition M (A : Type) : Type := World → World * Result A.

#[local] Instance M_ret : MRet M := λ A a w, (w, Ok a).
#[local] Instance M_bind : MBind M := λ A B f m w,
  match m w with
  | (w', Ok a) => f a w'
  | (w', Err e) => (w', Err e)
  end.

Definition lift {A} (r : Result A) : M A := λ w, (w, r).

(** Evaluate [f] on the caller's frame. *)
Definition with_df {A} (f : DataFrame → Result A) : M A :=
  λ w, (w, f (caller_df w)).

(** [df[c] = f(df)] on the caller's frame, in place. *)
Definition df_setitem (c : string) (f : DataFrame → Result (list value)) : M unit :=
  λ w, match f (caller_df w) with
       | Ok vals => ({| caller_df := setitem c vals (caller_df w);
                        fit_log := fit_log w |}, Ok tt)
       | Err e => (w, Err e)
       end.

(** [fit_predict(X)]: the call is logged, the forest is fitted on [X]
    and predicts [X]. *)
Definition fit_predict (c : Qc) (seed : Z) (X : list (list value)) : M (Forest * list Z) :=
  λ w, ({| caller_df := caller_df w; fit_log := fit_log w ++ [(c, seed, X)] |},
        m ← fit c seed X; Ok (m, predict m X)).

(** ** analyze_df *)

(** Lines 31-39: the preprocessing.  The first two assignments write
    to the caller's frame; [data_no_proc] is a new frame. *)
Definition preprocess : M DataFrame :=
  _ ← df_setitem "total_proc_count"
        (groupby_transform ["device"; "scan"] "procName" agg_count);
  _ ← df_setitem "difference_count"
        (λ df, a ← getitem "total_proc_count" df;
               b ← getitem "scan_proc_count" df;
               sub_series a b);
  data_no_proc ← with_df (λ df,
      drop_duplicates <$>
        drop ["Unnamed: 0"; "procName"; "scan_proc_count"; "timestamp";
              "total_proc_count"] df);
  m ← lift (groupby_transform ["device"] "difference_count" agg_mean data_no_proc);
  let data_no_proc := setitem "mean_difference_count" m data_no_proc in
  s ← lift (groupby_transform ["device"] "difference_count" agg_std data_no_proc);
  mret (setitem "std_difference_count" s data_no_proc).

(** Line 107: one row per distinct (device, mean, std). *)
Definition feature_table (data_no_proc : DataFrame) : Result DataFrame :=
  drop_duplicates <$> drop ["scan"; "difference_count"] data_no_proc.

(** Lines 108-116: labels, raw scores and normalised scores. *)
Definition score (anomaly_percentage : Qc) (filtered_df : DataFrame) : M DataFrame :=
  features ← lift (select ["mean_difference_count"; "std_difference_count"] filtered_df);
  '(iso_forest, labels) ← fit_predict anomaly_percentage 42 (to_matrix features);
  let filtered_df := setitem "anomaly" (VInt <$> labels) filtered_df in
  let scores := decision_function iso_forest (to_matrix features) in
  let filtered_df := setitem "anomaly_score" (VFloat <$> scores) filtered_df in
  normalized ← lift (MinMaxScaler_fit_transform (Qcopp <$> scores));
  mret (setitem "score_normalized" (VFloat <$> normalized) filtered_df).

(** Line 126: the devices of the rows labelled [-1]. *)
Definition anomalous_devices (filtered_df : DataFrame) : Result (gset value) :=
  _ ← require ["anomaly"; "device"] filtered_df;
  Ok (list_to_set (cell "device" <$>
        filter (λ r, cell "anomaly" r = VInt (-1)) (rows filtered_df))).

(** Lines 31-116: the scored table [filtered_df]. *)
Definition scored_table (anomaly_percentage : Qc) : M DataFrame :=
  data_no_proc ← preprocess;
  filtered_df ← lift (feature_table data_no_proc);
  score anomaly_percentage filtered_df.

Definition analyze_df (anomaly_percentage : Qc) : M (gset value) :=
  filtered_df ← scored_table anomaly_percentage;
  lift (anomalous_devices filtered_df).


(** ** Well-formed input: a table of Scan Records *)

(** The columns [analyze_df] reads or drops: the five documented ones
    and the saved index column. *)
Definition scan_columns : list string :=
  ["Unnamed: 0"; "device"; "scan"; "procName"; "scan_proc_count"; "timestamp"].

Definition is_int (v : value) : bool :=
  match v with VInt _ => true | _ => false end.

(** The documented input columns. *)
Definition documented_columns : list string :=
  ["device"; "scan"; "procName"; "scan_proc_count"; "timestamp"].

(** A device, a scan and a process name that are present, and an
    integer reported count. *)
Definition typed_row (r : Row) : Prop :=
  isna (cell "device" r) = false ∧
  isna (cell "scan" r) = false ∧
  isna (cell "procName" r) = false ∧
  is_int (cell "scan_proc_count" r) = true.

#[global] Instance typed_row_dec r : Decision (typed_row r).
Proof. unfold typed_row. apply _. Defined.

(** A typed row that holds exactly the columns [cols]. *)
Definition scan_record_on (cols : list string) (r : Row) : Prop :=
  typed_row r ∧ dom r = list_to_set cols.

#[global] Instance scan_record_on_dec cols r : Decision (scan_record_on cols r).
Proof. unfold scan_record_on. apply _. Defined.

Definition table_of (cols : list string) (df : DataFrame) : Prop :=
  columns df ≡ₚ cols ∧ Forall (scan_record_on cols) (rows df).

#[global] Instance table_of_dec cols df : Decision (table_of cols df).
Proof. unfold table_of. apply _. Defined.

(** A well-formed input: a table of scan records with the six columns. *)
Definition well_formed (df : DataFrame) : Prop := table_of scan_columns df.

#[global] Instance well_formed_dec df : Decision (well_formed df).
Proof. unfold well_formed. apply _. Defined.

(** A table with the five documented columns only. *)
Definition documented (df : DataFrame) : Prop := table_of documented_columns df.

#[global] Instance documented_dec df : Decision (documented df).
Proof. unfold documented. apply _. Defined.

(** What lines 31-32 need of the caller's frame. *)
Definition readable (df : DataFrame) : Prop :=
  Forall (λ c, c ∈ columns df) ["device"; "scan"; "procName"; "scan_proc_count"] ∧
  ("total_proc_count" ∉ columns df) ∧
  ("difference_count" ∉ columns df) ∧
  Forall typed_row (rows df).

(** ** What the pipeline computes on a well-formed table *)

Definition int_of (v : value) : Z :=
  match v with VInt z => z | _ => 0%Z end.

(** The (device, scan) pair of a row. *)
Definition key (r : Row) : value * value := (cell "device" r, cell "scan" r).

(** Line 31: the number of rows of the row's (device, scan) group. *)
Definition total_proc_count (df : DataFrame) (r : Row) : Z :=
  Z.of_nat (length (filter (λ r', key r' = key r) (rows df))).

(** Line 32. *)
Definition difference_count (df : DataFrame) (r : Row) : Z :=
  (total_proc_count df r - int_of (cell "scan_proc_count" r))%Z.

(** The caller's frame after lines 31-32. *)
Definition enriched (df : DataFrame) : DataFrame :=
  {| columns := columns df ++ ["total_proc_count"; "difference_count"];
     rows := (λ r, <["difference_count" := VInt (difference_count df r)]>
                   (<["total_proc_count" := VInt (total_proc_count df r)]> r))
             <$> rows df |}.

(** The caller's frame after line 31. *)
Definition with_total (df : DataFrame) : DataFrame :=
  {| columns := columns df ++ ["total_proc_count"];
     rows := (λ r, <["total_proc_count" := VInt (total_proc_count df r)]> r) <$> rows df |}.

(** Line 36: the distinct (device, scan, difference_count) triples, in
    first-seen order. *)
Definition scan_rows (df : DataFrame) : list (value * value * Z) :=
  keep_first ((λ r, (key r, difference_count df r)) <$> rows df).

(** The differences of a device's rows of [data_no_proc]. *)
Definition device_diffs (df : DataFrame) (d : value) : list Qc :=
  (λ t, Qc_of_Z t.2) <$> filter (λ t, t.1.1 = d) (scan_rows df).

(** Lines 38-39. *)
Definition mean_difference_count (df : DataFrame) (d : value) : value :=
  VFloat (arith_mean (device_diffs df d)).

Definition std_difference_count (df : DataFrame) (d : value) : value :=
  if decide (length (device_diffs df d) < 2)%nat then NaN
  else VFloat (sample_std (device_diffs df d)).

(** A row of [data_no_proc] after line 36, and after line 39. *)
Definition scan_row (t : value * value * Z) : Row :=
  <["device" := t.1.1]> (<["scan" := t.1.2]>
  (<["difference_count" := VInt t.2]> ∅)).

Definition data_row (df : DataFrame) (t : value * value * Z) : Row :=
  <["std_difference_count" := std_difference_count df t.1.1]>
  (<["mean_difference_count" := mean_difference_count df t.1.1]>
  (scan_row t)).

Definition dropped_columns : list string :=
  ["Unnamed: 0"; "procName"; "scan_proc_count"; "timestamp"; "total_proc_count"].

(** [data_no_proc] after line 39. *)
Definition data_no_proc (df : DataFrame) : DataFrame :=
  {| columns := filter (λ c, c ∉ dropped_columns) (columns (enriched df))
                ++ ["mean_difference_count"; "std_difference_count"];
     rows := data_row df <$> scan_rows df |}.

(** The devices of the table, in first-seen order. *)
Definition devices (df : DataFrame) : list value :=
  keep_first (cell "device" <$> rows df).

(** Line 107: the row of a device in [filtered_df]. *)
Definition feature_row (df : DataFrame) (d : value) : Row :=
  <["std_difference_count" := std_difference_count df d]>
  (<["mean_difference_count" := mean_difference_count df d]>
  (<["device" := d]> ∅)).

Definition feature_columns : list string :=
  ["device"; "mean_difference_count"; "std_difference_count"].

Definition feature_frame (df : DataFrame) : DataFrame :=
  {| columns := feature_columns; rows := feature_row df <$> devices df |}.

(** Line 108: the feature vector of a device, and the matrix handed to
    the forest. *)
Definition feature_vector (df : DataFrame) (d : value) : list value :=
  [mean_difference_count df d; std_difference_count df d].

Definition features (df : DataFrame) : list (list value) :=
  feature_vector df <$> devices df.

(** Lines 110-116 for one device: its raw score, its label and its row
    of the scored table. *)
Definition raw_score (df : DataFrame) (m : Forest) (d : value) : Qc :=
  decision_one m (feature_vector df d).

Definition anomaly (df : DataFrame) (m : Forest) (d : value) : Z :=
  label (raw_score df m d).

Definition score_normalized (df : DataFrame) (m : Forest) (s : Scaler) (d : value) : Qc :=
  - raw_score df m d * scale_ s + min_ s.

Definition scored_row (df : DataFrame) (m : Forest) (s : Scaler) (d : value) : Row :=
  <["score_normalized" := VFloat (score_normalized df m s d)]>
  (<["anomaly_score" := VFloat (raw_score df m d)]>
  (<["anomaly" := VInt (anomaly df m d)]> (feature_row df d))).

Definition scored_frame (df : DataFrame) (m : Forest) (s : Scaler) : DataFrame :=
  {| columns := feature_columns ++ ["anomaly"; "anomaly_score"; "score_normalized"];
     rows := scored_row df m s <$> devices df |}.

(** The scaler fitted at line 116 to the negated raw scores. *)
Definition scores (df : DataFrame) (m : Forest) : list Qc :=
  raw_score df m <$> devices df.

Definition scaler (df : DataFrame) (m : Forest) : Scaler :=
  match MinMaxScaler_fit (Qcopp <$> scores df m) with
  | Ok s => s
  | Err _ => {| scale_ := 1; min_ := 0 |}
  end.

(** Line 126: the devices labelled [-1]. *)
Definition anomalous_set (df : DataFrame) (m : Forest) : gset value :=
  list_to_set (filter (λ d, anomaly df m d = (-1)%Z) (devices df)).

(** ** The data model of the specification *)

(** The distinct device x scan pairs, in first-seen order: one Scan
    Summary each. *)
Definition scan_pairs (df : DataFrame) : list (value * value) :=
  keep_first (key <$> rows df).

(** The Scan Records of a device x scan pair. *)
Definition records_of (df : DataFrame) (k : value * value) : list Row :=
  filter (λ r, key r = k) (rows df).

(** observed_proc_count: the number of rows of the pair. *)
Definition observed_proc_count (df : DataFrame) (k : value * value) : Z :=
  Z.of_nat (length (records_of df k)).

(** reported_proc_count: the reported count of the pair's first record. *)
Definition reported_proc_count (df : DataFrame) (k : value * value) : Z :=
  match records_of df k with
  | r :: _ => int_of (cell "scan_proc_count" r)
  | [] => 0%Z
  end.

Definition discrepancy (df : DataFrame) (k : value * value) : Z :=
  (observed_proc_count df k - reported_proc_count df k)%Z.

(** The per-scan discrepancies of a device, one value per device x scan. *)
Definition device_discrepancies (df : DataFrame) (d : value) : list Qc :=
  (λ k, Qc_of_Z (discrepancy df k)) <$> filter (λ k, k.1 = d) (scan_pairs df).

(** The scans of a device. *)
Definition scans_of (df : DataFrame) (d : value) : list value :=
  keep_first (cell "scan" <$> filter (λ r, cell "device" r = d) (rows df)).

(** The reported count is the same on all the records of a scan. *)
Definition constant_reported (df : DataFrame) : Prop :=
  Forall (λ r, Forall (λ r', key r = key r' →
     cell "scan_proc_count" r = cell "scan_proc_count" r') (rows df)) (rows df).

#[global] Instance constant_reported_dec df : Decision (constant_reported df).
Proof. unfold constant_reported. apply _. Defined.

(** The forest [fit] returns on the features of a well-formed table. *)
Definition fitted (anomaly_percentage : Qc) (df : DataFrame) : Forest :=
  {| f_seed := 42; f_train := features df;
     offset_ := percentile (score_samples 42 (features df) <$> features df)
                  (Qc_of_Z 100 * anomaly_percentage) |}.

(** ** Effects on the world *)

(** A computation that reads nothing of the world but the caller's
    frame. *)
Definition frame_determined {A} (m : M A) : Prop :=
  ∀ w1 w2, caller_df w1 = caller_df w2 →
    (m w1).2 = (m w2).2 ∧ caller_df (m w1).1 = caller_df (m w2).1.

(** A computation that leaves the caller's frame as it is. *)
Definition keeps_frame {A} (m : M A) : Prop :=
  ∀ w, caller_df (m w).1 = caller_df w.

(** A computation that does not call the forest. *)
Definition no_fit {A} (m : M A) : Prop :=
  ∀ w, fit_log (m w).1 = fit_log w.



(** ** Rounding, as the specification counts anomalies *)

(** Python's [round]: to the nearest integer, ties to the even one. *)
Definition py_round (q : Qc) : Z :=
  let f := Qfloor q in
  let r := q - Qc_of_Z f in
  if decide (r < Q2Qc (1 # 2)) then f
  else if decide (Q2Qc (1 # 2) < r) then (f + 1)%Z
  else if Z.even f then f else (f + 1)%Z.

(** ** Sample tables and libraries *)

(** A statement about every square root, every release of the forest
    and every scoring. *)
Definition for_all_libraries
    (P : (Qc → Qc) → bool → (Z → list (list value) → list value → Qc) → Prop) : Prop :=
  ∀ sqrt' accepts_nan' score_samples', P sqrt' accepts_nan' score_samples'.

(** A rational approximation of the square root, to four decimals. *)
Definition rational_sqrt (q : Qc) : Qc :=
  Q2Qc (Z.sqrt (Qnum q * Z.pos (Qden q) * 100000000) # (Qden q * 10000)).

(** A scoring that ranks a sample by the size of its mean difference. *)
Definition sample_score (seed : Z) (X : list (list value)) (x : list value) : Qc :=
  match x with
  | VFloat m :: _ => - (m * m)
  | _ => 0
  end.

(** One line of the input file: index, device, scan, process name and
    reported count. *)
Definition scan_line (i : Z) (d : string) (s : Z) (p : string) (n : Z) : Row :=
  <["Unnamed: 0" := VInt i]> (<["device" := VStr d]> (<["scan" := VInt s]>
  (<["procName" := VStr p]> (<["scan_proc_count" := VInt n]>
  (<["timestamp" := VInt (1700000000 + i)]> ∅))))).

Definition table (ls : list Row) : DataFrame :=
  {| columns := scan_columns; rows := ls |}.

Definition fresh_world (df : DataFrame) : World :=
  {| caller_df := df; fit_log := [] |}.

(** Three devices with two scans each; [C] reports far fewer processes
    than are observed. *)
Definition df_fleet : DataFrame := table
  [scan_line 0 "A" 1 "init" 1; scan_line 1 "A" 2 "init" 2; scan_line 2 "A" 2 "sh" 2;
   scan_line 3 "B" 1 "init" 1; scan_line 4 "B" 2 "init" 2;
   scan_line 5 "C" 1 "init" 1; scan_line 6 "C" 1 "sh" 1; scan_line 7 "C" 1 "cron" 1;
   scan_line 8 "C" 1 "ps" 1; scan_line 9 "C" 2 "init" 1; scan_line 10 "C" 2 "sh" 1;
   scan_line 11 "C" 2 "ps" 1].

(** Device [A] has exactly one scan. *)
Definition df_single : DataFrame := table
  [scan_line 0 "A" 1 "init" 1; scan_line 1 "A" 1 "sh" 1;
   scan_line 2 "B" 1 "init" 1; scan_line 3 "B" 2 "init" 3;
   scan_line 4 "C" 1 "init" 1; scan_line 5 "C" 2 "init" 2; scan_line 6 "C" 2 "sh" 2].

(** The two records of the one scan of [A] report different counts. *)
Definition df_varying : DataFrame := table
  [scan_line 0 "A" 1 "init" 1; scan_line 1 "A" 1 "sh" 2].

(** One device, two scans. *)
Definition df_one : DataFrame := table
  [scan_line 0 "A" 1 "init" 1; scan_line 1 "A" 2 "init" 3].

(** Ten devices with the same two scans each. *)
Definition two_scans (i : Z) (d : string) : list Row :=
  [scan_line (2 * i) d 1 "init" 1; scan_line (2 * i + 1) d 2 "init" 3].

Definition df_ten : DataFrame := table
  (two_scans 0 "D0" ++ two_scans 1 "D1" ++ two_scans 2 "D2" ++ two_scans 3 "D3" ++
   two_scans 4 "D4" ++ two_scans 5 "D5" ++ two_scans 6 "D6" ++ two_scans 7 "D7" ++
   two_scans 8 "D8" ++ two_scans 9 "D9").

(** The documented five columns, without the saved index. *)
Definition df_documented : DataFrame :=
  {| columns := documented_columns;
     rows := delete "Unnamed: 0" <$> rows df_fleet |}.

(** The default contamination. *)
Definition default_percentage : Qc := Q2Qc (15 # 100).

(** The world after the call on a well-formed table. *)
Definition world_after (anomaly_percentage : Qc) (w : World) : World :=
  {| caller_df := enriched (caller_df w);
     fit_log := fit_log w ++ [(anomaly_percentage, 42%Z, features (caller_df w))] |}.

(** ** The devices returned *)

(** The devices labelled [-1] by the forest fitted with contamination
    [c], in first-seen order. *)
Definition flagged_devices (c : Qc) (df : DataFrame) : list value :=
  filter (λ d, anomaly df (fitted c df) d = (-1)%Z) (devices df).

(** ** What the analysis reads of a table *)

(** The device, the scan and the reported count of a record. *)
Definition reading (r : Row) : value * value * value :=
  (cell "device" r, cell "scan" r, cell "scan_proc_count" r).

Definition readings (df : DataFrame) : list (value * value * value) :=
  reading <$> rows df.

(** ** The optional part: plots and messages *)

(** With [create_plots] the function draws one figure per device with
    matplotlib and saves it under [output_dir]; with [verbose] it prints
    one line per anomalous device.  Both are modelled by the trace of the
    calls made to the operating system, to [matplotlib.pyplot] and to
    [print], in order and with their arguments. *)

(** *** Values as Python compares and prints them *)

Definition is_str (v : value) : bool :=
  match v with VStr _ => true | _ => false end.

(** [a == b]: numbers compare by value, [NaN] equals nothing. *)
Definition py_eq (a b : value) : bool :=
  match a, b with
  | VStr s, VStr t => bool_decide (s = t)
  | VInt x, VInt y => bool_decide (x = y)
  | VInt x, VFloat y => bool_decide (Qc_of_Z x = y)
  | VFloat x, VInt y => bool_decide (x = Qc_of_Z y)
  | VFloat x, VFloat y => bool_decide (x = y)
  | _, _ => false
  end.

(** [a < b]: text against text by code points, number against number;
    text against a number raises [TypeError]; [NaN] is below nothing. *)
Definition py_lt (a b : value) : Result bool :=
  match a, b with
  | VStr s, VStr t => Ok (String.ltb s t)
  | VStr _, _ | _, VStr _ => Err TypeError
  | NaN, _ | _, NaN => Ok false
  | VInt x, VInt y => Ok (bool_decide (x < y)%Z)
  | VInt x, VFloat y => Ok (bool_decide (Qc_of_Z x < y))
  | VFloat x, VInt y => Ok (bool_decide (x < Qc_of_Z y))
  | VFloat x, VFloat y => Ok (bool_decide (x < y))
  end.

(** [sorted(l)]: a stable sort that compares with [<] only.  The result
    is that of Python's sort whenever [<] orders the elements (texts only,
    or numbers without [NaN]); a list that mixes text with anything else
    raises [TypeError]. *)
Fixpoint insert_sorted (x : value) (l : list value) : Result (list value) :=
  match l with
  | [] => Ok [x]
  | y :: l' =>
      b ← py_lt y x;
      if b : bool then cons y <$> insert_sorted x l' else Ok (x :: y :: l')
  end.

Fixpoint sorted (l : list value) : Result (list value) :=
  match l with
  | [] => Ok []
  | x :: l' => s ← sorted l'; insert_sorted x s
  end.

(** [f'{q:.{digits}f}'] of a float: the decimal expansion rounded to
    [digits] places, ties to even, with the sign of [q]. *)
Definition zero_padded (width : nat) (s : string) : string :=
  String.concat "" (replicate (width - String.length s) "0") +:+ s.

Definition format_float (digits : nat) (q : Qc) : string :=
  let p := (10 ^ Z.of_nat digits)%Z in
  let scaled := py_round ((if decide (q < 0) then - q else q) * Qc_of_Z p) in
  (if decide (q < 0) then "-" else "") +:+ pretty (scaled `div` p)%Z +:+
  match digits with
  | O => ""
  | _ => "." +:+ zero_padded digits (pretty (scaled `mod` p)%Z)
  end.

(** [f'{v:.{digits}f}'] of a cell: text has no such format. *)
Definition format_fixed (digits : nat) (v : value) : Result string :=
  match v with
  | VFloat q => Ok (format_float digits q)
  | VInt z => Ok (format_float digits (Qc_of_Z z))
  | NaN => Ok "nan"
  | VStr _ => Err ValueError
  end.

(** [os.path.join(a, b)] on a POSIX system. *)
Definition ends_with_slash (a : string) : bool :=
  bool_decide (String.substring (String.length a - 1) 1 a = "/").

Definition path_join (a b : string) : string :=
  if String.prefix "/" b then b
  else if bool_decide (a = "") || ends_with_slash a then a +:+ b
  else a +:+ "/" +:+ b.

(** *** Events *)

(** The calls to [matplotlib.pyplot], with their arguments. *)
Inductive plt_call :=
  | plt_figure (width height : Z)
  | plt_plot (x : list Z) (y : list value) (marker label : string)
  | plt_axhline (y : value) (color linestyle label : string)
  | plt_axvline (x : Z) (color linestyle : string) (alpha : Qc) (label : option string)
  | plt_xticks (ticks : list Z) (labels : list value) (rotation : Z) (ha : string)
  | plt_title (s : string)
  | plt_xlabel (s : string)
  | plt_ylabel (s : string)
  | plt_grid (b : bool)
  | plt_tight_layout
  | plt_legend (labels : list string)
  | plt_savefig (filename : string)
  | plt_close.

#[global] Instance plt_call_eq_dec : EqDecision plt_call.
Proof. solve_decision. Defined.

Inductive event :=
  | Makedirs (path : string)
  | Pyplot (call : plt_call)
  | Stdout (line : string).

#[global] Instance event_eq_dec : EqDecision event.
Proof. solve_decision. Defined.

(** The outcome of a call made under [try]: the exception, if any, by
    the name of its type and its message. *)
Inductive Try (A : Type) :=
  | Returned (a : A)
  | Raised (type_name message : string).
#[global] Arguments Returned {A} a.
#[global] Arguments Raised {A} type_name message.

(** What the interpreter, the libraries and the operating system
    decide. *)
Record Runtime := mkRuntime {
  (** [str(x)] of a float *)
  float_repr : Qc → string;
  (** [pd.to_numeric(s, errors='coerce')] of a text cell: a number, or
      the missing value *)
  parse_numeric : string → option Qc;
  (** [rpt.Pelt(model).fit(signal).predict(pen)] *)
  pelt_predict : string → list Qc → Z → Try (list Z);
  (** whether the operating system refuses a file operation, given the
      events so far *)
  os_refuses : list event → event → bool
}.

(** What [analyze_df] can raise with its options on. *)
Inductive failure :=
  | Python (e : exn)
  | OSError.

#[global] Instance failure_eq_dec : EqDecision failure.
Proof. solve_decision. Defined.

Inductive Outcome (A : Type) :=
  | Finished (a : A)
  | Failed (f : failure).
#[global] Arguments Finished {A} a.
#[global] Arguments Failed {A} f.

#[global] Instance Outcome_eq_dec {A} `{EqDecision A} : EqDecision (Outcome A).
Proof. solve_decision. Defined.

(** The caller's world and the events so far. *)
Record Machine := mkMachine {
  world : World;
  trace : list event
}.

Definition IO (A : Type) : Type := Machine → Machine * Outcome A.

#[local] Instance IO_ret : MRet IO := λ A a s, (s, Finished a).
#[local] Instance IO_bind : MBind IO := λ A B f m s,
  match m s with
  | (s', Finished a) => f a s'
  | (s', Failed e) => (s', Failed e)
  end.

Definition of_result {A} (r : Result A) : Outcome A :=
  match r with
  | Ok a => Finished a
  | Err e => Failed (Python e)
  end.

(** A computation on the caller's world. *)
Definition run {A} (m : M A) : IO A := λ s,
  ({| world := (m (world s)).1; trace := trace s |}, of_result (m (world s)).2).

(** A value, or the exception raised in its place. *)
Definition pure {A} (r : Result A) : IO A := λ s, (s, of_result r).

(** The machine after the events [evs]. *)
Definition log (evs : list event) (s : Machine) : Machine :=
  {| world := world s; trace := trace s ++ evs |}.

Definition emit (e : event) : IO unit := λ s, (log [e] s, Finished tt).

Fixpoint for_each {A} (l : list A) (body : A → IO unit) : IO unit :=
  match l with
  | [] => mret tt
  | x :: l' => _ ← body x; for_each l' body
  end.

(** The runtime the function runs in. *)
Variable py : Runtime.

(** [str(v)] *)
Definition py_str (v : value) : string :=
  match v with
  | VStr s => s
  | VInt z => pretty z
  | VFloat q => float_repr py q
  | NaN => "nan"
  end.

(** A file operation: it takes place unless the system refuses it. *)
Definition os_call (e : event) : IO unit := λ s,
  if os_refuses py (trace s) e then (s, Failed OSError) else emit e s.

(** *** Lines 43-104: one figure per device *)

(** [pd.to_numeric(v, errors='coerce')] *)
Definition to_numeric (v : value) : value :=
  match v with
  | VStr s => match parse_numeric py s with Some q => VFloat q | None => NaN end
  | _ => v
  end.

(** Lines 76-80, the loop of the [try] block: a vertical line for every
    change point but the last that lies below the number of rows; the first
    change point carries the label.  [result.iloc[cp]] raises [IndexError]
    below [-n].  The result: the lines drawn, and the exception that
    stopped the loop, if any. *)
Fixpoint change_point_lines (first n : Z) (cps : list Z) :
    list plt_call * option (string * string) :=
  match cps with
  | [] => ([], None)
  | cp :: cps' =>
      if bool_decide (cp < n)%Z then
        if bool_decide (cp < - n)%Z then
          ([], Some ("IndexError", "single positional indexer is out-of-bounds"))
        else
          let '(ls, e) := change_point_lines first n cps' in
          (plt_axvline cp "blue" "--" (Q2Qc (6 # 10))
             (if bool_decide (cp = first) then Some "Change Point" else None) :: ls, e)
      else change_point_lines first n cps'
  end.

(** Lines 69-80, the [try] block: the lines drawn, and the exception
    caught, if any. *)
Definition try_block (signal : list Qc) (n : Z) :
    list plt_call * option (string * string) :=
  match pelt_predict py "l2" signal 1000 with
  | Raised type_name message => ([], Some (type_name, message))
  | Returned change_points =>
      change_point_lines (default 0%Z (head change_points)) n
        (removelast change_points)
  end.

(** The label under which a call enters the legend. *)
Definition artist_label (c : plt_call) : option string :=
  match c with
  | plt_plot _ _ _ l => Some l
  | plt_axhline _ _ _ l => Some l
  | plt_axvline _ _ _ _ l => l
  | _ => None
  end.

(** Lines 98-100: the labels of the figure, each once, in the order in
    which they first occur. *)
Definition legend_labels (calls : list plt_call) : list string :=
  keep_first (omap artist_label calls).

(** Lines 82-85: the handler of the [try] block. *)
Definition skip_plot (device_name : value) (type_name message : string) : IO unit :=
  _ ← emit (Stdout ("Skipping ruptures plot for " +:+ py_str device_name +:+ ": " +:+
                    type_name +:+ " - " +:+ message));
  emit (Pyplot plt_close).

(** Lines 45-104: the body of the loop, for one device. *)
Definition plot_device (output_dir : string) (data_no_proc : DataFrame)
    (device_name : value) : IO unit :=
  let result := filter (λ r, py_eq (cell "device" r) device_name = true)
                  (rows data_no_proc) in
  if decide (result = []) then mret tt else
  let n := Z.of_nat (length result) in
  let index := seqZ 0 n in
  let y := to_numeric <$> (cell "difference_count" <$> result) in
  mean_value ← pure (agg_mean y);
  _ ← emit (Pyplot (plt_figure 10 6));
  let curve := plt_plot index y "o" "Difference Count" in
  _ ← emit (Pyplot curve);
  mean_text ← pure (format_fixed 2 mean_value);
  let mean_line := plt_axhline mean_value "red" "-." ("Mean = " +:+ mean_text) in
  _ ← emit (Pyplot mean_line);
  signal ← pure (numeric y);
  let '(lines, caught) := try_block signal n in
  _ ← for_each lines (λ c, emit (Pyplot c));
  match caught with
  | Some (type_name, message) => skip_plot device_name type_name message
  | None =>
      _ ← for_each
            [plt_xticks index (cell "scan" <$> result) 45 "right";
             plt_title ("Difference Count for " +:+ py_str device_name);
             plt_xlabel "Scan Number";
             plt_ylabel "Difference Count";
             plt_grid true;
             plt_tight_layout;
             plt_legend (legend_labels (curve :: mean_line :: lines))]
            (λ c, emit (Pyplot c));
      _ ← os_call (Pyplot (plt_savefig
             (path_join output_dir (py_str device_name +:+ "_statistics.png"))));
      emit (Pyplot plt_close)
  end.

(** Lines 43-104: the devices in the order of [sorted]. *)
Definition plots (output_dir : string) (data_no_proc : DataFrame) : IO unit :=
  device ← pure (getitem "device" data_no_proc);
  names ← pure (sorted (keep_first device));
  for_each names (plot_device output_dir data_no_proc).

(** *** Lines 119-124: the messages *)

(** [df.iterrows()]: the rows as Series.  A Series has one type: when no
    column of the frame holds text and some column holds floats, the rows
    are of type float64, and the integers in them become floats. *)
Definition numeric_frame (df : DataFrame) : bool :=
  forallb (λ r, forallb (λ c, negb (is_str (cell c r))) (columns df)) (rows df).

Definition is_float (v : value) : bool :=
  match v with VFloat _ | NaN => true | _ => false end.

Definition float_frame (df : DataFrame) : bool :=
  existsb (λ r, existsb (λ c, is_float (cell c r)) (columns df)) (rows df).

Definition as_float (v : value) : value :=
  match v with VInt z => VFloat (Qc_of_Z z) | _ => v end.

Definition iterrows (df : DataFrame) : list Row :=
  if numeric_frame df && float_frame df
  then (λ r : Row, as_float <$> r) <$> rows df
  else rows df.

Definition attention (device score_text : string) : string :=
  "Attention: Device " +:+ device +:+ " is an anomaly (score = " +:+ score_text +:+
  ") — needs investigation.".

Definition report_row (row : Row) : IO unit :=
  let device := cell "device" row in
  let score := cell "anomaly_score" row in
  if py_eq (cell "anomaly" row) (VInt (-1)) then
    score_text ← pure (format_fixed 4 score);
    emit (Stdout (attention (py_str device) score_text))
  else mret tt.

Definition report (filtered_df : DataFrame) : IO unit :=
  for_each (iterrows filtered_df) report_row.

(** *** The function with its options *)

Definition analyze_df_full (create_plots : bool) (output_dir : string)
    (anomaly_percentage : Qc) (verbose : bool) : IO (gset value) :=
  _ ← (if create_plots then os_call (Makedirs output_dir) else mret tt);
  data_no_proc ← run preprocess;
  _ ← (if create_plots then plots output_dir data_no_proc else mret tt);
  filtered_df ← pure (feature_table data_no_proc);
  filtered_df ← run (score anomaly_percentage filtered_df);
  _ ← (if verbose then report filtered_df else mret tt);
  pure (anomalous_devices filtered_df).

(** *** Effects of the optional part *)

(** A computation that leaves the caller's world alone and only adds
    events. *)
Definition writes_only {A} (m : IO A) : Prop :=
  ∀ s, ∃ evs, (m s).1 = log evs s.

(** The files saved by the events of a trace, in order. *)
Definition saved_file (e : event) : option string :=
  match e with Pyplot (plt_savefig f) => Some f | _ => None end.

Definition saved_files (evs : list event) : list string := omap saved_file evs.

(** The lines printed by the events of a trace, in order. *)
Definition printed_line (e : event) : option string :=
  match e with Stdout l => Some l | _ => None end.

Definition printed (evs : list event) : list string := omap printed_line evs.

(** The discipline of figures: a figure is opened by [plt.figure] when
    none is open, every other call to pyplot is made while one is open,
    and [plt.close] closes it.  [figure_open b evs] is [None] when [evs]
    breaks the discipline from the state [b], and otherwise tells whether
    a figure is open at the end. *)
Fixpoint figure_open (b : bool) (evs : list event) : option bool :=
  match evs with
  | [] => Some b
  | Pyplot (plt_figure _ _) :: evs' => if b then None else figure_open true evs'
  | Pyplot plt_close :: evs' => if b then figure_open false evs' else None
  | Pyplot _ :: evs' => if b then figure_open true evs' else None
  | _ :: evs' => figure_open b evs'
  end.

(** A computation that keeps the discipline from the state [before]: it
    only adds events, ends in the state [after] when it finishes, fails
    with an exception of the analysis only when no figure is open, and
    with [OSError] in some state. *)
Definition figures {A} (before after : bool) (m : IO A) : Prop :=
  ∀ s, ∃ evs, (m s).1 = log evs s ∧
    match (m s).2 with
    | Finished _ => figure_open before evs = Some after
    | Failed (Python _) => figure_open before evs = Some false
    | Failed OSError => is_Some (figure_open before evs)
    end.

(** *** The figure of a device of a well-formed table *)

(** The rows of [data_no_proc] for device [d]: its distinct (scan,
    difference) pairs, in first-seen order. *)
Definition device_points (df : DataFrame) (d : value) : list (value * value * Z) :=
  filter (λ t, t.1.1 = d) (scan_rows df).

(** The curve of a device: its differences against their position, and
    the horizontal line at their mean. *)
Definition device_curve (df : DataFrame) (d : value) : list plt_call :=
  [plt_plot (seqZ 0 (Z.of_nat (length (device_points df d))))
     ((λ t, VInt t.2) <$> device_points df d) "o" "Difference Count";
   plt_axhline (mean_difference_count df d) "red" "-."
     ("Mean = " +:+ format_float 2 (arith_mean (device_diffs df d)))].

(** The change points of a device: the outcome of the [try] block on its
    differences. *)
Definition device_change_points (df : DataFrame) (d : value) :
    list plt_call * option (string * string) :=
  try_block (device_diffs df d) (Z.of_nat (length (device_points df d))).

(** The name of the file of a device. *)
Definition statistics_file (output_dir : string) (d : value) : string :=
  path_join output_dir (py_str d +:+ "_statistics.png").

(** The events of the figure of device [d], when the system refuses
    nothing. *)
Definition device_figure (output_dir : string) (df : DataFrame) (d : value) : list event :=
  (Pyplot <$> plt_figure 10 6 :: device_curve df d ++ (device_change_points df d).1) ++
  match (device_change_points df d).2 with
  | Some (type_name, message) =>
      [Stdout ("Skipping ruptures plot for " +:+ py_str d +:+ ": " +:+
               type_name +:+ " - " +:+ message);
       Pyplot plt_close]
  | None =>
      Pyplot <$>
        [plt_xticks (seqZ 0 (Z.of_nat (length (device_points df d))))
           ((λ t, t.1.2) <$> device_points df d) 45 "right";
         plt_title ("Difference Count for " +:+ py_str d);
         plt_xlabel "Scan Number";
         plt_ylabel "Difference Count";
         plt_grid true;
         plt_tight_layout;
         plt_legend (legend_labels (device_curve df d ++ (device_change_points df d).1));
         plt_savefig (statistics_file output_dir d);
         plt_close]
  end.

(** The line printed for an anomalous device. *)
Definition attention_line (c : Qc) (df : DataFrame) (d : value) : string :=
  attention (py_str d) (format_float 4 (raw_score df (fitted c df) d)).

(** ** Sample runtime and tables for the optional part *)

(** A runtime in which the system refuses nothing, no text parses as a
    number, and the change point detection gives up on a signal of fewer
    than two points and finds no change point otherwise. *)
Definition sample_runtime : Runtime :=
  {| float_repr := format_float 1;
     parse_numeric := λ _, None;
     pelt_predict := λ _ signal _,
       if decide (length signal < 2)%nat
       then Raised "BadSegmentationParameters" ""
       else Returned [Z.of_nat (length signal)];
     os_refuses := λ _ _, false |}.

Definition fresh_machine (df : DataFrame) : Machine :=
  {| world := fresh_world df; trace := [] |}.

(** [df_fleet] with other indices, process names and timestamps. *)
Definition df_relabelled : DataFrame := table
  ((λ r, <["Unnamed: 0" := VInt 0]> (<["procName" := VStr "task"]>
         (<["timestamp" := VStr "2024-01-01"]> r))) <$> rows df_fleet).

(** [df_fleet] without its [device] column. *)
Definition df_no_device : DataFrame :=
  {| columns := ["Unnamed: 0"; "scan"; "procName"; "scan_proc_count"; "timestamp"];
     rows := delete "device" <$> rows df_fleet |}.

(** A reported count that is text. *)
Definition df_text_count : DataFrame := table
  [scan_line 0 "A" 1 "init" 1;
   <["scan_proc_count" := VStr "n/a"]> (scan_line 1 "A" 1 "sh" 1)].

(** A device named by text and one named by a number. *)
Definition df_mixed : DataFrame := table
  [scan_line 0 "A" 1 "init" 1; <["device" := VInt 7]> (scan_line 1 "" 1 "init" 1)].

(** [df_fleet] with the devices numbered 1, 2 and 3. *)
Definition df_numbered : DataFrame := table
  ((λ r, <["device" := VInt (if decide (cell "device" r = VStr "A") then 1
                             else if decide (cell "device" r = VStr "B") then 2
                             else 3)]> r) <$> rows df_fleet).

(** * Lemmas *)

(** Order facts on [Qc] are proved on the underlying rationals. *)
Ltac qc_to_q :=
  unfold Qcle, Qclt, Qcminus, Qcdiv in *;
  cbn [this Qcplus Qcmult Qcopp Q2Qc Qc_of_Z] in *;
  repeat (rewrite ?Qred_correct in * ).

(** ** The [Result] monad *)

Lemma mapM_Ok {A B} (f : A → Result B) (g : A → B) (l : list A) :
  Forall (λ x, f x = Ok (g x)) l → mapM f l = Ok (g <$> l).
Proof.
  induction 1 as [|x l Hx _ IH]; [done|].
  cbn. rewrite Hx. cbn. rewrite IH. done.
Qed.


(** ** [keep_first] *)

Section keep_first.
Context {A : Type} `{EqDecision A}.
Implicit Types l : list A.

Lemma filter_filter_swap (P Q : A → Prop) `{∀ x, Decision (P x)} `{∀ x, Decision (Q x)} l :
  filter P (filter Q l) = filter Q (filter P l).
Proof.
  induction l as [|x l IH]; [done|].
  rewrite !filter_cons. repeat case_decide; rewrite ?filter_cons;
    repeat case_decide; try done; by rewrite IH.
Qed.

Lemma filter_filter_absorb (P Q : A → Prop) `{∀ x, Decision (P x)} `{∀ x, Decision (Q x)} l :
  (∀ x, x ∈ l → P x → Q x) → filter P (filter Q l) = filter P l.
Proof.
  induction l as [|x l IH]; intros HPQ; [done|].
  rewrite !filter_cons.
  assert (filter P (filter Q l) = filter P l) as IH'
    by (apply IH; intros y Hy; apply HPQ; by right).
  destruct (decide (Q x)) as [HQ|HQ]; destruct (decide (P x)) as [HP|HP].
  - rewrite filter_cons, decide_True by done. by rewrite IH'.
  - rewrite filter_cons, decide_False by done. done.
  - destruct HQ. apply HPQ; [by left|done].
  - done.
Qed.

Lemma filter_ext_in (P Q : A → Prop) `{∀ x, Decision (P x)} `{∀ x, Decision (Q x)} l :
  (∀ x, x ∈ l → P x ↔ Q x) → filter P l = filter Q l.
Proof.
  induction l as [|x l IH]; intros HPQ; [done|].
  rewrite !filter_cons, IH by (intros y Hy; apply HPQ; by right).
  destruct (decide (P x)) as [HP|HP]; destruct (decide (Q x)) as [HQ|HQ];
    try done; exfalso; apply (HPQ x) in HP || apply (HPQ x) in HQ;
    try done; by left.
Qed.

Lemma keep_first_filter (P : A → Prop) `{∀ x, Decision (P x)} l :
  keep_first (filter P l) = filter P (keep_first l).
Proof.
  induction l as [|x l IH]; [done|].
  rewrite filter_cons. cbn [keep_first]. destruct (decide (P x)) as [HP|HP].
  - cbn [keep_first]. rewrite filter_cons, decide_True by done.
    rewrite IH. by rewrite filter_filter_swap.
  - rewrite IH, filter_cons, decide_False by done.
    symmetry. apply filter_filter_absorb.
    intros y _ Hy ->. done.
Qed.

Lemma elem_of_keep_first l x : x ∈ keep_first l ↔ x ∈ l.
Proof.
  induction l as [|y l IH]; [done|]. cbn.
  rewrite !elem_of_cons, list_elem_of_filter, IH.
  destruct (decide (x = y)); tauto.
Qed.

Lemma NoDup_keep_first l : NoDup (keep_first l).
Proof.
  induction l as [|y l IH]; cbn; [constructor|].
  constructor.
  - rewrite list_elem_of_filter. by intros [? _].
  - by apply NoDup_filter.
Qed.

Lemma keep_first_NoDup l : NoDup l → keep_first l = l.
Proof.
  induction 1 as [|x l Hx _ IH]; [done|]. cbn. rewrite IH. f_equal.
  clear IH. induction l as [|y l IHl]; [done|].
  rewrite not_elem_of_cons in Hx. destruct Hx as [Hxy Hx].
  rewrite filter_cons, decide_True by done. f_equal. by apply IHl.
Qed.

Lemma keep_first_nil_inv l : keep_first l = [] → l = [].
Proof. by destruct l. Qed.

End keep_first.

Section keep_first_fmap.
Context {A B : Type} `{EqDecision A} `{EqDecision B}.

Lemma filter_fmap (f : A → B) (P : B → Prop) `{∀ y, Decision (P y)} (l : list A) :
  filter P (f <$> l) = f <$> filter (λ x, P (f x)) l.
Proof.
  induction l as [|x l IH]; [done|].
  rewrite fmap_cons, !filter_cons, IH. by case_decide.
Qed.

Lemma keep_first_fmap_inj (f : A → B) (l : list A) :
  (∀ x y, x ∈ l → y ∈ l → f x = f y → x = y) →
  keep_first (f <$> l) = f <$> keep_first l.
Proof.
  induction l as [|x l IH]; intros Hinj; [done|].
  cbn. f_equal. rewrite IH.
  2:{ intros y z Hy Hz. apply Hinj; by right. }
  rewrite filter_fmap. f_equal.
  apply filter_ext_in. intros y Hy.
  rewrite elem_of_keep_first in Hy.
  split; [by intros ? ->|].
  intros Hyx Hf. apply Hyx. apply Hinj; [by right|by left|done].
Qed.

End keep_first_fmap.

Section list_facts.
Context {A B C : Type}.

Lemma keep_first_fmap_keep_first `{EqDecision A} `{EqDecision B} (f : A → B) (l : list A) :
  keep_first (f <$> keep_first l) = keep_first (f <$> l).
Proof.
  induction l as [|x l IH]; [done|].
  cbn. f_equal. rewrite <- IH, <- !keep_first_filter. f_equal.
  rewrite !filter_fmap. f_equal. rewrite keep_first_filter.
  apply filter_filter_absorb. by intros y _ Hy ->.
Qed.

Lemma zip_with_fmap_same (f : A → B → C) (g : A → B) (l : list A) :
  zip_with f l (g <$> l) = (λ x, f x (g x)) <$> l.
Proof. induction l as [|x l IH]; [done|]. cbn. by rewrite IH. Qed.

Lemma zip_fmap_same (f : A → B) (g : A → C) (l : list A) :
  zip (f <$> l) (g <$> l) = (λ x, (f x, g x)) <$> l.
Proof. induction l as [|x l IH]; [done|]. cbn. by f_equal. Qed.

Lemma fmap_ext_in (f g : A → B) (l : list A) :
  (∀ x, x ∈ l → f x = g x) → f <$> l = g <$> l.
Proof.
  induction l as [|x l IH]; intros H; [done|].
  cbn. f_equal; [apply H; by left|]. apply IH. intros y Hy. apply H. by right.
Qed.

Lemma filter_all (P : A → Prop) `{∀ x, Decision (P x)} (l : list A) :
  Forall P l → filter P l = l.
Proof.
  induction 1 as [|x l Hx _ IH]; [done|].
  by rewrite filter_cons, decide_True, IH.
Qed.

Lemma filter_none (P : A → Prop) `{∀ x, Decision (P x)} (l : list A) :
  Forall (λ x, ¬ P x) l → filter P l = [].
Proof.
  induction 1 as [|x l Hx _ IH]; [done|].
  by rewrite filter_cons, decide_False, IH.
Qed.

End list_facts.

(** ** Frames *)

Lemma cell_insert_eq c v (r : Row) : cell c (<[c := v]> r) = v.
Proof. unfold cell. by rewrite lookup_insert_eq. Qed.

Lemma cell_insert_ne c c' v (r : Row) : c' ≠ c → cell c (<[c' := v]> r) = cell c r.
Proof. intros. unfold cell. by rewrite lookup_insert_ne. Qed.

Lemma missing_labels_perm cols df L :
  columns df ≡ₚ L → missing_labels cols df = filter (λ c, c ∉ L) cols.
Proof.
  intros HL. unfold missing_labels. apply list_filter_iff.
  intros c. by rewrite HL.
Qed.

Lemma require_perm cols df L :
  columns df ≡ₚ L → filter (λ c, c ∉ L) cols = [] → require cols df = Ok tt.
Proof.
  intros HL Hnil. unfold require. by rewrite (missing_labels_perm _ _ L), Hnil.
Qed.

Lemma setitem_fresh c (g : Row → value) df :
  c ∉ columns df →
  setitem c (g <$> rows df) df =
    {| columns := columns df ++ [c]; rows := (λ r, <[c := g r]> r) <$> rows df |}.
Proof.
  intros Hc. unfold setitem. by rewrite decide_False, zip_with_fmap_same.
Qed.

Lemma same_group_device_scan (r r' : Row) :
  same_group ["device"; "scan"] r r' ↔ key r' = key r.
Proof.
  unfold same_group, key. rewrite !Forall_cons, Forall_nil.
  split; [intros (-> & -> & _); done|intros [= -> ->]; done].
Qed.

Lemma same_group_device (r r' : Row) :
  same_group ["device"] r r' ↔ cell "device" r' = cell "device" r.
Proof.
  unfold same_group. rewrite Forall_cons, Forall_nil. split; [by intros [-> _]|by intros ->].
Qed.

Lemma require_Ok cols df :
  Forall (λ c, c ∈ columns df) cols → require cols df = Ok tt.
Proof.
  intros H. unfold require, missing_labels.
  replace (filter (λ c, c ∉ columns df) cols) with (@nil string); [done|].
  symmetry. induction H as [|c l Hc _ IH]; [done|].
  by rewrite filter_cons, decide_False by (by intros ?).
Qed.

Lemma table_of_readable cols df :
  Forall (λ c, c ∈ cols) ["device"; "scan"; "procName"; "scan_proc_count"] →
  "total_proc_count" ∉ cols → "difference_count" ∉ cols →
  table_of cols df → readable df.
Proof.
  intros Hin Ht Hd [Hcols Hrows]. repeat split.
  - eapply Forall_impl; [exact Hin|]. intros c Hc. by rewrite Hcols.
  - by rewrite Hcols.
  - by rewrite Hcols.
  - eapply Forall_impl; [exact Hrows|]. by intros r [? _].
Qed.

Lemma well_formed_readable df : well_formed df → readable df.
Proof. apply table_of_readable; [repeat constructor|..]; compute_done. Qed.

Lemma documented_readable df : documented df → readable df.
Proof. apply table_of_readable; [repeat constructor|..]; compute_done. Qed.

Lemma readable_require df cols :
  readable df → cols ⊆ ["device"; "scan"; "procName"; "scan_proc_count"] →
  require cols df = Ok tt.
Proof.
  intros [Hin _] Hsub. apply require_Ok, Forall_forall. intros c Hc.
  rewrite Forall_forall in Hin. by apply Hin, Hsub.
Qed.

(** *** Line 31 *)

Lemma total_proc_count_ok df :
  readable df →
  groupby_transform ["device"; "scan"] "procName" agg_count df =
    Ok ((λ r, VInt (total_proc_count df r)) <$> rows df).
Proof.
  intros Hread. pose proof Hread as (_ & _ & _ & Hrows). unfold groupby_transform.
  rewrite !(readable_require df) by (done || (intros c Hc; revert c Hc; apply Forall_forall; repeat constructor; compute_done)). cbn [mbind Result_bind].
  apply mapM_Ok. rewrite Forall_forall in Hrows |- *. intros r Hr.
  destruct (Hrows r Hr) as (Hd & Hs & _). cbn [existsb]. rewrite Hd, Hs. cbn [orb].
  unfold agg_count, total_proc_count, group_of. do 3 f_equal.
  rewrite filter_all.
  - rewrite length_fmap. f_equal. apply list_filter_iff. intros r'.
    apply same_group_device_scan.
  - rewrite Forall_fmap, Forall_forall. intros r' Hr'. cbn.
    apply list_elem_of_filter in Hr' as [_ Hr']. by destruct (Hrows r' Hr') as (_ & _ & ? & _).
Qed.

Lemma zip_with_fmap_both {A B C D} (f : B → C → D) (h : A → B) (g : A → C) (l : list A) :
  zip_with f (h <$> l) (g <$> l) = (λ x, f (h x) (g x)) <$> l.
Proof. induction l as [|x l IH]; [done|]. cbn. by rewrite IH. Qed.

Lemma lookup_cell (r : Row) c : is_Some (r !! c) → r !! c = Some (cell c r).
Proof. intros [v Hv]. unfold cell. by rewrite Hv. Qed.

Lemma scan_record_lookup (r : Row) c :
  scan_record_on scan_columns r → c ∈ scan_columns → r !! c = Some (cell c r).
Proof.
  intros [_ Hdom] Hc. apply lookup_cell, elem_of_dom.
  rewrite Hdom. by apply elem_of_list_to_set.
Qed.

Lemma scan_record_lookup_None (r : Row) c :
  scan_record_on scan_columns r → c ∉ scan_columns → r !! c = None.
Proof.
  intros [_ Hdom] Hc. apply not_elem_of_dom.
  rewrite Hdom. by rewrite elem_of_list_to_set.
Qed.

(** *** Line 32 *)

Lemma difference_count_ok df :
  readable df →
  (a ← getitem "total_proc_count" (with_total df);
   b ← getitem "scan_proc_count" (with_total df);
   sub_series a b) = Ok ((λ r, VInt (difference_count df r)) <$> rows df).
Proof.
  intros (Hin & _ & _ & Hrows).
  assert ("scan_proc_count" ∈ columns (with_total df)) as H1.
  { cbn. rewrite elem_of_app. left.
    rewrite Forall_forall in Hin. apply Hin. compute_done. }
  assert ("total_proc_count" ∈ columns (with_total df)) as H2.
  { cbn. rewrite elem_of_app. right. by left. }
  unfold getitem. rewrite !require_Ok by (by repeat constructor).
  cbn [mbind Result_bind].
  cbn [with_total rows]. rewrite <- !list_fmap_compose.
  unfold sub_series. rewrite zip_fmap_same.
  set (f := λ r : Row, VInt (difference_count df r)).
  transitivity (mapM (λ r : Row, Ok (f r)) (rows df) : Result (list value)).
  2:{ by apply mapM_Ok, Forall_true. }
  clear Hin. induction Hrows as [|r l Hr _ IH]; [done|].
  cbn [fmap list_fmap mapM]. rewrite <- IH. clear IH.
  cbn [compose fst snd]. rewrite cell_insert_eq, cell_insert_ne by done.
  destruct Hr as (_ & _ & _ & Hi).
  destruct (cell "scan_proc_count" r) eqn:E; try done. cbn [sub_value].
  subst f. cbn. unfold difference_count. by rewrite E.
Qed.

Lemma with_total_eq df :
  readable df →
  setitem "total_proc_count" ((λ r, VInt (total_proc_count df r)) <$> rows df) df
    = with_total df.
Proof. intros (_ & Ht & _). by apply setitem_fresh. Qed.

Lemma enriched_eq df :
  readable df →
  setitem "difference_count" ((λ r, VInt (difference_count df r)) <$> rows df)
    (with_total df) = enriched df.
Proof.
  intros (_ & _ & Hd & _). unfold setitem, enriched, with_total. cbn [columns rows].
  rewrite decide_False.
  2:{ rewrite elem_of_app, list_elem_of_singleton. by intros [|]. }
  rewrite <- (assoc_L (++)). f_equal.
  apply (zip_with_fmap_both (λ (r : Row) v, <["difference_count" := v]> r)).
Qed.

(** *** Line 36 *)

Lemma cell_scan_row_device t : cell "device" (scan_row t) = t.1.1.
Proof. unfold scan_row. by rewrite cell_insert_eq. Qed.

Lemma cell_scan_row_scan t : cell "scan" (scan_row t) = t.1.2.
Proof. unfold scan_row. rewrite cell_insert_ne by done. by rewrite cell_insert_eq. Qed.

Lemma cell_scan_row_diff t : cell "difference_count" (scan_row t) = VInt t.2.
Proof. unfold scan_row. rewrite !cell_insert_ne by done. by rewrite cell_insert_eq. Qed.

Lemma scan_row_inj t t' : scan_row t = scan_row t' → t = t'.
Proof.
  intros H.
  pose proof (f_equal (cell "device") H) as H1.
  pose proof (f_equal (cell "scan") H) as H2.
  pose proof (f_equal (cell "difference_count") H) as H3.
  rewrite !cell_scan_row_device in H1. rewrite !cell_scan_row_scan in H2.
  rewrite !cell_scan_row_diff in H3.
  destruct t as [[d s] x], t' as [[d' s'] x']. cbn in *. by simplify_eq.
Qed.

Lemma drop_enriched_row (r : Row) (x y : Z) :
  scan_record_on scan_columns r →
  foldr delete (<["difference_count" := VInt x]> (<["total_proc_count" := VInt y]> r))
    ["Unnamed: 0"; "procName"; "scan_proc_count"; "timestamp"; "total_proc_count"]
  = scan_row (key r, x).
Proof.
  intros Hr. apply map_eq. intros k. cbn [foldr]. unfold scan_row, key. cbn [fst snd].
  rewrite !lookup_delete, !lookup_insert, lookup_empty.
  repeat (case_decide; simplify_eq; try done);
    try (by apply scan_record_lookup; [|compute_done]).
  apply scan_record_lookup_None; [done|].
  unfold scan_columns. rewrite !elem_of_cons, elem_of_nil.
  intros Hk; repeat destruct Hk as [Hk|Hk]; congruence.
Qed.

Lemma mapM_fmap {A B C} (f : B → Result C) (g : A → B) (l : list A) :
  mapM f (g <$> l) = mapM (f ∘ g) l.
Proof. induction l as [|x l IH]; [done|]. cbn. by rewrite IH. Qed.

Lemma data_no_proc_36 df :
  well_formed df →
  drop_duplicates <$> drop dropped_columns (enriched df) =
    Ok {| columns := filter (λ c, c ∉ dropped_columns) (columns (enriched df));
          rows := scan_row <$> scan_rows df |}.
Proof.
  intros [Hcols Hrows]. unfold drop.
  assert (columns (enriched df) ≡ₚ
            scan_columns ++ ["total_proc_count"; "difference_count"]) as Hc
    by (cbn; by rewrite Hcols).
  rewrite (require_perm _ _ _ Hc) by done. cbn [mbind Result_bind fmap Result_fmap].
  unfold drop_duplicates, enriched. cbn [columns rows]. do 2 f_equal.
  unfold scan_rows. rewrite <- keep_first_fmap_inj by (intros ????; apply scan_row_inj).
  f_equal. rewrite <- !list_fmap_compose. apply fmap_ext_in. intros r Hr. cbn.
  apply drop_enriched_row. by eapply Forall_forall in Hrows.
Qed.

(** *** Lines 38-39 *)

Lemma numeric_ints (l : list (value * value * Z)) :
  numeric ((λ t, VInt t.2) <$> l) = Ok ((λ t, Qc_of_Z t.2) <$> l).
Proof.
  unfold numeric. rewrite mapM_fmap.
  rewrite (mapM_Ok _ (λ t, Some (Qc_of_Z t.2))) by (by apply Forall_true).
  cbn. f_equal. induction l as [|t l IH]; [done|]. cbn. by rewrite IH.
Qed.

Lemma group_values (g : value * value * Z → Row) C ts t :
  (∀ t, cell "device" (g t) = t.1.1) →
  (∀ t, cell "difference_count" (g t) = VInt t.2) →
  cell "difference_count" <$>
    group_of ["device"] {| columns := C; rows := g <$> ts |} (g t)
  = (λ t', VInt t'.2) <$> filter (λ t', t'.1.1 = t.1.1) ts.
Proof.
  intros Hd Hx. unfold group_of. cbn [rows]. rewrite filter_fmap, <- list_fmap_compose.
  rewrite (list_filter_iff _ (λ t', t'.1.1 = t.1.1)).
  2:{ intros t'. by rewrite same_group_device, !Hd. }
  apply fmap_ext_in. intros t' _. apply Hx.
Qed.

Lemma groupby_device_ok (g : value * value * Z → Row) C ts agg (F : value → value) :
  "device" ∈ C → "difference_count" ∈ C →
  (∀ t, cell "device" (g t) = t.1.1) →
  (∀ t, cell "difference_count" (g t) = VInt t.2) →
  (∀ t, t ∈ ts → isna t.1.1 = false) →
  (∀ t, t ∈ ts →
     agg ((λ t', VInt t'.2) <$> filter (λ t', t'.1.1 = t.1.1) ts) = Ok (F t.1.1)) →
  groupby_transform ["device"] "difference_count" agg {| columns := C; rows := g <$> ts |}
  = Ok ((λ t, F t.1.1) <$> ts).
Proof.
  intros HdC HxC Hd Hx Hna Hagg. unfold groupby_transform.
  rewrite !require_Ok by (repeat constructor; done). cbn [mbind Result_bind rows].
  rewrite mapM_fmap. apply mapM_Ok, Forall_forall. intros t Ht. cbn [compose existsb].
  rewrite Hd, (Hna t Ht). cbn [orb].
  rewrite (group_values g C ts t Hd Hx). by apply Hagg.
Qed.

Lemma scan_rows_device_na df (t : value * value * Z) :
  well_formed df → t ∈ scan_rows df → isna t.1.1 = false.
Proof.
  intros [_ Hrows] Ht. unfold scan_rows in Ht.
  rewrite elem_of_keep_first, list_elem_of_fmap in Ht. destruct Ht as (r & -> & Hr).
  cbn. rewrite Forall_forall in Hrows. by destruct (Hrows r Hr) as [[? _] _].
Qed.

Lemma agg_mean_device df (t : value * value * Z) :
  t ∈ scan_rows df →
  agg_mean ((λ t', VInt t'.2) <$> filter (λ t', t'.1.1 = t.1.1) (scan_rows df))
  = Ok (mean_difference_count df t.1.1).
Proof.
  intros Ht. unfold agg_mean. rewrite numeric_ints. cbn [mbind Result_bind].
  unfold mean_difference_count, device_diffs.
  assert (t ∈ filter (λ t', t'.1.1 = t.1.1) (scan_rows df)) as Hin
    by (by apply list_elem_of_filter).
  destruct (filter (λ t', t'.1.1 = t.1.1) (scan_rows df)); [by apply elem_of_nil in Hin|done].
Qed.

Lemma agg_std_device df (t : value * value * Z) :
  agg_std ((λ t', VInt t'.2) <$> filter (λ t', t'.1.1 = t.1.1) (scan_rows df))
  = Ok (std_difference_count df t.1.1).
Proof. unfold agg_std. by rewrite numeric_ints. Qed.

Lemma data_columns_perm df :
  well_formed df →
  filter (λ c, c ∉ dropped_columns) (columns (enriched df))
  ≡ₚ ["device"; "scan"; "difference_count"].
Proof.
  intros [Hcols _]. cbn [enriched columns]. by rewrite Hcols.
Qed.

Lemma setitem_fmap {T} c (F : T → value) (g : T → Row) C ts :
  c ∉ C →
  setitem c (F <$> ts) {| columns := C; rows := g <$> ts |} =
    {| columns := C ++ [c]; rows := (λ t, <[c := F t]> (g t)) <$> ts |}.
Proof.
  intros Hc. unfold setitem. cbn [columns rows]. rewrite decide_False by done.
  f_equal. apply (zip_with_fmap_both (λ (r : Row) v, <[c := v]> r)).
Qed.

Lemma M_bind_unfold {A B} (m : M A) (f : A → M B) w :
  (m ≫= f) w = match m w with
               | (w', Ok a) => f a w'
               | (w', Err e) => (w', Err e)
               end.
Proof. done. Qed.

Lemma preprocess_ok w :
  well_formed (caller_df w) →
  preprocess w = ({| caller_df := enriched (caller_df w); fit_log := fit_log w |},
                  Ok (data_no_proc (caller_df w))).
Proof.
  intros Hwf. destruct w as [df log]. cbn [caller_df fit_log] in *.
  unfold preprocess.
  rewrite M_bind_unfold. unfold df_setitem at 1. cbn [caller_df fit_log].
  pose proof (well_formed_readable df Hwf) as Hread.
  rewrite total_proc_count_ok, with_total_eq by done.
  rewrite M_bind_unfold. unfold df_setitem at 1. cbn [caller_df fit_log].
  rewrite difference_count_ok, enriched_eq by done.
  rewrite M_bind_unfold. unfold with_df at 1. cbn [caller_df fit_log].
  change ["Unnamed: 0"; "procName"; "scan_proc_count"; "timestamp"; "total_proc_count"]
    with dropped_columns.
  rewrite data_no_proc_36 by done.
  pose proof (data_columns_perm df Hwf) as Hperm.
  set (C := filter (λ c, c ∉ dropped_columns) (columns (enriched df))) in *.
  assert ("device" ∈ C) as HdC by (rewrite Hperm; compute_done).
  assert ("difference_count" ∈ C) as HxC by (rewrite Hperm; compute_done).
  rewrite M_bind_unfold. unfold lift at 1.
  rewrite (groupby_device_ok scan_row C (scan_rows df) agg_mean
             (mean_difference_count df) HdC HxC cell_scan_row_device
             cell_scan_row_diff (λ t, scan_rows_device_na df t Hwf)
             (λ t, agg_mean_device df t)).
  rewrite (setitem_fmap _ (λ t, mean_difference_count df t.1.1))
    by (rewrite Hperm; compute_done).
  rewrite M_bind_unfold. unfold lift at 1.
  rewrite (groupby_device_ok _ _ (scan_rows df) agg_std (std_difference_count df)).
  - rewrite (setitem_fmap _ (λ t, std_difference_count df t.1.1)).
    + unfold mret, M_ret, data_no_proc. fold C. by rewrite <- (assoc_L (++)).
    + rewrite elem_of_app, Hperm. compute_done.
  - rewrite elem_of_app. by left.
  - rewrite elem_of_app. by left.
  - intros t. rewrite cell_insert_ne by done. apply cell_scan_row_device.
  - intros t. rewrite cell_insert_ne by done. apply cell_scan_row_diff.
  - intros t. by apply scan_rows_device_na.
  - intros t _. apply agg_std_device.
Qed.

(** *** Line 107 *)

Lemma cell_feature_row_device df d : cell "device" (feature_row df d) = d.
Proof. unfold feature_row. rewrite !cell_insert_ne by done. by rewrite cell_insert_eq. Qed.

Lemma cell_feature_row_mean df d :
  cell "mean_difference_count" (feature_row df d) = mean_difference_count df d.
Proof. unfold feature_row. rewrite !cell_insert_ne by done. by rewrite cell_insert_eq. Qed.

Lemma cell_feature_row_std df d :
  cell "std_difference_count" (feature_row df d) = std_difference_count df d.
Proof. unfold feature_row. by rewrite cell_insert_eq. Qed.

Lemma drop_data_row df t :
  foldr delete (data_row df t) ["scan"; "difference_count"] = feature_row df t.1.1.
Proof.
  apply map_eq. intros k. cbn [foldr]. unfold data_row, scan_row, feature_row.
  rewrite !lookup_delete, !lookup_insert, lookup_empty.
  repeat (case_decide; simplify_eq; try done).
Qed.

Lemma devices_scan_rows df :
  keep_first ((λ t : value * value * Z, t.1.1) <$> scan_rows df) = devices df.
Proof.
  unfold scan_rows, devices. rewrite keep_first_fmap_keep_first.
  by rewrite <- list_fmap_compose.
Qed.

Lemma feature_table_ok df :
  well_formed df → feature_table (data_no_proc df) = Ok (feature_frame df).
Proof.
  intros Hwf. pose proof (data_columns_perm df Hwf) as Hperm.
  unfold feature_table, drop, data_no_proc.
  set (C := filter (λ c, c ∉ dropped_columns) (columns (enriched df))) in *.
  rewrite require_Ok.
  2:{ cbn [columns]. repeat constructor; rewrite elem_of_app, Hperm; left; compute_done. }
  cbn [mbind Result_bind fmap Result_fmap columns rows]. f_equal.
  unfold drop_duplicates, feature_frame. cbn [columns rows]. f_equal.
  - rewrite filter_app. change (filter _ ["mean_difference_count"; "std_difference_count"])
      with ["mean_difference_count"; "std_difference_count"].
    change feature_columns with (["device"] ++ ["mean_difference_count"; "std_difference_count"]).
    f_equal. apply Permutation_singleton_r. by rewrite Hperm.
  - rewrite <- list_fmap_compose.
    rewrite (fmap_ext_in _ (feature_row df ∘ (λ t : value * value * Z, t.1.1)))
      by (intros t _; apply drop_data_row).
    rewrite list_fmap_compose, keep_first_fmap_inj, devices_scan_rows; [done|].
    intros d d' _ _ H. apply (f_equal (cell "device")) in H.
    by rewrite !cell_feature_row_device in H.
Qed.

(** *** Lines 108-116 *)

Lemma cell_select (cols : list string) (r : Row) c :
  c ∈ cols → cell c (filter (λ kv, kv.1 ∈ cols) r) = cell c r.
Proof.
  intros Hc. unfold cell. rewrite map_lookup_filter.
  destruct (r !! c) as [v|]; [|done]. cbn. by rewrite option_guard_True.
Qed.

Lemma select_features df :
  to_matrix <$> select ["mean_difference_count"; "std_difference_count"] (feature_frame df)
  = Ok (features df).
Proof.
  unfold select. rewrite require_Ok by (repeat constructor; compute_done).
  cbn [mbind Result_bind fmap Result_fmap]. f_equal.
  unfold to_matrix, features, feature_frame. cbn [columns rows].
  rewrite <- !list_fmap_compose. apply fmap_ext_in. intros d _. cbn.
  rewrite !cell_select by compute_done.
  by rewrite cell_feature_row_mean, cell_feature_row_std.
Qed.

Lemma scaler_fit_Ok (X : list Qc) : X ≠ [] → ∃ s, MinMaxScaler_fit X = Ok s.
Proof. destruct X; [done|]. intros _. eexists. reflexivity. Qed.

Lemma fit_Ok_inv c seed X m :
  fit c seed X = Ok m →
  (0 < c ∧ c ≤ Q2Qc (1 # 2)) ∧ valid_X X = true ∧ X ≠ [] ∧
  m = {| f_seed := seed; f_train := X;
         offset_ := percentile (score_samples seed X <$> X) (Qc_of_Z 100 * c) |}.
Proof.
  unfold fit. case_bool_decide as Hc; [|done].
  destruct (valid_X X) eqn:HX; [|done]. intros [= <-].
  destruct Hc as [Hc0 Hc1]. repeat split; try done.
  unfold valid_X in HX. apply andb_prop in HX as [HX _].
  by apply bool_decide_eq_true_1 in HX.
Qed.

Lemma score_ok c w df m s :
  fit c 42 (features df) = Ok m →
  MinMaxScaler_fit (Qcopp <$> decision_function m (features df)) = Ok s →
  score c (feature_frame df) w =
    ({| caller_df := caller_df w; fit_log := fit_log w ++ [(c, 42%Z, features df)] |},
     Ok (scored_frame df m s)).
Proof.
  intros Hfit Hs. unfold score.
  pose proof (select_features df) as Hsel.
  rewrite M_bind_unfold. unfold lift at 1.
  destruct (select _ (feature_frame df)) as [fs|]; [|done].
  cbn in Hsel. injection Hsel as Hsel.
  rewrite M_bind_unfold. unfold fit_predict at 1. rewrite Hsel, Hfit.
  cbn [mbind Result_bind]. rewrite M_bind_unfold. unfold lift at 1.
  unfold MinMaxScaler_fit_transform. rewrite Hs. cbn [mbind Result_bind].
  unfold mret, M_ret. do 2 f_equal.
  unfold predict, decision_function, MinMaxScaler_transform, features, feature_frame.
  rewrite <- !list_fmap_compose.
  rewrite (setitem_fmap "anomaly") by compute_done.
  rewrite (setitem_fmap "anomaly_score") by compute_done.
  rewrite (setitem_fmap "score_normalized") by compute_done.
  unfold scored_frame. by rewrite <- !(assoc_L (++)).
Qed.

Lemma score_err c w df e :
  fit c 42 (features df) = Err e →
  score c (feature_frame df) w =
    ({| caller_df := caller_df w; fit_log := fit_log w ++ [(c, 42%Z, features df)] |},
     Err e).
Proof.
  intros Hfit. unfold score.
  pose proof (select_features df) as Hsel.
  rewrite M_bind_unfold. unfold lift at 1.
  destruct (select _ (feature_frame df)) as [fs|]; [|done].
  cbn in Hsel. injection Hsel as Hsel.
  rewrite M_bind_unfold. unfold fit_predict at 1. by rewrite Hsel, Hfit.
Qed.

(** *** The whole pipeline on a well-formed table *)

Lemma cell_scored_row_device df m s d : cell "device" (scored_row df m s d) = d.
Proof.
  unfold scored_row. rewrite !cell_insert_ne by done. apply cell_feature_row_device.
Qed.

Lemma cell_scored_row_anomaly df m s d :
  cell "anomaly" (scored_row df m s d) = VInt (anomaly df m d).
Proof.
  unfold scored_row. rewrite !cell_insert_ne by done. by rewrite cell_insert_eq.
Qed.

Lemma cell_scored_row_score df m s d :
  cell "anomaly_score" (scored_row df m s d) = VFloat (raw_score df m d).
Proof.
  unfold scored_row. rewrite !cell_insert_ne by done. by rewrite cell_insert_eq.
Qed.

Lemma cell_scored_row_normalized df m s d :
  cell "score_normalized" (scored_row df m s d) = VFloat (score_normalized df m s d).
Proof. unfold scored_row. by rewrite cell_insert_eq. Qed.

Lemma anomalous_devices_scored df m s :
  anomalous_devices (scored_frame df m s) = Ok (anomalous_set df m).
Proof.
  unfold anomalous_devices. rewrite require_Ok by (repeat constructor; compute_done).
  cbn [mbind Result_bind]. f_equal. unfold anomalous_set, scored_frame. cbn [rows].
  f_equal. rewrite filter_fmap, <- list_fmap_compose.
  rewrite (fmap_ext_in _ id) by (intros d _; apply cell_scored_row_device).
  rewrite list_fmap_id. apply list_filter_iff. intros d.
  rewrite cell_scored_row_anomaly. split; [by intros [= ->]|by intros ->].
Qed.

Lemma features_nonempty_scaler df m :
  features df ≠ [] →
  MinMaxScaler_fit (Qcopp <$> decision_function m (features df)) = Ok (scaler df m).
Proof.
  intros Hne. unfold scaler, scores.
  assert (decision_function m (features df) = raw_score df m <$> devices df) as ->.
  { unfold decision_function, features. by rewrite <- list_fmap_compose. }
  destruct (scaler_fit_Ok (Qcopp <$> (raw_score df m <$> devices df))) as [s Hs].
  - unfold features in Hne. by destruct (devices df).
  - by rewrite Hs.
Qed.

Lemma scored_table_wf c w :
  well_formed (caller_df w) →
  scored_table c w =
    (world_after c w,
     m ← fit c 42 (features (caller_df w));
     Ok (scored_frame (caller_df w) m (scaler (caller_df w) m))).
Proof.
  intros Hwf. unfold scored_table.
  rewrite M_bind_unfold, preprocess_ok by done.
  rewrite M_bind_unfold. unfold lift at 1. rewrite feature_table_ok by done.
  destruct (fit c 42 (features (caller_df w))) as [m|e] eqn:Hfit.
  - apply fit_Ok_inv in Hfit as Hinv. destruct Hinv as (_ & _ & Hne & _).
    by rewrite (score_ok _ _ _ m (scaler (caller_df w) m))
      by (done || by apply features_nonempty_scaler).
  - by rewrite (score_err _ _ _ e).
Qed.

Lemma analyze_df_wf c w :
  well_formed (caller_df w) →
  analyze_df c w =
    (world_after c w,
     m ← fit c 42 (features (caller_df w)); Ok (anomalous_set (caller_df w) m)).
Proof.
  intros Hwf. unfold analyze_df. rewrite M_bind_unfold, scored_table_wf by done.
  destruct (fit c 42 (features (caller_df w))) as [m|e]; [|done].
  cbn [mbind Result_bind]. unfold lift. by rewrite anomalous_devices_scored.
Qed.

(** ** What the pipeline does to the world, on any input *)

Lemma frame_determined_bind {A B} (m : M A) (f : A → M B) :
  frame_determined m → (∀ a, frame_determined (f a)) → frame_determined (m ≫= f).
Proof.
  intros Hm Hf w1 w2 Hw. rewrite !M_bind_unfold.
  destruct (Hm w1 w2 Hw) as [Hr Hd].
  destruct (m w1) as [w1' r1], (m w2) as [w2' r2]. cbn in Hr, Hd. subst r2.
  destruct r1 as [a|e]; [by apply Hf|done].
Qed.

Lemma frame_determined_lift {A} (r : Result A) : frame_determined (lift r).
Proof. by intros w1 w2 Hw. Qed.

Lemma frame_determined_ret {A} (a : A) : frame_determined (mret a).
Proof. by intros w1 w2 Hw. Qed.



Lemma frame_determined_fit_predict c seed X : frame_determined (fit_predict c seed X).
Proof. by intros w1 w2 Hw. Qed.


Lemma frame_determined_score c df : frame_determined (score c df).
Proof.
  unfold score.
  apply frame_determined_bind; [apply frame_determined_lift|intros fs].
  apply frame_determined_bind; [apply frame_determined_fit_predict|intros [m ls]].
  apply frame_determined_bind; [apply frame_determined_lift|intros ?].
  apply frame_determined_ret.
Qed.



Lemma keeps_frame_bind {A B} (m : M A) (f : A → M B) :
  keeps_frame m → (∀ a, keeps_frame (f a)) → keeps_frame (m ≫= f).
Proof.
  intros Hm Hf w. rewrite M_bind_unfold. specialize (Hm w).
  destruct (m w) as [w' [a|e]]; cbn in *; [|done]. by rewrite Hf.
Qed.

Lemma keeps_frame_lift {A} (r : Result A) : keeps_frame (lift r).
Proof. done. Qed.

Lemma keeps_frame_ret {A} (a : A) : keeps_frame (mret a).
Proof. done. Qed.


Lemma keeps_frame_fit_predict c seed X : keeps_frame (fit_predict c seed X).
Proof. done. Qed.

Lemma keeps_frame_score c df : keeps_frame (score c df).
Proof.
  unfold score.
  apply keeps_frame_bind; [apply keeps_frame_lift|intros fs].
  apply keeps_frame_bind; [apply keeps_frame_fit_predict|intros [m ls]].
  apply keeps_frame_bind; [apply keeps_frame_lift|intros ?].
  apply keeps_frame_ret.
Qed.

Lemma no_fit_bind {A B} (m : M A) (f : A → M B) :
  no_fit m → (∀ a, no_fit (f a)) → no_fit (m ≫= f).
Proof.
  intros Hm Hf w. rewrite M_bind_unfold. specialize (Hm w).
  destruct (m w) as [w' [a|e]]; cbn in *; [|done]. by rewrite Hf.
Qed.

Lemma no_fit_lift {A} (r : Result A) : no_fit (lift r).
Proof. done. Qed.

Lemma no_fit_ret {A} (a : A) : no_fit (mret a).
Proof. done. Qed.

Lemma no_fit_with_df {A} (f : DataFrame → Result A) : no_fit (with_df f).
Proof. done. Qed.

Lemma no_fit_df_setitem c f : no_fit (df_setitem c f).
Proof. intros w. unfold df_setitem. by destruct (f (caller_df w)). Qed.

Lemma no_fit_preprocess : no_fit preprocess.
Proof.
  unfold preprocess.
  repeat (apply no_fit_bind; [|intros ?]);
    auto using no_fit_lift, no_fit_ret, no_fit_with_df, no_fit_df_setitem.
Qed.

Lemma bind_Err {A B} (m : M A) (f : A → M B) w e :
  (m w).2 = Err e → (m ≫= f) w = ((m w).1, Err e).
Proof. rewrite M_bind_unfold. destruct (m w) as [w' r]. cbn. by intros ->. Qed.

Lemma elem_of_columns_setitem x c vals df :
  x ∈ columns (setitem c vals df) ↔ x ∈ columns df ∨ x = c.
Proof.
  unfold setitem. cbn [columns]. case_decide.
  - split; [by left|]. by intros [?| ->].
  - by rewrite elem_of_app, list_elem_of_singleton.
Qed.

(** *** A frame without the saved index column *)

Lemma preprocess_without_index w :
  "Unnamed: 0" ∉ columns (caller_df w) → ∃ e, (preprocess w).2 = Err e.
Proof.
  intros Hno. unfold preprocess.
  rewrite M_bind_unfold. unfold df_setitem at 1.
  destruct (groupby_transform _ _ _ (caller_df w)) as [v1|e]; [|by eexists].
  rewrite M_bind_unfold. unfold df_setitem at 1. cbn [caller_df].
  match goal with |- context [match ?r with Ok _ => _ | Err _ => _ end] =>
    destruct r as [v2|e] end; [|by eexists].
  rewrite M_bind_unfold. unfold with_df at 1. cbn [caller_df].
  unfold drop, require, missing_labels. rewrite filter_cons, decide_True.
  - by eexists.
  - rewrite !elem_of_columns_setitem. by intros [[?|?]|?].
Qed.

Lemma analyze_df_without_index c w :
  "Unnamed: 0" ∉ columns (caller_df w) →
  ∃ e, (analyze_df c w).2 = Err e ∧ fit_log (analyze_df c w).1 = fit_log w.
Proof.
  intros Hno. destruct (preprocess_without_index w Hno) as [e He].
  exists e.
  assert (scored_table c w = ((preprocess w).1, Err e)) as Hs
    by (unfold scored_table; by apply bind_Err).
  assert (analyze_df c w = ((preprocess w).1, Err e)) as Ha.
  { unfold analyze_df. rewrite (bind_Err _ _ w e); by rewrite Hs. }
  rewrite Ha. split; [done|apply no_fit_preprocess].
Qed.

Lemma preprocess_documented w :
  documented (caller_df w) →
  preprocess w = ({| caller_df := enriched (caller_df w); fit_log := fit_log w |},
                  Err (KeyError ["Unnamed: 0"])).
Proof.
  intros Hdoc. pose proof (documented_readable _ Hdoc) as Hread.
  destruct Hdoc as [Hcols _]. destruct w as [df log]. cbn [caller_df fit_log] in *.
  unfold preprocess.
  rewrite M_bind_unfold. unfold df_setitem at 1. cbn [caller_df fit_log].
  rewrite total_proc_count_ok, with_total_eq by done.
  rewrite M_bind_unfold. unfold df_setitem at 1. cbn [caller_df fit_log].
  rewrite difference_count_ok, enriched_eq by done.
  rewrite M_bind_unfold. unfold with_df at 1. cbn [caller_df fit_log].
  unfold drop, require.
  rewrite (missing_labels_perm _ _
             (documented_columns ++ ["total_proc_count"; "difference_count"]))
    by (cbn; by rewrite Hcols).
  done.
Qed.

Lemma analyze_df_documented c w :
  documented (caller_df w) →
  analyze_df c w = ({| caller_df := enriched (caller_df w); fit_log := fit_log w |},
                    Err (KeyError ["Unnamed: 0"])).
Proof.
  intros Hdoc. pose proof (preprocess_documented w Hdoc) as Hp.
  assert (scored_table c w = ((preprocess w).1, Err (KeyError ["Unnamed: 0"]))) as Hs
    by (unfold scored_table; apply bind_Err; by rewrite Hp).
  unfold analyze_df. rewrite (bind_Err _ _ w (KeyError ["Unnamed: 0"])); by rewrite Hs, ?Hp.
Qed.

(** *** The effect on the caller's frame *)











(** ** The pipeline against the data model of the specification *)

Lemma difference_count_discrepancy df r :
  constant_reported df → r ∈ rows df →
  difference_count df r = discrepancy df (key r).
Proof.
  intros Hconst Hr. unfold difference_count, discrepancy. f_equal.
  unfold reported_proc_count, records_of.
  assert (r ∈ filter (λ r', key r' = key r) (rows df)) as Hin
    by (by apply list_elem_of_filter).
  destruct (filter (λ r', key r' = key r) (rows df)) as [|r0 l] eqn:E;
    [by apply elem_of_nil in Hin|].
  assert (r0 ∈ filter (λ r', key r' = key r) (rows df)) as H0
    by (rewrite E; by left).
  apply list_elem_of_filter in H0 as [Hk H0].
  unfold constant_reported in Hconst. rewrite Forall_forall in Hconst.
  specialize (Hconst r Hr). rewrite Forall_forall in Hconst.
  by rewrite (Hconst r0 H0).
Qed.

Lemma scan_rows_discrepancy df :
  constant_reported df →
  scan_rows df = (λ k, (k, discrepancy df k)) <$> scan_pairs df.
Proof.
  intros Hconst. unfold scan_rows, scan_pairs.
  rewrite <- keep_first_fmap_inj by (by intros ???? [= ->]).
  f_equal. rewrite <- list_fmap_compose. apply fmap_ext_in. intros r Hr. cbn.
  by rewrite difference_count_discrepancy.
Qed.

Lemma device_diffs_discrepancies df d :
  constant_reported df → device_diffs df d = device_discrepancies df d.
Proof.
  intros Hconst. unfold device_diffs, device_discrepancies.
  rewrite scan_rows_discrepancy by done.
  by rewrite filter_fmap, <- list_fmap_compose.
Qed.

(** The scans of a device are the scans of its pairs. *)
Lemma scans_of_pairs df d :
  scans_of df d = snd <$> filter (λ k, k.1 = d) (scan_pairs df).
Proof.
  unfold scans_of, scan_pairs. rewrite <- keep_first_filter, filter_fmap.
  rewrite <- keep_first_fmap_inj.
  - by rewrite <- list_fmap_compose.
  - intros [d1 s1] [d2 s2] H1 H2. cbn. intros ->.
    apply list_elem_of_fmap in H1 as (r1 & E1 & H1).
    apply list_elem_of_fmap in H2 as (r2 & E2 & H2).
    apply list_elem_of_filter in H1 as [H1 _], H2 as [H2 _].
    rewrite <- E1 in H1. rewrite <- E2 in H2. cbn in H1, H2. by subst.
Qed.

Lemma length_device_discrepancies df d :
  length (device_discrepancies df d) = length (scans_of df d).
Proof.
  unfold device_discrepancies. by rewrite scans_of_pairs, !length_fmap.
Qed.

(** ** The scaler *)

Lemma data_min_le x l v : v ∈ x :: l → data_min x l ≤ v.
Proof.
  unfold data_min. induction l as [|y l IH]; cbn.
  - rewrite list_elem_of_singleton. intros ->. apply Qcle_refl.
  - unfold Qc_min at 1. intros Hv. case_decide as Hle.
    + apply elem_of_cons in Hv as [->|Hv]; [|apply elem_of_cons in Hv as [->|Hv]].
      * eapply Qcle_trans; [done|]. apply IH. by left.
      * done.
      * eapply Qcle_trans; [done|]. apply IH. by right.
    + apply Qcnot_le_lt, Qclt_le_weak in Hle.
      apply elem_of_cons in Hv as [->|Hv]; [|apply elem_of_cons in Hv as [->|Hv]].
      * apply IH. by left.
      * eapply Qcle_trans; [|done]. apply Qcle_refl.
      * apply IH. by right.
Qed.



Lemma data_max_elem x l : data_max x l ∈ x :: l.
Proof.
  unfold data_max. induction l as [|y l IH]; cbn; [by left|].
  unfold Qc_max at 1. case_decide.
  - apply elem_of_cons in IH as [->|IH]; [by left|]. right. by right.
  - right. by left.
Qed.

Lemma Qc_sub_nonneg (a b : Qc) : a ≤ b → 0 ≤ b - a.
Proof. intros H. apply Qcle_minus_iff in H. by unfold Qcminus. Qed.

Lemma Qc_sub_pos (a b : Qc) : a < b → 0 < b - a.
Proof. intros H. apply Qclt_minus_iff in H. by unfold Qcminus. Qed.


Lemma scaler_range_pos x l : data_max x l - data_min x l ≠ 0 → 0 < data_max x l - data_min x l.
Proof.
  intros Hne. apply Qc_sub_pos.
  destruct (Qcle_lt_or_eq (data_min x l) (data_max x l)) as [|Heq]; [|done|].
  - apply data_min_le, data_max_elem.
  - destruct Hne. rewrite Heq. ring.
Qed.



(** ** The percentile threshold *)

Lemma Qfloor_Qc_of_Z z : Qfloor (Qc_of_Z z) = z.
Proof.
  unfold Qc_of_Z. cbn [this]. apply Qfloor_Z.
Qed.

Lemma Qfloor_Qc_mono (x y : Qc) : x ≤ y → (Qfloor x ≤ Qfloor y)%Z.
Proof. intros H. by apply Qfloor_resp_le. Qed.

Lemma Qc_of_Z_nonneg z : (0 ≤ z)%Z → 0 ≤ Qc_of_Z z.
Proof. intros H. by rewrite <- Z2Qc_inj_0, <- Z2Qc_inj_le. Qed.

Lemma Qc_of_Z_100_pos : 0 < Qc_of_Z 100.
Proof. by rewrite <- Z2Qc_inj_0, <- Z2Qc_inj_lt. Qed.

(** The virtual index [(n - 1) * q / 100] lies in [0, n - 1]. *)
Lemma virtual_index_bounds (n : Z) (q : Qc) :
  (1 ≤ n)%Z → 0 ≤ q → q ≤ Qc_of_Z 100 →
  0 ≤ Qc_of_Z (n - 1) * q / Qc_of_Z 100 ∧
  Qc_of_Z (n - 1) * q / Qc_of_Z 100 ≤ Qc_of_Z (n - 1).
Proof.
  intros Hn Hq0 Hq1.
  pose proof Qc_of_Z_100_pos as H100. pose proof (Qcinv_pos _ H100) as Hinv.
  assert (0 ≤ Qc_of_Z (n - 1)) as Hn0 by (apply Qc_of_Z_nonneg; lia).
  assert (Qc_of_Z 100 ≠ 0) as Hne by (intros E; rewrite E in H100; by apply Qclt_not_eq in H100).
  unfold Qcdiv. split.
  - apply Qcmult_nonneg_nonneg; [by apply Qcmult_nonneg_nonneg|by apply Qclt_le_weak].
  - apply (Qcle_trans _ (Qc_of_Z (n - 1) * 1)); [|rewrite Qcmult_1_r; apply Qcle_refl].
    rewrite <- Qcmult_assoc. apply Qcmult_le_mono_nonneg_l; [done|].
    rewrite <- (Qcmult_inv_r (Qc_of_Z 100)) by done.
    apply Qcmult_le_compat_r; [done|by apply Qclt_le_weak].
Qed.

Lemma percentile_index_bounds (n : Z) (q : Qc) :
  (1 ≤ n)%Z → 0 ≤ q → q ≤ Qc_of_Z 100 →
  (0 ≤ Qfloor (Qc_of_Z (n - 1) * q / Qc_of_Z 100)%Qc ≤ n - 1)%Z.
Proof.
  intros Hn Hq0 Hq1. destruct (virtual_index_bounds n q Hn Hq0 Hq1) as [H0 H1].
  split.
  - by apply Qfloor_Qc_mono in H0.
  - apply Qfloor_Qc_mono in H1. by rewrite Qfloor_Qc_of_Z in H1.
Qed.

(** Equal scores: the threshold is their common value. *)
Lemma percentile_const (S : list Qc) (q a : Qc) :
  S ≠ [] → Forall (λ x, x = a) S → 0 ≤ q → q ≤ Qc_of_Z 100 →
  percentile S q = a.
Proof.
  intros Hne Hall Hq0 Hq1. unfold percentile.
  assert (1 ≤ Z.of_nat (length S))%Z as Hn by (destruct S; [done|cbn; lia]).
  pose proof (percentile_index_bounds _ q Hn Hq0 Hq1) as Hidx.
  set (prev := Qfloor (Qc_of_Z (Z.of_nat (length S) - 1) * q / Qc_of_Z 100)) in *.
  assert (∀ i : Z, (0 ≤ i ≤ Z.of_nat (length S) - 1)%Z →
            default 0 (merge_sort Qcle S !! Z.to_nat i) = a) as Hlook.
  { intros i Hi.
    destruct (lookup_lt_is_Some_2 (merge_sort Qcle S) (Z.to_nat i)) as [v Hv].
    { rewrite merge_sort_Permutation. lia. }
    rewrite Hv. cbn. apply list_elem_of_lookup_2 in Hv.
    rewrite merge_sort_Permutation in Hv. rewrite Forall_forall in Hall. by apply Hall. }
  rewrite !Hlook by lia. ring.
Qed.

(** ** The forest on the features of a table *)

Lemma fit_outcome c df :
  fit c 42 (features df) =
    if bool_decide (0 < c ∧ c ≤ Q2Qc (1 # 2)) && valid_X (features df)
    then Ok (fitted c df) else Err ValueError.
Proof.
  unfold fit, fitted. case_bool_decide; [|done]. by destruct (valid_X (features df)).
Qed.

Lemma fit_valid c df :
  0 < c ∧ c ≤ Q2Qc (1 # 2) → valid_X (features df) = true →
  fit c 42 (features df) = Ok (fitted c df).
Proof.
  intros Hc HX. by rewrite fit_outcome, bool_decide_eq_true_2, HX.
Qed.

Lemma fit_invalid_percentage c df :
  ¬ (0 < c ∧ c ≤ Q2Qc (1 # 2)) → fit c 42 (features df) = Err ValueError.
Proof. intros Hc. by rewrite fit_outcome, bool_decide_eq_false_2. Qed.

Lemma analyze_df_outcome c w :
  well_formed (caller_df w) →
  analyze_df c w =
    (world_after c w,
     if bool_decide (0 < c ∧ c ≤ Q2Qc (1 # 2)) && valid_X (features (caller_df w))
     then Ok (anomalous_set (caller_df w) (fitted c (caller_df w)))
     else Err ValueError).
Proof.
  intros Hwf. rewrite analyze_df_wf, fit_outcome by done.
  by destruct (bool_decide _ && valid_X _).
Qed.

Lemma valid_X_nonempty X : valid_X X = true → X ≠ [].
Proof.
  unfold valid_X. intros H. apply andb_prop in H as [H _].
  by apply bool_decide_eq_true_1 in H.
Qed.

Lemma valid_X_empty : valid_X [] = false.
Proof. done. Qed.

Lemma percentage_range c :
  0 < c ∧ c ≤ Q2Qc (1 # 2) → 0 ≤ Qc_of_Z 100 * c ∧ Qc_of_Z 100 * c ≤ Qc_of_Z 100.
Proof.
  intros [H0 H1]. pose proof Qc_of_Z_100_pos as H100. split.
  - apply Qcmult_nonneg_nonneg; by apply Qclt_le_weak.
  - apply (Qcle_trans _ (Qc_of_Z 100 * 1)); [|rewrite Qcmult_1_r; apply Qcle_refl].
    apply Qcmult_le_mono_nonneg_l; [by apply Qclt_le_weak|].
    eapply Qcle_trans; [done|]. compute_done.
Qed.

(** Equal scores: nothing lies below the threshold. *)
Lemma anomalous_set_equal_features c df :
  0 < c ∧ c ≤ Q2Qc (1 # 2) →
  (∀ d d', d ∈ devices df → d' ∈ devices df →
     feature_vector df d = feature_vector df d') →
  anomalous_set df (fitted c df) = ∅.
Proof.
  intros Hc Heq. unfold anomalous_set.
  destruct (devices df) as [|d0 ds] eqn:Hdev; [done|].
  set (a := score_samples 42 (features df) (feature_vector df d0)).
  assert (offset_ (fitted c df) = a) as Hoff.
  { cbn [fitted offset_]. destruct (percentage_range c Hc) as [Hq0 Hq1].
    apply percentile_const; [| |done..].
    - unfold features. by rewrite Hdev.
    - rewrite Forall_fmap, Forall_forall. intros x Hx. cbn.
      unfold features in Hx. apply list_elem_of_fmap in Hx as (d & -> & Hd).
      subst a. f_equal. rewrite Hdev in Hd. apply Heq; [done|by left]. }
  rewrite filter_none; [done|]. rewrite Forall_forall. intros d Hd.
  unfold anomaly, raw_score, decision_one. rewrite Hoff. cbn [fitted f_seed f_train].
  replace (score_samples 42 (features df) (feature_vector df d)) with a.
  - replace (a - a) with (Q2Qc 0) by ring. done.
  - subst a. f_equal. apply Heq; [by left|done].
Qed.

Lemma analyze_df_equal_features c w v :
  well_formed (caller_df w) →
  0 < c ∧ c ≤ Q2Qc (1 # 2) →
  valid_X (features (caller_df w)) = true →
  Forall (λ d, feature_vector (caller_df w) d = v) (devices (caller_df w)) →
  (analyze_df c w).2 = Ok ∅.
Proof.
  intros Hwf Hc HX Hall. rewrite analyze_df_outcome by done. cbn [snd].
  rewrite bool_decide_eq_true_2, HX by done. cbn [andb]. f_equal.
  apply anomalous_set_equal_features; [done|].
  rewrite Forall_forall in Hall. intros d d' Hd Hd'.
  by rewrite (Hall d Hd), (Hall d' Hd').
Qed.

(** * The claims *)

(** C1. On a well-formed table that the forest accepts, [analyze_df]
    returns exactly the devices whose row of the scored table carries the
    label [-1], the label [predict] gave to the device's feature vector:
    the scored table has one row per device, its [anomaly] column is the
    forest's prediction, and a device is returned if and only if a row of
    the table names it with [anomaly = -1]. *)
Theorem C1_returns_the_anomalous_devices c w :
  well_formed (caller_df w) →
  0 < c ∧ c ≤ Q2Qc (1 # 2) →
  valid_X (features (caller_df w)) = true →
  ∃ T S,
    scored_table c w = (world_after c w, Ok T) ∧
    analyze_df c w = (world_after c w, Ok S) ∧
    cell "device" <$> rows T = devices (caller_df w) ∧
    cell "anomaly" <$> rows T =
      VInt <$> predict (fitted c (caller_df w)) (features (caller_df w)) ∧
    ∀ d, d ∈ S ↔
      ∃ r, r ∈ rows T ∧ cell "device" r = d ∧ cell "anomaly" r = VInt (-1).
Proof.
  intros Hwf Hc HX. set (df := caller_df w). set (m := fitted c df).
  exists (scored_frame df m (scaler df m)), (anomalous_set df m).
  split; [|split; [|split; [|split]]].
  - rewrite scored_table_wf by done. fold df. by rewrite fit_valid.
  - rewrite analyze_df_wf by done. fold df. by rewrite fit_valid.
  - cbn [scored_frame rows]. rewrite <- list_fmap_compose.
    rewrite (fmap_ext_in _ id) by (intros d _; apply cell_scored_row_device).
    apply list_fmap_id.
  - cbn [scored_frame rows]. unfold predict, decision_function, features.
    rewrite <- !list_fmap_compose. apply fmap_ext_in. intros d _. cbn.
    apply cell_scored_row_anomaly.
  - intros d. unfold anomalous_set. rewrite elem_of_list_to_set, list_elem_of_filter.
    cbn [scored_frame rows]. split.
    + intros [Ha Hd]. exists (scored_row df m (scaler df m) d).
      rewrite list_elem_of_fmap, cell_scored_row_device, cell_scored_row_anomaly, Ha.
      split; [by exists d|done].
    + intros (r & Hr & Hd & Ha). apply list_elem_of_fmap in Hr as (d' & -> & Hd').
      rewrite cell_scored_row_device in Hd. subst d'.
      rewrite cell_scored_row_anomaly in Ha. by injection Ha as ->.
Qed.


(** C6, as amended. [analyze_df] checks no population size and has no
    error of its own for it: on a well-formed table it hands the feature
    rows of all the devices to [IsolationForest.fit], and fails, with the
    library's [ValueError] and without an anomaly set, exactly when the
    contamination is outside (0, 0.5] or the library rejects the matrix,
    as it does for a table with no device; with a single device that the
    library accepts it returns the empty set. *)
Theorem C6_no_population_check c w :
  well_formed (caller_df w) →
  (analyze_df c w).2 =
    (if bool_decide (0 < c ∧ c ≤ Q2Qc (1 # 2)) && valid_X (features (caller_df w))
     then Ok (anomalous_set (caller_df w) (fitted c (caller_df w)))
     else Err ValueError) ∧
  (devices (caller_df w) = [] → (analyze_df c w).2 = Err ValueError) ∧
  (∀ d, devices (caller_df w) = [d] →
     0 < c ∧ c ≤ Q2Qc (1 # 2) → valid_X (features (caller_df w)) = true →
     (analyze_df c w).2 = Ok ∅).
Proof.
  intros Hwf. rewrite analyze_df_outcome by done. cbn [snd].
  split; [done|split].
  - intros Hdev. unfold features. rewrite Hdev. cbn [fmap list_fmap].
    by rewrite valid_X_empty, andb_false_r.
  - intros d Hdev Hc HX. rewrite bool_decide_eq_true_2, HX by done. cbn [andb].
    f_equal. apply anomalous_set_equal_features; [done|].
    intros d1 d2. rewrite Hdev, !list_elem_of_singleton. by intros -> ->.
Qed.


(** C9, as amended. [analyze_df] validates nothing itself: on a
    well-formed table a contamination outside (0, 0.5], so any outside
    (0, 1), is handed unchanged to [IsolationForest.fit] (no default is
    substituted), which raises the library's [ValueError]; by then the
    preprocessing has run, the two columns are in the caller's table and the
    features have been computed. *)
Theorem C9_invalid_contamination c w :
  well_formed (caller_df w) →
  ¬ (0 < c ∧ c ≤ Q2Qc (1 # 2)) →
  analyze_df c w =
    ({| caller_df := enriched (caller_df w);
        fit_log := fit_log w ++ [(c, 42%Z, features (caller_df w))] |},
     Err ValueError).
Proof.
  intros Hwf Hc. rewrite analyze_df_outcome by done.
  by rewrite bool_decide_eq_false_2.
Qed.

(** C10. A table without a column named ["Unnamed: 0"] makes [analyze_df]
    fail with an error before the forest is called; when the table is
    otherwise as documented (the five columns, typed), lines 31-32 run and
    the error is the [KeyError] of [drop] at line 36, for the label
    ["Unnamed: 0"]. *)
Theorem C10_index_column_required c w :
  "Unnamed: 0" ∉ columns (caller_df w) →
  (∃ e, (analyze_df c w).2 = Err e ∧ fit_log (analyze_df c w).1 = fit_log w) ∧
  (documented (caller_df w) →
   analyze_df c w =
     ({| caller_df := enriched (caller_df w); fit_log := fit_log w |},
      Err (KeyError ["Unnamed: 0"]))).
Proof.
  intros Hno. split.
  - by apply analyze_df_without_index.
  - apply analyze_df_documented.
Qed.

Lemma cell_scored_row_std df m s d :
  cell "std_difference_count" (scored_row df m s d) = std_difference_count df d.
Proof.
  unfold scored_row. rewrite !cell_insert_ne by done. apply cell_feature_row_std.
Qed.

Lemma cell_scored_row_mean df m s d :
  cell "mean_difference_count" (scored_row df m s d) = mean_difference_count df d.
Proof.
  unfold scored_row. rewrite !cell_insert_ne by done. apply cell_feature_row_mean.
Qed.

Lemma valid_X_rejects_nan X x :
  accepts_nan = false → x ∈ X → NaN ∈ x → valid_X X = false.
Proof.
  intros Hnan HxX Hx. unfold valid_X. apply andb_false_intro2.
  apply not_true_is_false. intros H. rewrite forallb_forall in H.
  apply list_elem_of_In in HxX. specialize (H x HxX). rewrite forallb_forall in H.
  apply list_elem_of_In in Hx. specialize (H NaN Hx). cbn in H. by rewrite Hnan in H.
Qed.

Lemma label_cases d : label d = 1%Z ∨ label d = (-1)%Z.
Proof. unfold label. case_bool_decide; [by right|by left]. Qed.

(** C2, as amended. A device with exactly one scan (in a well-formed table
    whose reported counts are constant within a scan) has the missing value
    [NaN] as its [std_difference_count], and is not set apart: its feature
    vector, [NaN] included, is in the matrix handed to [IsolationForest.fit].
    When the library rejects missing values the whole call fails with its
    [ValueError]; when it accepts the matrix the device has a row in the
    scored table, labelled [1] or [-1] like any other device. *)
Theorem C2_single_scan_device_is_scored c w d :
  well_formed (caller_df w) →
  constant_reported (caller_df w) →
  d ∈ devices (caller_df w) →
  length (scans_of (caller_df w) d) = 1%nat →
  std_difference_count (caller_df w) d = NaN ∧
  feature_vector (caller_df w) d ∈ features (caller_df w) ∧
  fit_log (analyze_df c w).1 = fit_log w ++ [(c, 42%Z, features (caller_df w))] ∧
  (accepts_nan = false → (analyze_df c w).2 = Err ValueError) ∧
  (0 < c ∧ c ≤ Q2Qc (1 # 2) → valid_X (features (caller_df w)) = true →
   ∃ T r, scored_table c w = (world_after c w, Ok T) ∧ r ∈ rows T ∧
     cell "device" r = d ∧ cell "std_difference_count" r = NaN ∧
     (cell "anomaly" r = VInt 1 ∨ cell "anomaly" r = VInt (-1))).
Proof.
  intros Hwf Hconst Hd Hone. set (df := caller_df w) in *.
  assert (std_difference_count df d = NaN) as Hstd.
  { unfold std_difference_count.
    rewrite device_diffs_discrepancies, length_device_discrepancies, Hone by done.
    done. }
  assert (feature_vector df d ∈ features df) as Hin
    by (unfold features; apply list_elem_of_fmap; by exists d).
  split; [done|split; [done|split; [|split]]].
  - by rewrite analyze_df_outcome.
  - intros Hnan. rewrite analyze_df_outcome by done. cbn [snd]. fold df.
    rewrite (valid_X_rejects_nan _ (feature_vector df d)), andb_false_r; try done.
    unfold feature_vector. rewrite Hstd. right. by left.
  - intros Hc HX. set (m := fitted c df).
    exists (scored_frame df m (scaler df m)), (scored_row df m (scaler df m) d).
    split; [|split; [|split; [|split]]].
    + rewrite scored_table_wf by done. fold df. by rewrite fit_valid.
    + cbn [scored_frame rows]. apply list_elem_of_fmap. by exists d.
    + apply cell_scored_row_device.
    + by rewrite cell_scored_row_std.
    + rewrite cell_scored_row_anomaly. unfold anomaly.
      destruct (label_cases (raw_score df m d)) as [-> | ->]; [by left|by right].
Qed.




(** ** Counting the scores below the threshold *)



Lemma StronglySorted_lookup_le (s : list Qc) i j a b :
  StronglySorted Qcle s → (i ≤ j)%nat →
  s !! i = Some a → s !! j = Some b → a ≤ b.
Proof.
  intros Hs. revert i j. induction Hs as [|x s Hs IH Hx]; intros i j Hij Hi Hj; [done|].
  destruct i as [|i], j as [|j]; cbn in Hi, Hj; simplify_eq.
  - apply Qcle_refl.
  - rewrite Forall_forall in Hx. apply Hx. by eapply list_elem_of_lookup_2.
  - lia.
  - apply (IH i j); [lia|done..].
Qed.



Lemma floor_bounds (x : Qc) :
  Qc_of_Z (Qfloor x) ≤ x ∧ x < Qc_of_Z (Qfloor x) + 1.
Proof.
  pose proof (Qfloor_le x) as H1. pose proof (Qlt_floor x) as H2.
  rewrite inject_Z_plus in H2. qc_to_q. by split.
Qed.


(** ** The count of anomalies against [round(c * N)] *)





Lemma label_anomalous d : label d = (-1)%Z ↔ d < 0.
Proof. unfold label. case_bool_decide; split; done. Qed.

Lemma anomaly_below_offset c df d :
  anomaly df (fitted c df) d = (-1)%Z ↔
  score_samples 42 (features df) (feature_vector df d) < offset_ (fitted c df).
Proof.
  unfold anomaly. rewrite label_anomalous. unfold raw_score, decision_one.
  cbn [fitted f_seed f_train]. split; intros H; qc_to_q; lra.
Qed.


(** * Further properties of [analyze_df] *)

(** ** Calls to the forest *)

Lemma score_fit_log c F w :
  (fit_log (score c F w).1 = fit_log w ∧ ∃ e, (score c F w).2 = Err e) ∨
  (∃ X, fit_log (score c F w).1 = fit_log w ++ [(c, 42%Z, X)]).
Proof.
  unfold score. rewrite M_bind_unfold. unfold lift.
  destruct (select _ F) as [X|e]; [|left; split; [done|by eexists]].
  right. exists (to_matrix X). cbn beta iota.
  rewrite M_bind_unfold. unfold fit_predict at 1.
  destruct (fit c 42 (to_matrix X)) as [m|e]; [|done]. cbn [mbind Result_bind].
  rewrite M_bind_unfold.
  by destruct (MinMaxScaler_fit_transform _).
Qed.

Lemma scored_table_unfold c w :
  scored_table c w =
    match preprocess w with
    | (w1, Ok D) =>
        match feature_table D with
        | Ok F => score c F w1
        | Err e => (w1, Err e)
        end
    | (w1, Err e) => (w1, Err e)
    end.
Proof.
  unfold scored_table. rewrite M_bind_unfold.
  destruct (preprocess w) as [w1 [D|e]]; [|done].
  rewrite M_bind_unfold. unfold lift. by destruct (feature_table D).
Qed.

Lemma analyze_df_unfold c w :
  analyze_df c w =
    match scored_table c w with
    | (w2, Ok T) => (w2, anomalous_devices T)
    | (w2, Err e) => (w2, Err e)
    end.
Proof. unfold analyze_df. by rewrite M_bind_unfold. Qed.

Lemma analyze_df_fit_log c w :
  (fit_log (analyze_df c w).1 = fit_log w ∧ ∃ e, (analyze_df c w).2 = Err e) ∨
  (∃ X, fit_log (analyze_df c w).1 = fit_log w ++ [(c, 42%Z, X)]).
Proof.
  rewrite analyze_df_unfold, scored_table_unfold.
  pose proof (no_fit_preprocess w) as Hlog.
  destruct (preprocess w) as [w1 [D|e]]; cbn [fst] in Hlog;
    [|left; split; [done|by eexists]].
  destruct (feature_table D) as [F|e]; [|left; split; [done|by eexists]].
  destruct (score_fit_log c F w1) as [[H1 [e He]]|[X HX]].
  - left. destruct (score c F w1) as [w2 [T|e']]; cbn in *; [done|].
    split; [congruence|by eexists].
  - right. exists X. rewrite <- Hlog.
    destruct (score c F w1) as [w2 [T|e']]; cbn in *; done.
Qed.

(** X1. Whatever the table and the contamination, one call of [analyze_df]
    fits the forest at most once, with [random_state=42] and the caller's
    contamination; a call that does not fit it fails, so a call that returns
    a set has fitted it exactly once. *)
Theorem X1_fits_at_most_once c w :
  (fit_log (analyze_df c w).1 = fit_log w ∧ ∃ e, (analyze_df c w).2 = Err e) ∨
  (∃ X, fit_log (analyze_df c w).1 = fit_log w ++ [(c, 42%Z, X)]).
Proof. apply analyze_df_fit_log. Qed.

(** ** Missing columns *)

Lemma require_missing cols df x :
  x ∈ cols → x ∉ columns df →
  ∃ miss, require cols df = Err (KeyError miss) ∧ x ∈ miss ∧
          ∀ y, y ∈ miss → y ∈ cols ∧ y ∉ columns df.
Proof.
  intros Hx Hno. unfold require.
  assert (x ∈ missing_labels cols df) as Hin
    by (unfold missing_labels; by apply list_elem_of_filter).
  assert (∀ y, y ∈ missing_labels cols df → y ∈ cols ∧ y ∉ columns df) as Hall.
  { intros y Hy. unfold missing_labels in Hy.
    apply list_elem_of_filter in Hy as [? ?]. done. }
  destruct (missing_labels cols df) as [|m l]; [by apply elem_of_nil in Hin|].
  by exists (m :: l).
Qed.

Lemma require_cases cols df :
  require cols df = Ok tt ∨
  ∃ miss, require cols df = Err (KeyError miss) ∧ miss ≠ [] ∧
          ∀ y, y ∈ miss → y ∈ cols ∧ y ∉ columns df.
Proof.
  unfold require.
  assert (∀ y, y ∈ missing_labels cols df → y ∈ cols ∧ y ∉ columns df) as Hall.
  { intros y Hy. unfold missing_labels in Hy.
    apply list_elem_of_filter in Hy as [? ?]. done. }
  destruct (missing_labels cols df) as [|m l]; [by left|].
  right. by exists (m :: l).
Qed.

Lemma require_Ok_inv cols df x :
  require cols df = Ok tt → x ∈ cols → x ∈ columns df.
Proof.
  intros Hreq Hx. destruct (decide (x ∈ columns df)) as [|Hno]; [done|].
  destruct (require_missing cols df x Hx Hno) as (miss & Hm & _). congruence.
Qed.

Lemma groupby_transform_missing keys c agg df x :
  x ∈ c :: keys → x ∉ columns df →
  ∃ miss, groupby_transform keys c agg df = Err (KeyError miss) ∧ miss ≠ [] ∧
          ∀ y, y ∈ miss → y ∈ c :: keys ∧ y ∉ columns df.
Proof.
  intros Hx Hno. unfold groupby_transform.
  destruct (require_cases keys df) as [Hk|(miss & Hk & Hne & Hall)].
  - rewrite Hk. cbn [mbind Result_bind].
    apply elem_of_cons in Hx as [->|Hx].
    + destruct (require_missing [c] df c) as (miss & Hm & Hin & Hall);
        [by apply list_elem_of_singleton|done|].
      exists miss. rewrite Hm. split; [done|split].
      * intros ->. by apply elem_of_nil in Hin.
      * intros y Hy. destruct (Hall y Hy) as [Hy1 Hy2].
        apply list_elem_of_singleton in Hy1 as ->. split; [by left|done].
    + destruct Hno. by apply (require_Ok_inv keys).
  - exists miss. rewrite Hk. split; [done|split; [done|]].
    intros y Hy. destruct (Hall y Hy). split; [by right|done].
Qed.

Lemma analyze_df_preprocess_Err c w e :
  (preprocess w).2 = Err e → analyze_df c w = ((preprocess w).1, Err e).
Proof.
  intros Hp.
  assert (scored_table c w = ((preprocess w).1, Err e)) as Hs
    by (unfold scored_table; by apply bind_Err).
  unfold analyze_df. rewrite (bind_Err _ _ w e); by rewrite Hs.
Qed.

Lemma analyze_df_without_group_column c w x :
  x ∈ ["procName"; "device"; "scan"] → x ∉ columns (caller_df w) →
  ∃ miss, analyze_df c w = (w, Err (KeyError miss)) ∧ miss ≠ [] ∧
          ∀ y, y ∈ miss → y ∈ ["procName"; "device"; "scan"] ∧ y ∉ columns (caller_df w).
Proof.
  intros Hx Hno.
  destruct (groupby_transform_missing ["device"; "scan"] "procName" agg_count
              (caller_df w) x Hx Hno) as (miss & Hg & Hne & Hall).
  exists miss. split; [|done].
  assert (preprocess w = (w, Err (KeyError miss))) as Hp.
  { unfold preprocess. rewrite M_bind_unfold. unfold df_setitem at 1. by rewrite Hg. }
  rewrite (analyze_df_preprocess_Err c w (KeyError miss)); by rewrite Hp.
Qed.

(** X2. A table without the [device], the [scan] or the [procName] column
    makes [analyze_df] fail at line 31 with a [KeyError] for labels that
    are missing, before anything is written: the caller's table is left
    exactly as it was and the forest is not called. *)
Theorem X2_grouping_columns_required c w x :
  x ∈ ["procName"; "device"; "scan"] → x ∉ columns (caller_df w) →
  ∃ miss, analyze_df c w = (w, Err (KeyError miss)) ∧ miss ≠ [] ∧
          ∀ y, y ∈ miss → y ∈ ["procName"; "device"; "scan"] ∧ y ∉ columns (caller_df w).
Proof. apply analyze_df_without_group_column. Qed.

Lemma preprocess_missing_column w x :
  x ∈ scan_columns → x ∉ columns (caller_df w) → ∃ e, (preprocess w).2 = Err e.
Proof.
  intros Hx Hno.
  destruct (decide (x ∈ ["procName"; "device"; "scan"])) as [Hg|Hng].
  { destruct (groupby_transform_missing ["device"; "scan"] "procName" agg_count
                (caller_df w) x Hg Hno) as (miss & Hm & _).
    exists (KeyError miss). unfold preprocess.
    rewrite M_bind_unfold. unfold df_setitem at 1. by rewrite Hm. }
  assert (x ∈ dropped_columns ∧ x ≠ "total_proc_count" ∧ x ≠ "difference_count")
    as (Hd & Hn1 & Hn2).
  { assert (Forall (λ y, y ∉ ["procName"; "device"; "scan"] →
              y ∈ dropped_columns ∧ y ≠ "total_proc_count" ∧ y ≠ "difference_count")
              scan_columns) as Hall by compute_done.
    rewrite Forall_forall in Hall. by apply Hall. }
  unfold preprocess.
  rewrite M_bind_unfold. unfold df_setitem at 1.
  destruct (groupby_transform _ _ _ (caller_df w)) as [v1|e]; [|by eexists].
  rewrite M_bind_unfold. unfold df_setitem at 1. cbn [caller_df].
  match goal with |- context [match ?r with Ok _ => _ | Err _ => _ end] =>
    destruct r as [v2|e] end; [|by eexists].
  rewrite M_bind_unfold. unfold with_df at 1. cbn [caller_df].
  unfold drop.
  match goal with |- context [require ?cols ?df] =>
    destruct (require_missing cols df x) as (miss & -> & _) end.
  - exact Hd.
  - rewrite !elem_of_columns_setitem. by intros [[?|?]|?].
  - by eexists.
Qed.

Lemma analyze_df_missing_column c w x :
  x ∈ scan_columns → x ∉ columns (caller_df w) →
  ∃ e, (analyze_df c w).2 = Err e ∧ fit_log (analyze_df c w).1 = fit_log w.
Proof.
  intros Hx Hno. destruct (preprocess_missing_column w x Hx Hno) as [e He].
  exists e. rewrite (analyze_df_preprocess_Err c w e He).
  split; [done|apply no_fit_preprocess].
Qed.

(** X3. Each of the six columns [Unnamed: 0], [device], [scan],
    [procName], [scan_proc_count] and [timestamp] is required: on a table
    that lacks any one of them [analyze_df] fails, and the forest is never
    called. *)
Theorem X3_every_column_required c w x :
  x ∈ scan_columns → x ∉ columns (caller_df w) →
  ∃ e, (analyze_df c w).2 = Err e ∧ fit_log (analyze_df c w).1 = fit_log w.
Proof. apply analyze_df_missing_column. Qed.

(** ** A reported count that is not a number *)

Lemma groupby_count_Ok keys c df :
  Forall (λ x, x ∈ columns df) (c :: keys) →
  ∃ vals, groupby_transform keys c agg_count df = Ok vals ∧
          length vals = length (rows df).
Proof.
  intros Hin. apply Forall_cons in Hin as [Hc Hkeys].
  unfold groupby_transform.
  rewrite (require_Ok keys), (require_Ok [c]) by (done || by apply Forall_singleton).
  cbn [mbind Result_bind].
  eexists. split.
  - apply (mapM_Ok _ (λ r, if existsb (λ k, isna (cell k r)) keys then NaN
       else VInt (Z.of_nat (length (filter (λ v, isna v = false)
                                      (cell c <$> group_of keys df r)))))).
    apply Forall_forall. intros r _. by destruct (existsb _ keys).
  - by rewrite length_fmap.
Qed.

Lemma sub_value_cases a b :
  (∃ v, sub_value a b = Ok v) ∨ sub_value a b = Err TypeError.
Proof. destruct a, b; cbn; eauto. Qed.

Lemma sub_value_text a s : sub_value a (VStr s) = Err TypeError.
Proof. by destruct a. Qed.

Lemma sub_series_text a b i x s :
  a !! i = Some x → b !! i = Some (VStr s) → sub_series a b = Err TypeError.
Proof.
  unfold sub_series. revert b i.
  induction a as [|x0 a IH]; intros [|y0 b] i Ha Hb; try done.
  cbn [zip zip_with mapM]. destruct i as [|i]; cbn in Ha, Hb.
  - simplify_eq. cbn. by rewrite sub_value_text.
  - cbn [fst snd]. destruct (sub_value_cases x0 y0) as [[v ->]| ->]; [|done].
    cbn [mbind Result_bind]. by rewrite (IH b i Ha Hb).
Qed.

Lemma preprocess_text w r s :
  Forall (λ x, x ∈ columns (caller_df w))
    ["procName"; "device"; "scan"; "scan_proc_count"] →
  r ∈ rows (caller_df w) → cell "scan_proc_count" r = VStr s →
  ∃ vals,
    groupby_transform ["device"; "scan"] "procName" agg_count (caller_df w) = Ok vals ∧
    preprocess w =
      ({| caller_df := setitem "total_proc_count" vals (caller_df w);
          fit_log := fit_log w |}, Err TypeError).
Proof.
  intros Hcols Hr Hs. destruct w as [df log]. cbn [caller_df fit_log] in *.
  destruct (groupby_count_Ok ["device"; "scan"] "procName" df) as (vals & Hg & Hlen).
  { inversion_clear Hcols as [|? ? H1 Hc1]. inversion_clear Hc1 as [|? ? H2 Hc2].
    inversion_clear Hc2 as [|? ? H3 Hc3]. by repeat constructor. }
  exists vals. split; [done|].
  unfold preprocess.
  rewrite M_bind_unfold. unfold df_setitem at 1. cbn [caller_df fit_log]. rewrite Hg.
  rewrite M_bind_unfold. unfold df_setitem at 1. cbn [caller_df fit_log].
  set (df1 := setitem "total_proc_count" vals df).
  unfold getitem.
  rewrite (require_Ok ["total_proc_count"] df1), (require_Ok ["scan_proc_count"] df1).
  - cbn [mbind Result_bind].
    apply list_elem_of_lookup in Hr as [i Hi].
    destruct (lookup_lt_is_Some_2 vals i) as [v Hv].
    { rewrite Hlen. by eapply lookup_lt_Some. }
    rewrite (sub_series_text _ _ i v s); [done| |].
    + rewrite list_lookup_fmap. subst df1. cbn [setitem rows].
      rewrite lookup_zip_with, Hi, Hv. cbn. by rewrite cell_insert_eq.
    + rewrite list_lookup_fmap. subst df1. cbn [setitem rows].
      rewrite lookup_zip_with, Hi, Hv. cbn. rewrite cell_insert_ne by done. by rewrite Hs.
  - apply Forall_singleton. subst df1. rewrite elem_of_columns_setitem. left.
    rewrite Forall_forall in Hcols. apply Hcols. compute_done.
  - apply Forall_singleton. subst df1. rewrite elem_of_columns_setitem. by right.
Qed.

(** X4. When the table has the columns of lines 31-32 and a cell of
    [scan_proc_count] holds text, [analyze_df] fails with [TypeError] at
    the subtraction of line 32: by then line 31 has written the
    [total_proc_count] column to the caller's table, which is left so; the
    [difference_count] column is not written and the forest is not
    called. *)
Theorem X4_text_in_reported_count c w r s :
  Forall (λ x, x ∈ columns (caller_df w))
    ["procName"; "device"; "scan"; "scan_proc_count"] →
  r ∈ rows (caller_df w) → cell "scan_proc_count" r = VStr s →
  ∃ vals,
    groupby_transform ["device"; "scan"] "procName" agg_count (caller_df w) = Ok vals ∧
    analyze_df c w =
      ({| caller_df := setitem "total_proc_count" vals (caller_df w);
          fit_log := fit_log w |}, Err TypeError).
Proof.
  intros Hcols Hr Hs.
  destruct (preprocess_text w r s Hcols Hr Hs) as (vals & Hg & Hp).
  exists vals. split; [done|].
  rewrite (analyze_df_preprocess_Err c w TypeError); by rewrite Hp.
Qed.

(** ** The threshold, with ties *)

Lemma lerp_bounds (lo hi g : Qc) :
  lo ≤ hi → 0 ≤ g → g < 1 →
  lo ≤ lo + (hi - lo) * g ∧ lo + (hi - lo) * g ≤ hi.
Proof. intros H1 H2 H3. qc_to_q. split; nra. Qed.

Lemma lerp_mono (lo hi g g' : Qc) :
  lo ≤ hi → g ≤ g' → lo + (hi - lo) * g ≤ lo + (hi - lo) * g'.
Proof. intros H1 H2. qc_to_q. nra. Qed.

Lemma virtual_index_mono (n : Z) (q q' : Qc) :
  (1 ≤ n)%Z → q ≤ q' →
  Qc_of_Z (n - 1) * q / Qc_of_Z 100 ≤ Qc_of_Z (n - 1) * q' / Qc_of_Z 100.
Proof.
  intros Hn Hq.
  pose proof Qc_of_Z_100_pos as H100. pose proof (Qcinv_pos _ H100) as Hinv.
  assert (0 ≤ Qc_of_Z (n - 1)) as Hn0 by (apply Qc_of_Z_nonneg; lia).
  unfold Qcdiv. apply Qcmult_le_compat_r; [|by apply Qclt_le_weak].
  by apply Qcmult_le_mono_nonneg_l.
Qed.

(** The percentile is an interpolation between two neighbours of the
    sorted scores. *)
Lemma percentile_neighbours (S : list Qc) (q : Qc) :
  S ≠ [] → 0 ≤ q → q ≤ Qc_of_Z 100 →
  let n := Z.of_nat (length S) in
  let vi := Qc_of_Z (n - 1) * q / Qc_of_Z 100 in
  let prev := Qfloor vi in
  ∃ lo hi,
    merge_sort Qcle S !! Z.to_nat prev = Some lo ∧
    merge_sort Qcle S !! Z.to_nat (Z.min (prev + 1) (n - 1)) = Some hi ∧
    lo ≤ hi ∧
    percentile S q = lo + (hi - lo) * (vi - Qc_of_Z prev) ∧
    (0 ≤ prev ≤ n - 1)%Z ∧
    0 ≤ vi - Qc_of_Z prev ∧ vi - Qc_of_Z prev < 1.
Proof.
  intros Hne Hq0 Hq1 n vi prev.
  assert (1 ≤ n)%Z as Hn by (subst n; destruct S; [done|cbn; lia]).
  pose proof (percentile_index_bounds _ q Hn Hq0 Hq1) as Hidx.
  fold vi prev in Hidx.
  pose proof (floor_bounds vi) as [Hf0 Hf1]. fold prev in Hf0, Hf1.
  set (s := merge_sort Qcle S).
  assert (length s = length S) as Hlen by (subst s; by rewrite merge_sort_Permutation).
  assert (StronglySorted Qcle s) as Hss by (apply StronglySorted_merge_sort; apply _).
  destruct (lookup_lt_is_Some_2 s (Z.to_nat prev)) as [lo Hlo]; [lia|].
  destruct (lookup_lt_is_Some_2 s (Z.to_nat (Z.min (prev + 1) (n - 1)))) as [hi Hhi]; [lia|].
  exists lo, hi. split; [done|split; [done|split; [|split; [|split; [done|split]]]]].
  - apply (StronglySorted_lookup_le s (Z.to_nat prev) (Z.to_nat (Z.min (prev + 1) (n - 1))));
      [done|lia|done..].
  - unfold percentile. fold n vi prev s. by rewrite Hlo, Hhi.
  - by apply Qc_sub_nonneg.
  - clear -Hf1. qc_to_q. lra.
Qed.



(** The percentile does not decrease with the rank asked for. *)
Lemma percentile_mono (S : list Qc) (q q' : Qc) :
  S ≠ [] → 0 ≤ q → q ≤ q' → q' ≤ Qc_of_Z 100 →
  percentile S q ≤ percentile S q'.
Proof.
  intros Hne Hq0 Hqq Hq1.
  assert (q ≤ Qc_of_Z 100) as Hq1' by (by eapply Qcle_trans).
  assert (0 ≤ q') as Hq0' by (by eapply Qcle_trans).
  destruct (percentile_neighbours S q Hne Hq0 Hq1')
    as (lo & hi & Hlo & Hhi & Hlohi & -> & Hprev & Hg0 & Hg1).
  destruct (percentile_neighbours S q' Hne Hq0' Hq1)
    as (lo' & hi' & Hlo' & Hhi' & Hlohi' & -> & Hprev' & Hg0' & Hg1').
  assert (1 ≤ Z.of_nat (length S))%Z as Hn by (destruct S; [done|cbn; lia]).
  pose proof (virtual_index_mono _ q q' Hn Hqq) as Hvi.
  set (vi := Qc_of_Z (Z.of_nat (length S) - 1) * q / Qc_of_Z 100) in *.
  set (vi' := Qc_of_Z (Z.of_nat (length S) - 1) * q' / Qc_of_Z 100) in *.
  pose proof (Qfloor_Qc_mono _ _ Hvi) as Hfl.
  set (prev := Qfloor vi) in *. set (prev' := Qfloor vi') in *.
  set (s := merge_sort Qcle S) in *.
  assert (StronglySorted Qcle s) as Hss by (apply StronglySorted_merge_sort; apply _).
  destruct (decide (prev = prev')) as [Heq|Hneq].
  - rewrite <- Heq in Hlo', Hhi' |- *. simplify_eq.
    apply lerp_mono; [done|]. clear -Hvi. qc_to_q. lra.
  - assert (prev + 1 ≤ prev')%Z as Hstep by lia.
    rewrite Z.min_l in Hhi by lia.
    destruct (lerp_bounds lo hi (vi - Qc_of_Z prev) Hlohi Hg0 Hg1) as [_ Hb].
    destruct (lerp_bounds lo' hi' (vi' - Qc_of_Z prev') Hlohi' Hg0' Hg1') as [Hb' _].
    eapply Qcle_trans; [exact Hb|]. eapply Qcle_trans; [|exact Hb'].
    apply (StronglySorted_lookup_le s (Z.to_nat (prev + 1)) (Z.to_nat prev'));
      [done|lia|done..].
Qed.

(** ** Bounds on the number of anomalies *)





(** ** A larger contamination *)

Lemma anomalous_set_mono c c' df :
  0 < c → c ≤ c' → c' ≤ Q2Qc (1 # 2) → devices df ≠ [] →
  anomalous_set df (fitted c df) ⊆ anomalous_set df (fitted c' df).
Proof.
  intros Hc0 Hcc Hc1 Hdev d. unfold anomalous_set.
  rewrite !elem_of_list_to_set, !list_elem_of_filter, !anomaly_below_offset.
  intros [Hlt Hd]. split; [|done].
  eapply Qclt_le_trans; [exact Hlt|]. cbn [fitted offset_].
  assert (0 < c' ∧ c' ≤ Q2Qc (1 # 2)) as Hc' by (split; [by eapply Qclt_le_trans|done]).
  assert (0 < c ∧ c ≤ Q2Qc (1 # 2)) as Hc by (split; [done|by eapply Qcle_trans]).
  destruct (percentage_range c Hc) as [Hq0 _].
  destruct (percentage_range c' Hc') as [_ Hq1].
  apply percentile_mono; [|done| |done].
  - unfold features. intros E. apply fmap_nil_inv, fmap_nil_inv in E. done.
  - apply Qcmult_le_mono_nonneg_l; [|done]. by apply Qclt_le_weak, Qc_of_Z_100_pos.
Qed.

(** X6. Raising the contamination never removes a device from the result:
    on a well-formed table that the forest accepts, the set returned for
    [c] is included in the set returned for any [c'] with
    [c <= c' <= 0.5]. *)
Theorem X6_monotone_in_contamination c c' w :
  well_formed (caller_df w) →
  0 < c → c ≤ c' → c' ≤ Q2Qc (1 # 2) →
  valid_X (features (caller_df w)) = true →
  ∃ S S', (analyze_df c w).2 = Ok S ∧ (analyze_df c' w).2 = Ok S' ∧ S ⊆ S'.
Proof.
  intros Hwf Hc0 Hcc Hc1 HX. set (df := caller_df w) in *.
  exists (anomalous_set df (fitted c df)), (anomalous_set df (fitted c' df)).
  assert (devices df ≠ []) as Hdev.
  { apply valid_X_nonempty in HX. unfold features in HX. by destruct (devices df). }
  split; [|split].
  - rewrite analyze_df_outcome by done. cbn [snd]. fold df.
    rewrite bool_decide_eq_true_2, HX; [done|].
    split; [done|by eapply Qcle_trans].
  - rewrite analyze_df_outcome by done. cbn [snd]. fold df.
    rewrite bool_decide_eq_true_2, HX; [done|].
    split; [by eapply Qclt_le_trans|done].
  - by apply anomalous_set_mono.
Qed.

(** ** Labels, raw scores and normalised scores of one table *)

Lemma scaler_scale_pos df m : 0 < scale_ (scaler df m).
Proof.
  unfold scaler. destruct (Qcopp <$> scores df m) as [|x l]; [done|].
  cbn [MinMaxScaler_fit scale_]. unfold Qcdiv. rewrite Qcmult_1_l.
  apply Qcinv_pos. case_decide as Hr; [done|]. by apply scaler_range_pos.
Qed.

Lemma score_normalized_order df m d d' :
  raw_score df m d ≤ raw_score df m d' ↔
  score_normalized df m (scaler df m) d' ≤ score_normalized df m (scaler df m) d.
Proof.
  unfold score_normalized. pose proof (scaler_scale_pos df m) as Hs.
  set (a := raw_score df m d). set (a' := raw_score df m d').
  set (s := scale_ (scaler df m)) in *. set (k := min_ (scaler df m)).
  clearbody a a' s k. split; intros H; qc_to_q; nra.
Qed.

Lemma anomaly_normal df m d : anomaly df m d = 1%Z ↔ 0 ≤ raw_score df m d.
Proof.
  unfold anomaly, label. case_bool_decide as H; split; try done.
  - intros H'. by apply Qcle_not_lt in H'.
  - intros _. by apply Qcnot_lt_le.
Qed.

(** X7. In the scored table of a well-formed input the three columns
    written at lines 110-116 agree: a row is labelled [-1] exactly when its
    [anomaly_score] is negative and [1] exactly when it is not, and
    [score_normalized] reverses the order of [anomaly_score]: of two rows,
    the one with the lower raw score has the higher normalised score. *)
Theorem X7_labels_and_scores_agree c w :
  well_formed (caller_df w) →
  0 < c ∧ c ≤ Q2Qc (1 # 2) →
  valid_X (features (caller_df w)) = true →
  ∃ T, scored_table c w = (world_after c w, Ok T) ∧
    (∀ r, r ∈ rows T →
       ∃ l a n, cell "anomaly" r = VInt l ∧ cell "anomaly_score" r = VFloat a ∧
                cell "score_normalized" r = VFloat n ∧
                (l = (-1)%Z ↔ a < 0) ∧ (l = 1%Z ↔ 0 ≤ a)) ∧
    (∀ r r' a a' n n', r ∈ rows T → r' ∈ rows T →
       cell "anomaly_score" r = VFloat a → cell "anomaly_score" r' = VFloat a' →
       cell "score_normalized" r = VFloat n → cell "score_normalized" r' = VFloat n' →
       (a ≤ a' ↔ n' ≤ n)).
Proof.
  intros Hwf Hc HX. set (df := caller_df w). set (m := fitted c df).
  exists (scored_frame df m (scaler df m)).
  split; [|split].
  - rewrite scored_table_wf by done. fold df. by rewrite fit_valid.
  - intros r Hr. cbn [scored_frame rows] in Hr.
    apply list_elem_of_fmap in Hr as (d & -> & Hd).
    exists (anomaly df m d), (raw_score df m d), (score_normalized df m (scaler df m) d).
    rewrite cell_scored_row_anomaly, cell_scored_row_score, cell_scored_row_normalized.
    split; [done|split; [done|split; [done|split]]].
    + unfold anomaly. apply label_anomalous.
    + apply anomaly_normal.
  - intros r r' a a' n n' Hr Hr'. cbn [scored_frame rows] in Hr, Hr'.
    apply list_elem_of_fmap in Hr as (d & -> & Hd).
    apply list_elem_of_fmap in Hr' as (d' & -> & Hd').
    rewrite !cell_scored_row_score, !cell_scored_row_normalized.
    intros [= <-] [= <-] [= <-] [= <-]. apply score_normalized_order.
Qed.

(** ** A second call on the table the first one left *)

Lemma key_enriched_row (r : Row) (x y : value) :
  key (<["difference_count" := x]> (<["total_proc_count" := y]> r)) = key r.
Proof. unfold key. by rewrite !cell_insert_ne by done. Qed.

Lemma elem_of_columns_enriched df c :
  c ∈ columns (enriched df) ↔
  c ∈ columns df ∨ c = "total_proc_count" ∨ c = "difference_count".
Proof.
  cbn [enriched columns]. rewrite elem_of_app, !elem_of_cons, elem_of_nil. tauto.
Qed.

Lemma groupby_count_enriched df :
  readable df →
  groupby_transform ["device"; "scan"] "procName" agg_count (enriched df) =
    Ok ((λ r, VInt (total_proc_count df r)) <$> rows df).
Proof.
  intros (Hin & _ & _ & Hrows). rewrite Forall_forall in Hin.
  unfold groupby_transform.
  rewrite (require_Ok ["device"; "scan"]), (require_Ok ["procName"]).
  2,3: apply Forall_forall; intros c Hc; apply elem_of_columns_enriched; left;
       apply Hin; revert c Hc; apply Forall_forall; compute_done.
  cbn [mbind Result_bind]. cbn [enriched rows]. rewrite mapM_fmap.
  apply mapM_Ok. rewrite Forall_forall in Hrows |- *. intros r Hr.
  destruct (Hrows r Hr) as (Hd & Hs & _). cbn [compose existsb].
  rewrite !cell_insert_ne, Hd, Hs by done. cbn [orb].
  unfold agg_count, group_of. cbn [enriched rows]. do 2 f_equal.
  symmetry. unfold total_proc_count at 1. f_equal. symmetry.
  rewrite filter_fmap, length_fmap, filter_fmap, filter_fmap, length_fmap, filter_all.
  - f_equal. apply list_filter_iff. intros r'.
    by rewrite same_group_device_scan, !key_enriched_row.
  - rewrite Forall_forall. intros r' Hr'. cbn beta.
    apply list_elem_of_filter in Hr' as [_ Hr'].
    rewrite !cell_insert_ne by done. by destruct (Hrows r' Hr') as (_ & _ & ? & _).
Qed.

Lemma setitem_enriched_total df :
  setitem "total_proc_count" ((λ r, VInt (total_proc_count df r)) <$> rows df)
    (enriched df) = enriched df.
Proof.
  unfold setitem. rewrite decide_True by (apply elem_of_columns_enriched; tauto).
  unfold enriched. cbn [columns rows]. f_equal.
  rewrite zip_with_fmap_both. apply list_fmap_ext. intros _ r _.
  apply insert_id. by rewrite lookup_insert_ne, lookup_insert_eq.
Qed.

Lemma setitem_enriched_difference df :
  setitem "difference_count" ((λ r, VInt (difference_count df r)) <$> rows df)
    (enriched df) = enriched df.
Proof.
  unfold setitem. rewrite decide_True by (apply elem_of_columns_enriched; tauto).
  unfold enriched. cbn [columns rows]. f_equal.
  rewrite zip_with_fmap_both. apply list_fmap_ext. intros _ r _.
  apply insert_id. by rewrite lookup_insert_eq.
Qed.

Lemma difference_count_enriched df :
  readable df →
  (a ← getitem "total_proc_count" (enriched df);
   b ← getitem "scan_proc_count" (enriched df);
   sub_series a b) = Ok ((λ r, VInt (difference_count df r)) <$> rows df).
Proof.
  intros (Hin & _ & _ & Hrows).
  assert ("scan_proc_count" ∈ columns (enriched df)) as H1.
  { apply elem_of_columns_enriched. left.
    rewrite Forall_forall in Hin. apply Hin. compute_done. }
  assert ("total_proc_count" ∈ columns (enriched df)) as H2
    by (apply elem_of_columns_enriched; tauto).
  unfold getitem. rewrite !require_Ok by (by repeat constructor).
  cbn [mbind Result_bind].
  cbn [enriched rows]. rewrite <- !list_fmap_compose.
  unfold sub_series. rewrite zip_fmap_same, mapM_fmap.
  apply mapM_Ok. rewrite Forall_forall in Hrows |- *. intros r Hr.
  cbn [compose fst snd].
  rewrite (cell_insert_ne "total_proc_count"), cell_insert_eq by done.
  rewrite !cell_insert_ne by done.
  destruct (Hrows r Hr) as (_ & _ & _ & Hi).
  unfold difference_count.
  destruct (cell "scan_proc_count" r) eqn:E; try done.
Qed.

(** Lines 31-32 write to an enriched table the columns it already has. *)
Lemma preprocess_enriched w df :
  well_formed df → caller_df w = enriched df →
  preprocess w = (w, Ok (data_no_proc df)).
Proof.
  intros Hwf Hw. destruct w as [df' log]. cbn [caller_df] in Hw. subst df'.
  pose proof (well_formed_readable df Hwf) as Hread.
  pose proof (preprocess_ok {| caller_df := df; fit_log := log |} Hwf) as Hok.
  cbn [caller_df fit_log] in Hok. revert Hok.
  unfold preprocess.
  rewrite M_bind_unfold. unfold df_setitem at 1. cbn [caller_df fit_log].
  rewrite total_proc_count_ok, with_total_eq by done.
  rewrite M_bind_unfold. unfold df_setitem at 1. cbn [caller_df fit_log].
  rewrite difference_count_ok, enriched_eq by done.
  intros Hok.
  rewrite M_bind_unfold. unfold df_setitem at 1. cbn [caller_df fit_log].
  rewrite groupby_count_enriched, setitem_enriched_total by done.
  rewrite M_bind_unfold. unfold df_setitem at 1. cbn [caller_df fit_log].
  rewrite difference_count_enriched, setitem_enriched_difference by done.
  exact Hok.
Qed.

Lemma scored_table_snd c w w' D :
  preprocess w = (w', Ok D) →
  ∀ v, caller_df v = caller_df w' →
  (scored_table c w).2 = (F ← feature_table D; (score c F v).2) ∧
  caller_df (scored_table c w).1 = caller_df w'.
Proof.
  intros Hp v Hv. rewrite scored_table_unfold, Hp.
  destruct (feature_table D) as [F|e]; [|done]. cbn [mbind Result_bind].
  destruct (frame_determined_score c F w' v) as [H1 _]; [done|].
  split; [done|apply keeps_frame_score].
Qed.

Lemma analyze_df_snd c w :
  (analyze_df c w).2 = (T ← (scored_table c w).2; anomalous_devices T) ∧
  (analyze_df c w).1 = (scored_table c w).1.
Proof.
  rewrite analyze_df_unfold. by destruct (scored_table c w) as [w2 [T|e]].
Qed.

Lemma analyze_df_again c c' w :
  well_formed (caller_df w) →
  (analyze_df c' (analyze_df c w).1).2 = (analyze_df c' w).2 ∧
  (scored_table c' (analyze_df c w).1).2 = (scored_table c' w).2 ∧
  caller_df (analyze_df c' (analyze_df c w).1).1 = caller_df (analyze_df c w).1.
Proof.
  intros Hwf. rewrite (analyze_df_outcome c w Hwf). cbn [fst].
  set (df := caller_df w) in *. set (w1 := world_after c w).
  assert (caller_df w1 = enriched df) as Hw1 by done.
  pose proof (preprocess_enriched w1 df Hwf Hw1) as Hp1.
  pose proof (preprocess_ok w Hwf) as Hp0. fold df in Hp0.
  destruct (scored_table_snd c' w1 _ _ Hp1 w1 eq_refl) as [Hs1 Hf1].
  destruct (scored_table_snd c' w _ _ Hp0 w1) as [Hs0 _]; [done|].
  assert ((scored_table c' w1).2 = (scored_table c' w).2) as Hs by (by rewrite Hs1, Hs0).
  destruct (analyze_df_snd c' w1) as [Ha1 Hw1'].
  destruct (analyze_df_snd c' w) as [Ha0 _].
  split; [by rewrite Ha1, Ha0, Hs|split; [done|]].
  by rewrite Hw1', Hf1.
Qed.

(** X8. A second call on the table a first call left behind is harmless:
    on a well-formed input, calling [analyze_df] again on the caller's
    table, now carrying [total_proc_count] and [difference_count], gives
    the same outcome and the same scored table as a call on the original
    table with that contamination, and leaves the table exactly as the
    first call left it. *)
Theorem X8_second_call_same_outcome c c' w :
  well_formed (caller_df w) →
  (analyze_df c' (analyze_df c w).1).2 = (analyze_df c' w).2 ∧
  (scored_table c' (analyze_df c w).1).2 = (scored_table c' w).2 ∧
  caller_df (analyze_df c' (analyze_df c w).1).1 = caller_df (analyze_df c w).1.
Proof. apply analyze_df_again. Qed.

(** ** The columns the outcome depends on *)

Lemma scan_rows_readings df :
  scan_rows df =
    keep_first ((λ t : value * value * value,
      (t.1, (Z.of_nat (length (filter (λ t' : value * value * value, t'.1 = t.1)
                                 (readings df))) - int_of t.2)%Z)) <$> readings df).
Proof.
  unfold scan_rows, readings. rewrite <- list_fmap_compose. f_equal.
  apply list_fmap_ext. intros _ r _. cbn [compose reading fst snd].
  unfold difference_count, total_proc_count, key. do 3 f_equal.
  by rewrite filter_fmap, length_fmap.
Qed.

Lemma devices_readings df :
  devices df = keep_first ((λ t : value * value * value, t.1.1) <$> readings df).
Proof. unfold devices, readings. by rewrite <- list_fmap_compose. Qed.

(** Two tables with the same readings have the same scored table and the
    same returned set. *)
Lemma readings_outcome c df df' :
  readings df = readings df' →
  features df = features df' ∧
  fitted c df = fitted c df' ∧
  (∀ m, anomalous_set df m = anomalous_set df' m) ∧
  (∀ m, scored_frame df m (scaler df m) = scored_frame df' m (scaler df' m)).
Proof.
  intros Hr.
  assert (scan_rows df = scan_rows df') as Hsr by (by rewrite !scan_rows_readings, Hr).
  assert (devices df = devices df') as Hdev by (by rewrite !devices_readings, Hr).
  assert (∀ d, device_diffs df d = device_diffs df' d) as Hdd
    by (intros d; unfold device_diffs; by rewrite Hsr).
  assert (∀ d, mean_difference_count df d = mean_difference_count df' d) as Hm
    by (intros d; unfold mean_difference_count; by rewrite Hdd).
  assert (∀ d, std_difference_count df d = std_difference_count df' d) as Hs
    by (intros d; unfold std_difference_count; by rewrite Hdd).
  assert (∀ d, feature_vector df d = feature_vector df' d) as Hfv
    by (intros d; unfold feature_vector; by rewrite Hm, Hs).
  assert (∀ d, feature_row df d = feature_row df' d) as Hfr
    by (intros d; unfold feature_row; by rewrite Hm, Hs).
  assert (features df = features df') as Hf.
  { unfold features. rewrite Hdev. apply list_fmap_ext. intros _ d _. apply Hfv. }
  assert (∀ m d, raw_score df m d = raw_score df' m d) as Hraw
    by (intros m d; unfold raw_score; by rewrite Hfv).
  assert (∀ m d, anomaly df m d = anomaly df' m d) as Han
    by (intros m d; unfold anomaly; by rewrite Hraw).
  assert (∀ m, scaler df m = scaler df' m) as Hsc.
  { intros m. unfold scaler, scores. rewrite Hdev.
    assert (raw_score df m <$> devices df' = raw_score df' m <$> devices df') as ->
      by (apply list_fmap_ext; intros _ d _; apply Hraw).
    done. }
  split; [done|split; [|split]].
  - unfold fitted. by rewrite Hf.
  - intros m. unfold anomalous_set. rewrite Hdev. f_equal.
    apply list_filter_iff. intros d. by rewrite Han.
  - intros m. unfold scored_frame. rewrite Hdev, Hsc. f_equal.
    apply list_fmap_ext. intros _ d _. unfold scored_row, score_normalized.
    by rewrite Hraw, Han, Hfr.
Qed.

Lemma analyze_df_readings c w w' :
  well_formed (caller_df w) → well_formed (caller_df w') →
  readings (caller_df w) = readings (caller_df w') →
  (analyze_df c w).2 = (analyze_df c w').2 ∧
  (scored_table c w).2 = (scored_table c w').2.
Proof.
  intros Hwf Hwf' Hr.
  destruct (readings_outcome c _ _ Hr) as (Hf & Hfit & Hset & Hfr).
  split.
  - rewrite !analyze_df_outcome by done. cbn [snd]. by rewrite Hf, Hfit, Hset.
  - rewrite !scored_table_wf by done. cbn [snd]. rewrite Hf.
    destruct (fit c 42 (features (caller_df w'))) as [m|e]; [|done].
    cbn [mbind Result_bind]. by rewrite Hfr.
Qed.

(** X9. The outcome depends on the table only through the device, the
    scan and the reported count of its records, in order: two well-formed
    tables that agree on these three columns row by row, whatever their
    index, their timestamps and their process names, give the same set of
    devices (or the same error) and the same scored table. *)
Theorem X9_outcome_reads_three_columns c w w' :
  well_formed (caller_df w) → well_formed (caller_df w') →
  readings (caller_df w) = readings (caller_df w') →
  (analyze_df c w).2 = (analyze_df c w').2 ∧
  (scored_table c w).2 = (scored_table c w').2.
Proof. apply analyze_df_readings. Qed.

(** * The function with its options *)

Lemma IO_bind_unfold {A B} (m : IO A) (f : A → IO B) s :
  (m ≫= f) s = match m s with
               | (s', Finished a) => f a s'
               | (s', Failed e) => (s', Failed e)
               end.
Proof. done. Qed.

Lemma log_nil s : log [] s = s.
Proof. destruct s. unfold log. cbn. by rewrite app_nil_r. Qed.

Lemma log_log evs evs' s : log evs' (log evs s) = log (evs ++ evs') s.
Proof. unfold log. cbn. by rewrite (assoc_L (++)). Qed.

Lemma writes_only_ret {A} (a : A) : writes_only (mret a : IO A).
Proof. intros s. exists []. by rewrite log_nil. Qed.

Lemma writes_only_pure {A} (r : Result A) : writes_only (pure r).
Proof. intros s. exists []. by rewrite log_nil. Qed.

Lemma writes_only_emit e : writes_only (emit e).
Proof. intros s. by exists [e]. Qed.

Lemma writes_only_os_call e : writes_only (os_call e).
Proof.
  intros s. unfold os_call. destruct (os_refuses py (trace s) e).
  - exists []. by rewrite log_nil.
  - by exists [e].
Qed.

Lemma writes_only_bind {A B} (m : IO A) (f : A → IO B) :
  writes_only m → (∀ a, writes_only (f a)) → writes_only (m ≫= f).
Proof.
  intros Hm Hf s. rewrite IO_bind_unfold. destruct (Hm s) as [evs Hs].
  destruct (m s) as [s' [a|e]]; cbn [fst] in Hs; subst s'.
  - destruct (Hf a (log evs s)) as [evs' Hs']. exists (evs ++ evs').
    by rewrite Hs', log_log.
  - by exists evs.
Qed.

Lemma writes_only_for_each {A} (l : list A) (body : A → IO unit) :
  (∀ x, writes_only (body x)) → writes_only (for_each l body).
Proof.
  intros Hb. induction l as [|x l IH]; [apply writes_only_ret|].
  cbn [for_each]. apply writes_only_bind; [apply Hb|by intros _].
Qed.

Lemma writes_only_skip_plot d t m : writes_only (skip_plot d t m).
Proof.
  unfold skip_plot. apply writes_only_bind; [apply writes_only_emit|].
  intros _. apply writes_only_emit.
Qed.

Lemma writes_only_plot_device dir D d : writes_only (plot_device dir D d).
Proof.
  unfold plot_device. case_decide; [apply writes_only_ret|].
  apply writes_only_bind; [apply writes_only_pure|intros mean_value].
  apply writes_only_bind; [apply writes_only_emit|intros _].
  apply writes_only_bind; [apply writes_only_emit|intros _].
  apply writes_only_bind; [apply writes_only_pure|intros mean_text].
  apply writes_only_bind; [apply writes_only_emit|intros _].
  apply writes_only_bind; [apply writes_only_pure|intros signal].
  destruct (try_block _ _) as [lines [[t m]|]].
  - apply writes_only_bind;
      [apply writes_only_for_each; intros c; apply writes_only_emit|intros _].
    apply writes_only_skip_plot.
  - apply writes_only_bind;
      [apply writes_only_for_each; intros c; apply writes_only_emit|intros _].
    apply writes_only_bind;
      [apply writes_only_for_each; intros c; apply writes_only_emit|intros _].
    apply writes_only_bind; [apply writes_only_os_call|intros _].
    apply writes_only_emit.
Qed.

Lemma writes_only_plots dir D : writes_only (plots dir D).
Proof.
  unfold plots.
  apply writes_only_bind; [apply writes_only_pure|intros device].
  apply writes_only_bind; [apply writes_only_pure|intros names].
  apply writes_only_for_each. intros d. apply writes_only_plot_device.
Qed.

Lemma writes_only_report_row r : writes_only (report_row r).
Proof.
  unfold report_row. destruct (py_eq _ _); [|apply writes_only_ret].
  apply writes_only_bind; [apply writes_only_pure|intros t].
  apply writes_only_emit.
Qed.

Lemma writes_only_report T : writes_only (report T).
Proof. apply writes_only_for_each, writes_only_report_row. Qed.

(** The function, stage by stage. *)
Lemma analyze_df_full_unfold create_plots dir c verbose s :
  analyze_df_full create_plots dir c verbose s =
    match (if create_plots then os_call (Makedirs dir) else mret tt) s with
    | (s0, Failed f) => (s0, Failed f)
    | (s0, Finished _) =>
        match preprocess (world s0) with
        | (w1, Err e) => ({| world := w1; trace := trace s0 |}, Failed (Python e))
        | (w1, Ok D) =>
            match (if create_plots then plots dir D else mret tt)
                    {| world := w1; trace := trace s0 |} with
            | (s2, Failed f) => (s2, Failed f)
            | (s2, Finished _) =>
                match feature_table D with
                | Err e => (s2, Failed (Python e))
                | Ok F =>
                    match score c F (world s2) with
                    | (w3, Err e) =>
                        ({| world := w3; trace := trace s2 |}, Failed (Python e))
                    | (w3, Ok T) =>
                        match (if verbose then report T else mret tt)
                                {| world := w3; trace := trace s2 |} with
                        | (s4, Failed f) => (s4, Failed f)
                        | (s4, Finished _) => (s4, of_result (anomalous_devices T))
                        end
                    end
                end
            end
        end
    end.
Proof.
  unfold analyze_df_full. rewrite IO_bind_unfold.
  destruct ((if create_plots then os_call (Makedirs dir) else mret tt) s)
    as [s0 [[]|f]]; [|done].
  rewrite IO_bind_unfold. unfold run at 1.
  destruct (preprocess (world s0)) as [w1 [D|e]]; [|done]. cbn [fst snd of_result].
  rewrite IO_bind_unfold.
  destruct ((if create_plots then plots dir D else mret tt)
              {| world := w1; trace := trace s0 |}) as [s2 [[]|f]]; [|done].
  rewrite IO_bind_unfold. unfold pure at 1.
  destruct (feature_table D) as [F|e]; [|done]. cbn [of_result].
  rewrite IO_bind_unfold. unfold run at 1.
  destruct (score c F (world s2)) as [w3 [T|e]]; [|done]. cbn [fst snd of_result].
  rewrite IO_bind_unfold.
  by destruct ((if verbose then report T else mret tt)
                 {| world := w3; trace := trace s2 |}) as [s4 [[]|f]].
Qed.

Lemma analyze_df_stages c w :
  analyze_df c w =
    match preprocess w with
    | (w1, Err e) => (w1, Err e)
    | (w1, Ok D) =>
        match feature_table D with
        | Err e => (w1, Err e)
        | Ok F =>
            match score c F w1 with
            | (w3, Err e) => (w3, Err e)
            | (w3, Ok T) => (w3, anomalous_devices T)
            end
        end
    end.
Proof.
  rewrite analyze_df_unfold, scored_table_unfold.
  destruct (preprocess w) as [w1 [D|e]]; [|done].
  destruct (feature_table D) as [F|e]; [|done].
  by destruct (score c F w1) as [w3 [T|e]].
Qed.

(** ** The options only add output *)

Lemma for_each_finishes {A} (l : list A) (body : A → IO unit) :
  (∀ x s, x ∈ l → (body x s).2 = Finished tt) →
  ∀ s, (for_each l body s).2 = Finished tt.
Proof.
  induction l as [|x l IH]; intros Hb s; [done|].
  cbn [for_each]. rewrite IO_bind_unfold.
  pose proof (Hb x s (list_elem_of_here _ _)) as Hx.
  destruct (body x s) as [s' [[]|f]]; [|done].
  apply IH. intros y s'' Hy. apply Hb. by right.
Qed.

Lemma cell_as_float c (r : Row) : cell c (as_float <$> r) = as_float (cell c r).
Proof. unfold cell. rewrite lookup_fmap. by destruct (r !! c). Qed.

Lemma elem_of_rows_setitem c vals df r :
  r ∈ rows (setitem c vals df) →
  ∃ r0 v, r = <[c := v]> r0 ∧ r0 ∈ rows df ∧ v ∈ vals.
Proof.
  cbn [setitem rows]. intros Hr. apply list_elem_of_lookup in Hr as [i Hi].
  apply lookup_zip_with_Some in Hi as (r0 & v & -> & H1 & H2).
  exists r0, v. split; [done|split]; by eapply list_elem_of_lookup_2.
Qed.

Lemma score_rows c F w w' T r :
  score c F w = (w', Ok T) → r ∈ rows T →
  ∃ q, cell "anomaly_score" r = VFloat q.
Proof.
  unfold score. rewrite M_bind_unfold. unfold lift.
  destruct (select _ F) as [X|e]; [|done]. cbn beta iota.
  rewrite M_bind_unfold. unfold fit_predict at 1.
  destruct (fit c 42 (to_matrix X)) as [m|e]; [|done]. cbn [mbind Result_bind].
  rewrite M_bind_unfold.
  destruct (MinMaxScaler_fit_transform _) as [nz|e]; [|done].
  unfold mret, M_ret. intros [= _ <-] Hr.
  apply elem_of_rows_setitem in Hr as (r1 & v1 & -> & Hr & _).
  apply elem_of_rows_setitem in Hr as (r2 & v2 & -> & _ & Hv).
  apply list_elem_of_fmap in Hv as (q & -> & _). exists q.
  by rewrite cell_insert_ne, cell_insert_eq.
Qed.

Lemma report_row_finishes r s :
  (∃ q, cell "anomaly_score" r = VFloat q) → (report_row r s).2 = Finished tt.
Proof.
  intros [q Hq]. unfold report_row. destruct (py_eq _ _); [|done].
  rewrite IO_bind_unfold. unfold pure. by rewrite Hq.
Qed.

Lemma report_finishes c F w w' T s :
  score c F w = (w', Ok T) → (report T s).2 = Finished tt.
Proof.
  intros Hs. unfold report. apply for_each_finishes. intros r s' Hr.
  apply report_row_finishes. unfold iterrows in Hr.
  destruct (numeric_frame T && float_frame T).
  - apply list_elem_of_fmap in Hr as (r0 & -> & Hr0).
    destruct (score_rows c F w w' T r0 Hs Hr0) as [q Hq].
    exists q. by rewrite cell_as_float, Hq.
  - by apply (score_rows c F w w' T).
Qed.

Lemma analyze_df_full_returns create_plots dir c verbose s :
  (∃ evs, trace (analyze_df_full create_plots dir c verbose s).1 = trace s ++ evs) ∧
  (∀ S, (analyze_df_full create_plots dir c verbose s).2 = Finished S →
        analyze_df c (world s) =
          (world (analyze_df_full create_plots dir c verbose s).1, Ok S)).
Proof.
  rewrite analyze_df_full_unfold, analyze_df_stages.
  set (pre := if create_plots then os_call (Makedirs dir) else mret tt).
  assert (writes_only pre) as Hpre
    by (subst pre; destruct create_plots; [apply writes_only_os_call|apply writes_only_ret]).
  destruct (Hpre s) as [e0 H0]. destruct (pre s) as [s0 r0]. cbn [fst] in H0. subst s0.
  unfold log. cbn [world trace].
  destruct r0 as [[]|f]; [|split; [by exists e0|done]].
  destruct (preprocess (world s)) as [w1 [D|e]]; [|split; [by exists e0|done]].
  set (mid := if create_plots then plots dir D else mret tt).
  assert (writes_only mid) as Hmid
    by (subst mid; destruct create_plots; [apply writes_only_plots|apply writes_only_ret]).
  destruct (Hmid {| world := w1; trace := trace s ++ e0 |}) as [e2 H2].
  destruct (mid _) as [s2 r2]. cbn [fst] in H2. subst s2.
  unfold log. cbn [world trace].
  destruct r2 as [[]|f];
    [|split; [exists (e0 ++ e2); cbn; by rewrite (assoc_L (++))|done]].
  destruct (feature_table D) as [F|e];
    [|split; [exists (e0 ++ e2); cbn; by rewrite (assoc_L (++))|done]].
  destruct (score c F w1) as [w3 [T|e]];
    [|split; [exists (e0 ++ e2); cbn; by rewrite (assoc_L (++))|done]].
  set (post := if verbose then report T else mret tt).
  assert (writes_only post) as Hpost
    by (subst post; destruct verbose; [apply writes_only_report|apply writes_only_ret]).
  destruct (Hpost {| world := w3; trace := (trace s ++ e0) ++ e2 |}) as [e4 H4].
  destruct (post _) as [s4 r4]. cbn [fst] in H4. subst s4.
  unfold log. cbn [world trace].
  assert (((trace s ++ e0) ++ e2) ++ e4 = trace s ++ (e0 ++ e2 ++ e4)) as Hevs
    by (by rewrite !(assoc_L (++))).
  destruct r4 as [[]|f]; cbn [fst snd world trace]; [|split; [by eexists|done]].
  split; [by eexists|]. intros S HS. by destruct (anomalous_devices T); simplify_eq/=.
Qed.

Lemma analyze_df_full_quiet dir c verbose s :
  world (analyze_df_full false dir c verbose s).1 = (analyze_df c (world s)).1 ∧
  (analyze_df_full false dir c verbose s).2 = of_result (analyze_df c (world s)).2 ∧
  (verbose = false → trace (analyze_df_full false dir c verbose s).1 = trace s).
Proof.
  rewrite analyze_df_full_unfold, analyze_df_stages.
  unfold mret, IO_ret. cbn beta iota.
  destruct (preprocess (world s)) as [w1 [D|e]]; [|done].
  cbn [world trace].
  destruct (feature_table D) as [F|e]; [|done].
  destruct (score c F w1) as [w3 [T|e]] eqn:Hscore; [|done].
  destruct verbose.
  - pose proof (report_finishes c F w1 w3 T {| world := w3; trace := trace s |} Hscore)
      as Hfin.
    destruct (writes_only_report T {| world := w3; trace := trace s |}) as [evs Hev].
    destruct (report T _) as [s4 [[]|f]]; cbn [fst snd] in *; [|done].
    subst s4. by destruct (anomalous_devices T).
  - cbn [fst snd world trace]. by destruct (anomalous_devices T).
Qed.

(** X10. The options [create_plots] and [verbose] only add output.  With
    any options the events so far are kept and the call only appends to
    them, and whenever the call returns a set it is the set that
    [analyze_df] returns without options, with the same world left to the
    caller.  Without [create_plots] the outcome, errors included, and the
    world are those of [analyze_df], [verbose] or not; with neither option
    no event is added. *)
Theorem X10_options_only_add_output create_plots dir c verbose s :
  (∃ evs, trace (analyze_df_full create_plots dir c verbose s).1 = trace s ++ evs) ∧
  (∀ S, (analyze_df_full create_plots dir c verbose s).2 = Finished S →
        analyze_df c (world s) =
          (world (analyze_df_full create_plots dir c verbose s).1, Ok S)) ∧
  (create_plots = false →
     world (analyze_df_full create_plots dir c verbose s).1 = (analyze_df c (world s)).1 ∧
     (analyze_df_full create_plots dir c verbose s).2 =
       of_result (analyze_df c (world s)).2) ∧
  (create_plots = false → verbose = false →
     trace (analyze_df_full create_plots dir c verbose s).1 = trace s).
Proof.
  destruct (analyze_df_full_returns create_plots dir c verbose s) as [Hev Hret].
  split; [done|split; [done|split]].
  - intros ->. destruct (analyze_df_full_quiet dir c verbose s) as (H1 & H2 & _). done.
  - intros -> ->. by destruct (analyze_df_full_quiet dir c false s) as (_ & _ & H3); auto.
Qed.

(** ** Figures are opened and closed in turn *)

Lemma figure_open_app b evs evs' :
  figure_open b (evs ++ evs') = figure_open b evs ≫= λ b', figure_open b' evs'.
Proof.
  revert b. induction evs as [|e evs IH]; intros b; [done|].
  destruct e as [p|[]|l]; cbn [app figure_open]; try apply IH; by destruct b.
Qed.

Lemma figures_bind {A B} b b' b'' (m : IO A) (f : A → IO B) :
  figures b b' m → (∀ a, figures b' b'' (f a)) → figures b b'' (m ≫= f).
Proof.
  intros Hm Hf s. rewrite IO_bind_unfold. destruct (Hm s) as (evs & Hs & Hr).
  destruct (m s) as [s' r]. cbn [fst snd] in Hs, Hr. subst s'.
  destruct r as [a|e]; [|by exists evs].
  destruct (Hf a (log evs s)) as (evs' & Hs' & Hr'). exists (evs ++ evs').
  rewrite Hs', log_log. split; [done|].
  rewrite figure_open_app, Hr. cbn. done.
Qed.

Lemma figures_ret {A} b (a : A) : figures b b (mret a : IO A).
Proof. intros s. exists []. by rewrite log_nil. Qed.

Lemma figures_pure_Ok {A} b (a : A) : figures b b (pure (Ok a)).
Proof. intros s. exists []. by rewrite log_nil. Qed.

Lemma figures_bind_Ok {A B} b b' (a : A) (f : A → IO B) :
  figures b b' (f a) → figures b b' (pure (Ok a) ≫= f).
Proof. intros Hf s. apply Hf. Qed.

Lemma figures_pure {A} (r : Result A) : figures false false (pure r).
Proof. intros s. exists []. rewrite log_nil. by destruct r. Qed.

Lemma figures_draw b c :
  figure_open b [Pyplot c] = Some true → figures b true (emit (Pyplot c)).
Proof. intros H s. by exists [Pyplot c]. Qed.

Lemma figures_for_each_draw (l : list plt_call) :
  Forall (λ c, figure_open true [Pyplot c] = Some true) l →
  figures true true (for_each l (λ c, emit (Pyplot c))).
Proof.
  induction 1 as [|c l Hc _ IH]; [apply figures_ret|].
  cbn [for_each]. eapply figures_bind; [by apply figures_draw|by intros _].
Qed.

Lemma figures_for_each {A} (l : list A) (body : A → IO unit) :
  (∀ x, figures false false (body x)) → figures false false (for_each l body).
Proof.
  intros Hb. induction l as [|x l IH]; [apply figures_ret|].
  cbn [for_each]. eapply figures_bind; [apply Hb|by intros _].
Qed.

Lemma figures_skip_plot d t m : figures true false (skip_plot d t m).
Proof.
  unfold skip_plot. intros s. rewrite IO_bind_unfold. unfold emit.
  cbn [fst snd]. rewrite log_log. by eexists.
Qed.

Lemma change_point_lines_draw first n cps :
  Forall (λ c, figure_open true [Pyplot c] = Some true)
    (change_point_lines first n cps).1.
Proof.
  induction cps as [|cp cps IH]; cbn [change_point_lines]; [constructor|].
  case_bool_decide; [|done]. case_bool_decide; [constructor|].
  destruct (change_point_lines first n cps) as [ls e]. cbn [fst] in *.
  by constructor.
Qed.

Lemma try_block_draw signal n :
  Forall (λ c, figure_open true [Pyplot c] = Some true) (try_block signal n).1.
Proof.
  unfold try_block. destruct (pelt_predict py "l2" signal 1000); [|constructor].
  apply change_point_lines_draw.
Qed.

Lemma to_float_to_numeric v : ∃ x, to_float (to_numeric v) = Ok x.
Proof.
  destruct v as [s| | |]; cbn; eauto. destruct (parse_numeric py s); cbn; eauto.
Qed.

Lemma numeric_to_numeric (l : list value) : ∃ xs, numeric (to_numeric <$> l) = Ok xs.
Proof.
  unfold numeric.
  assert (∃ ys, mapM to_float (to_numeric <$> l) = Ok ys) as [ys ->]; [|by eexists].
  induction l as [|v l [ys IH]]; [by eexists|].
  cbn [fmap list_fmap mapM]. destruct (to_float_to_numeric v) as [x ->].
  change (list_fmap _ _ to_numeric l) with (to_numeric <$> l). rewrite IH.
  by eexists.
Qed.

Lemma agg_mean_to_numeric (l : list value) :
  ∃ m, agg_mean (to_numeric <$> l) = Ok m ∧ is_str m = false.
Proof.
  unfold agg_mean. destruct (numeric_to_numeric l) as [xs ->]. cbn.
  eexists. split; [done|]. by destruct xs.
Qed.

Lemma format_fixed_number digits v :
  is_str v = false → ∃ t, format_fixed digits v = Ok t.
Proof. destruct v; cbn; eauto. done. Qed.

Lemma figures_os_call_draw c :
  figure_open true [Pyplot c] = Some true → figures true true (os_call (Pyplot c)).
Proof.
  intros H s. unfold os_call. destruct (os_refuses py (trace s) (Pyplot c)).
  - exists []. rewrite log_nil. cbn. eauto.
  - by exists [Pyplot c].
Qed.

Lemma figures_plot_device dir D d : figures false false (plot_device dir D d).
Proof.
  unfold plot_device. case_decide; [apply figures_ret|].
  set (result := filter _ (rows D)).
  destruct (agg_mean_to_numeric (cell "difference_count" <$> result)) as (mv & -> & Hmv).
  apply figures_bind_Ok.
  eapply figures_bind; [intros s; by exists [Pyplot (plt_figure 10 6)]|intros _].
  eapply figures_bind; [by apply figures_draw|intros _].
  destruct (format_fixed_number 2 mv Hmv) as [mean_text ->].
  apply figures_bind_Ok.
  eapply figures_bind; [by apply figures_draw|intros _].
  destruct (numeric_to_numeric (cell "difference_count" <$> result)) as [xs ->].
  eapply figures_bind; [apply figures_pure_Ok|intros signal].
  pose proof (try_block_draw signal (Z.of_nat (length result))) as Hdraw.
  destruct (try_block signal (Z.of_nat (length result))) as [lines caught].
  cbn [fst] in Hdraw.
  eapply figures_bind; [by apply figures_for_each_draw|intros _].
  destruct caught as [[t m]|]; [apply figures_skip_plot|].
  eapply figures_bind; [apply figures_for_each_draw; by repeat constructor|intros _].
  eapply figures_bind; [by apply figures_os_call_draw|intros _].
  intros s. by exists [Pyplot plt_close].
Qed.

Lemma figures_plots dir D : figures false false (plots dir D).
Proof.
  unfold plots.
  eapply figures_bind; [apply figures_pure|intros device].
  eapply figures_bind; [apply figures_pure|intros names].
  apply figures_for_each. intros d. apply figures_plot_device.
Qed.

Lemma figures_report T : figures false false (report T).
Proof.
  apply figures_for_each. intros r. unfold report_row.
  destruct (py_eq _ _); [|apply figures_ret].
  eapply figures_bind; [apply figures_pure|intros t].
  intros s. by eexists [_].
Qed.

Lemma analyze_df_full_figures create_plots dir c verbose s :
  ∃ evs b,
    trace (analyze_df_full create_plots dir c verbose s).1 = trace s ++ evs ∧
    figure_open false evs = Some b ∧
    (b = true → (analyze_df_full create_plots dir c verbose s).2 = Failed OSError).
Proof.
  rewrite analyze_df_full_unfold.
  set (pre := if create_plots then os_call (Makedirs dir) else mret tt).
  assert (figures false false pre) as Hpre.
  { subst pre. destruct create_plots; [|apply figures_ret].
    intros s'. unfold os_call. destruct (os_refuses _ _ _).
    - exists []. rewrite log_nil. cbn. eauto.
    - by eexists [_]. }
  destruct (Hpre s) as (e0 & H0 & Hb0). destruct (pre s) as [s0 r0].
  cbn [fst snd] in H0, Hb0. subst s0. unfold log. cbn [world trace].
  destruct r0 as [[]|f].
  2:{ exists e0. destruct f as [e|]; [by exists false|].
      destruct Hb0 as [b Hb]. exists b. by split. }
  destruct (preprocess (world s)) as [w1 [D|e]]; [|by exists e0, false].
  set (mid := if create_plots then plots dir D else mret tt).
  assert (figures false false mid) as Hmid
    by (subst mid; destruct create_plots; [apply figures_plots|apply figures_ret]).
  destruct (Hmid {| world := w1; trace := trace s ++ e0 |}) as (e2 & H2 & Hb2).
  destruct (mid _) as [s2 r2]. cbn [fst snd] in H2, Hb2. subst s2.
  unfold log. cbn [world trace]. rewrite <- (assoc_L (++)).
  destruct r2 as [[]|f].
  2:{ exists (e0 ++ e2). rewrite figure_open_app, Hb0. cbn.
      destruct f as [e|]; [by exists false|].
      destruct Hb2 as [b Hb]. exists b. by split. }
  assert (figure_open false (e0 ++ e2) = Some false) as Hb02
    by (by rewrite figure_open_app, Hb0).
  destruct (feature_table D) as [F|e]; [|by exists (e0 ++ e2), false].
  destruct (score c F w1) as [w3 [T|e]]; [|by exists (e0 ++ e2), false].
  set (post := if verbose then report T else mret tt).
  assert (figures false false post) as Hpost
    by (subst post; destruct verbose; [apply figures_report|apply figures_ret]).
  destruct (Hpost {| world := w3; trace := trace s ++ e0 ++ e2 |}) as (e4 & H4 & Hb4).
  destruct (post _) as [s4 r4]. cbn [fst snd] in H4, Hb4. subst s4.
  unfold log. cbn [world trace]. rewrite <- (assoc_L (++)).
  exists ((e0 ++ e2) ++ e4). rewrite figure_open_app, Hb02. cbn [mbind option_bind].
  destruct r4 as [[]|f]; cbn [fst snd trace].
  - by exists false.
  - destruct f as [e|]; [by exists false|].
    destruct Hb4 as [b Hb]. exists b. by split.
Qed.

(** X11. Whatever the table, the options and the runtime, the events a
    call adds follow the discipline of figures: a figure is opened only
    when none is open, every call that draws is made on an open figure, and
    each figure is closed before the next one is opened.  No figure is left
    open at the end, unless the call fails with [OSError], which it does
    when the figure cannot be saved. *)
Theorem X11_figures_are_closed create_plots dir c verbose s :
  ∃ evs b,
    trace (analyze_df_full create_plots dir c verbose s).1 = trace s ++ evs ∧
    figure_open false evs = Some b ∧
    (b = true → (analyze_df_full create_plots dir c verbose s).2 = Failed OSError).
Proof. apply analyze_df_full_figures. Qed.

(** ** The optional part on a well-formed table *)

Lemma for_each_log {A} (l : list A) (body : A → IO unit) (ev : A → list event) :
  (∀ x s, x ∈ l → body x s = (log (ev x) s, Finished tt)) →
  ∀ s, for_each l body s = (log (concat (ev <$> l)) s, Finished tt).
Proof.
  induction l as [|x l IH]; intros Hb s.
  - cbn. by rewrite log_nil.
  - cbn [for_each fmap list_fmap concat]. rewrite IO_bind_unfold.
    rewrite Hb by left. rewrite IH by (intros y s' Hy; apply Hb; by right).
    by rewrite log_log.
Qed.

Lemma for_each_emit (l : list plt_call) s :
  for_each l (λ c, emit (Pyplot c)) s = (log (Pyplot <$> l) s, Finished tt).
Proof.
  rewrite (for_each_log l _ (λ c, [Pyplot c])) by done. do 2 f_equal.
  induction l as [|c l IH]; [done|]. cbn. by rewrite <- IH.
Qed.

(** *** Sorting names *)

Lemma insert_sorted_strings x l :
  is_str x = true → Forall (λ d, is_str d = true) l →
  ∃ l', insert_sorted x l = Ok l' ∧ l' ≡ₚ x :: l.
Proof.
  intros Hx. induction 1 as [|y l Hy _ IH]; [by exists [x]|].
  cbn [insert_sorted]. destruct x as [sx| | |], y as [sy| | |]; try done.
  cbn [py_lt mbind Result_bind]. destruct (String.ltb sy sx).
  - destruct IH as (l' & -> & Hl'). exists (VStr sy :: l'). split; [done|].
    rewrite Hl'. apply Permutation_swap.
  - by eexists.
Qed.

Lemma sorted_strings l :
  Forall (λ d, is_str d = true) l → ∃ names, sorted l = Ok names ∧ names ≡ₚ l.
Proof.
  induction 1 as [|x l Hx Hl IH]; [by exists []|].
  cbn [sorted]. destruct IH as (s & -> & Hs). cbn [mbind Result_bind].
  destruct (insert_sorted_strings x s Hx) as (l' & -> & Hl'); [by rewrite Hs|].
  exists l'. split; [done|]. by rewrite Hl', Hs.
Qed.

(** The order of names: [<] on text is transitive and total. *)
Lemma string_compare_trans s1 s2 s3 :
  String.compare s1 s2 = Lt → String.compare s2 s3 = Lt → String.compare s1 s3 = Lt.
Proof.
  revert s2 s3. induction s1 as [|a s1 IH]; intros [|b s2] [|c s3]; cbn; try done.
  unfold Ascii.compare.
  destruct (N.compare_spec (Ascii.N_of_ascii a) (Ascii.N_of_ascii b)) as [E1|L1|G1];
    destruct (N.compare_spec (Ascii.N_of_ascii b) (Ascii.N_of_ascii c)) as [E2|L2|G2];
    try done; intros H1 H2.
  - rewrite E1, E2, N.compare_refl. by apply (IH s2).
  - rewrite E1. by apply N.compare_lt_iff in L2 as ->.
  - rewrite <- E2. by apply N.compare_lt_iff in L1 as ->.
  - assert (Ascii.N_of_ascii a < Ascii.N_of_ascii c)%N as L by (by etrans).
    by apply N.compare_lt_iff in L as ->.
Qed.

Lemma py_lt_text_trans a b c :
  is_str b = true → py_lt a b = Ok true → py_lt b c = Ok true → py_lt a c = Ok true.
Proof.
  destruct a as [sa| | |], b as [sb| | |], c as [sc| | |]; try done.
  cbn [py_lt]. unfold String.ltb. intros _ [= H1] [= H2]. f_equal.
  destruct (String.compare sa sb) eqn:E1; try done.
  destruct (String.compare sb sc) eqn:E2; try done.
  by rewrite (string_compare_trans sa sb sc).
Qed.

Lemma py_lt_text_total x y :
  is_str x = true → is_str y = true → x ≠ y →
  py_lt y x = Ok false → py_lt x y = Ok true.
Proof.
  destruct x as [sx| | |], y as [sy| | |]; try done.
  cbn [py_lt]. unfold String.ltb. intros _ _ Hne [= H]. f_equal.
  rewrite String.compare_antisym.
  destruct (String.compare sy sx) eqn:E; try done.
  apply String.compare_eq_iff in E. congruence.
Qed.

Lemma insert_sorted_strongly x l l' :
  is_str x = true → Forall (λ d, is_str d = true) l → x ∉ l →
  StronglySorted (λ a b, py_lt a b = Ok true) l →
  insert_sorted x l = Ok l' →
  StronglySorted (λ a b, py_lt a b = Ok true) l'.
Proof.
  intros Hx Hl. revert l'. induction Hl as [|y l Hy Hl IH]; intros l' Hnin Hss Hins.
  - injection Hins as <-. by repeat constructor.
  - cbn [insert_sorted] in Hins. apply StronglySorted_inv in Hss as [Hss Hall].
    apply not_elem_of_cons in Hnin as [Hne Hnin].
    destruct (py_lt y x) as [[]|] eqn:Hlt; cbn [mbind Result_bind] in Hins; [| |done].
    + destruct (insert_sorted_strings x l Hx Hl) as (l'' & Hl'' & Hperm).
      rewrite Hl'' in Hins. injection Hins as <-.
      constructor; [by apply IH|]. rewrite Hperm. by constructor.
    + injection Hins as <-.
      assert (py_lt x y = Ok true) as Hxy by (by apply py_lt_text_total).
      constructor; [by constructor|]. constructor; [done|].
      eapply Forall_impl; [exact Hall|]. intros z Hz. cbn beta in Hz.
      by apply (py_lt_text_trans x y z).
Qed.

Lemma sorted_strongly l names :
  Forall (λ d, is_str d = true) l → NoDup l → sorted l = Ok names →
  StronglySorted (λ a b, py_lt a b = Ok true) names.
Proof.
  intros Hl. revert names. induction Hl as [|x l Hx Hl IH]; intros names Hnd Hs.
  - injection Hs as <-. constructor.
  - cbn [sorted] in Hs. apply NoDup_cons in Hnd as [Hnin Hnd].
    destruct (sorted_strings l Hl) as (s & Hs' & Hperm). rewrite Hs' in Hs.
    cbn [mbind Result_bind] in Hs.
    apply (insert_sorted_strongly x s); [done|by rewrite Hperm|by rewrite Hperm| |done].
    by apply IH.
Qed.

(** *** The rows of a device *)

Lemma cell_data_row_device df t : cell "device" (data_row df t) = t.1.1.
Proof. unfold data_row. rewrite !cell_insert_ne by done. apply cell_scan_row_device. Qed.

Lemma cell_data_row_scan df t : cell "scan" (data_row df t) = t.1.2.
Proof. unfold data_row. rewrite !cell_insert_ne by done. apply cell_scan_row_scan. Qed.

Lemma cell_data_row_diff df t : cell "difference_count" (data_row df t) = VInt t.2.
Proof. unfold data_row. rewrite !cell_insert_ne by done. apply cell_scan_row_diff. Qed.

Lemma py_eq_text v s : py_eq v (VStr s) = true ↔ v = VStr s.
Proof.
  destruct v; cbn; try (split; done).
  rewrite bool_decide_eq_true. split; congruence.
Qed.

Lemma device_rows df s :
  filter (λ r, py_eq (cell "device" r) (VStr s) = true) (rows (data_no_proc df)) =
    data_row df <$> device_points df (VStr s).
Proof.
  cbn [data_no_proc rows]. rewrite filter_fmap. f_equal.
  apply list_filter_iff. intros t. by rewrite cell_data_row_device, py_eq_text.
Qed.

Lemma device_points_nonempty df d : d ∈ devices df → device_points df d ≠ [].
Proof.
  intros Hd. rewrite <- devices_scan_rows, elem_of_keep_first in Hd.
  apply list_elem_of_fmap in Hd as (t & -> & Ht).
  intros E. assert (t ∈ device_points df t.1.1) as Hin
    by (unfold device_points; by apply list_elem_of_filter).
  rewrite E in Hin. by apply elem_of_nil in Hin.
Qed.

Lemma device_points_diffs df d :
  device_diffs df d = (λ t, Qc_of_Z t.2) <$> device_points df d.
Proof. done. Qed.

Lemma agg_mean_points df d :
  d ∈ devices df →
  agg_mean ((λ t, VInt t.2) <$> device_points df d) = Ok (mean_difference_count df d).
Proof.
  intros Hd. rewrite <- devices_scan_rows, elem_of_keep_first in Hd.
  apply list_elem_of_fmap in Hd as (t & -> & Ht). by apply agg_mean_device.
Qed.

(** The figure of a device whose name is text. *)
Lemma plot_device_wf dir df name s :
  (∀ h e, os_refuses py h e = false) →
  VStr name ∈ devices df →
  plot_device dir (data_no_proc df) (VStr name) s =
    (log (device_figure dir df (VStr name)) s, Finished tt).
Proof.
  intros Hos Hd. unfold plot_device. rewrite device_rows.
  pose proof (device_points_nonempty df _ Hd) as Hne.
  rewrite decide_False by (by intros E%fmap_nil_inv).
  rewrite <- !list_fmap_compose, !length_fmap.
  rewrite (list_fmap_ext (to_numeric ∘ cell "difference_count" ∘ data_row df)
             (λ t, VInt t.2) (device_points df (VStr name)))
    by (intros _ t _; cbn; by rewrite cell_data_row_diff).
  rewrite (list_fmap_ext (cell "scan" ∘ data_row df) (λ t, t.1.2)
             (device_points df (VStr name)))
    by (intros _ t _; cbn; by rewrite cell_data_row_scan).
  rewrite IO_bind_unfold. unfold pure at 1. rewrite agg_mean_points by done.
  cbn [of_result]. rewrite IO_bind_unfold. unfold emit at 1.
  rewrite IO_bind_unfold. unfold emit at 1.
  rewrite IO_bind_unfold. unfold pure at 1.
  cbn [format_fixed mean_difference_count of_result].
  rewrite IO_bind_unfold. unfold emit at 1.
  rewrite IO_bind_unfold. unfold pure at 1. rewrite numeric_ints. cbn [of_result].
  fold (device_diffs df (VStr name)).
  unfold device_figure, device_change_points, device_curve, mean_difference_count.
  rewrite <- device_points_diffs.
  destruct (try_block _ _) as [lines [[t m]|]]; cbn [fst snd].
  - rewrite IO_bind_unfold, for_each_emit. unfold skip_plot.
    rewrite IO_bind_unfold. unfold emit. rewrite !log_log.
    do 2 f_equal; by rewrite ?fmap_app, ?fmap_cons, <- ?(assoc_L (++)).
  - rewrite IO_bind_unfold, for_each_emit, IO_bind_unfold, for_each_emit.
    rewrite IO_bind_unfold. unfold os_call. rewrite Hos. unfold emit.
    rewrite !log_log.
    do 2 f_equal; by rewrite ?fmap_app, ?fmap_cons, <- ?(assoc_L (++)).
Qed.

Lemma getitem_device_data_no_proc df :
  well_formed df →
  keep_first <$> getitem "device" (data_no_proc df) = Ok (devices df).
Proof.
  intros Hwf. unfold getitem. rewrite require_Ok.
  - cbn [mbind Result_bind fmap Result_fmap]. f_equal.
    cbn [data_no_proc rows]. rewrite <- list_fmap_compose.
    rewrite <- devices_scan_rows.
    f_equal; apply list_fmap_ext; intros _ t _; apply cell_data_row_device.
  - apply Forall_singleton. cbn [data_no_proc columns]. rewrite elem_of_app. left.
    rewrite (data_columns_perm df Hwf). compute_done.
Qed.

Lemma plots_wf dir df names s :
  (∀ h e, os_refuses py h e = false) →
  well_formed df → Forall (λ d, is_str d = true) (devices df) →
  sorted (devices df) = Ok names →
  plots dir (data_no_proc df) s =
    (log (concat (device_figure dir df <$> names)) s, Finished tt).
Proof.
  intros Hos Hwf Hstr Hsorted. unfold plots.
  pose proof (getitem_device_data_no_proc df Hwf) as Hget.
  rewrite IO_bind_unfold. unfold pure at 1.
  destruct (getitem "device" (data_no_proc df)) as [col|]; [|done].
  cbn [fmap Result_fmap] in Hget. injection Hget as Hget. cbn [of_result].
  rewrite IO_bind_unfold. unfold pure at 1. rewrite Hget, Hsorted. cbn [of_result].
  apply for_each_log. intros d s' Hd.
  destruct (sorted_strings _ Hstr) as (names' & Hs' & Hperm).
  rewrite Hsorted in Hs'. injection Hs' as <-.
  rewrite Hperm in Hd. rewrite Forall_forall in Hstr.
  pose proof (Hstr d Hd) as Hsd. destruct d as [name| | |]; try done.
  by apply plot_device_wf.
Qed.

(** ** The messages of [verbose] *)

Lemma for_each_fmap {A B} (f : A → B) (l : list A) (body : B → IO unit) s :
  for_each (f <$> l) body s = for_each l (body ∘ f) s.
Proof.
  revert s. induction l as [|x l IH]; intros s; [done|].
  cbn [fmap list_fmap for_each]. rewrite !IO_bind_unfold. cbn [compose].
  destruct (body (f x) s) as [s' [[]|e]]; [apply IH|done].
Qed.

Lemma concat_fmap_filter {A B} (P : A → Prop) `{∀ x, Decision (P x)} (g : A → B)
    (l : list A) :
  concat ((λ x, if decide (P x) then [g x] else []) <$> l) = g <$> filter P l.
Proof.
  induction l as [|x l IH]; [done|].
  cbn [fmap list_fmap concat]. rewrite filter_cons.
  destruct (decide (P x)); cbn; by rewrite <- IH.
Qed.

Lemma iterrows_text df m sc :
  Forall (λ d, is_str d = true) (devices df) →
  iterrows (scored_frame df m sc) = rows (scored_frame df m sc).
Proof.
  intros Hstr. unfold iterrows. destruct (numeric_frame _) eqn:E; [|done].
  cbn [andb]. destruct (float_frame _); [|done].
  unfold numeric_frame in E. cbn [scored_frame rows columns] in E |- *.
  destruct (devices df) as [|d ds]; [done|].
  apply Forall_cons in Hstr as [Hd _]. cbn [fmap list_fmap forallb] in E.
  apply andb_prop in E as [E _]. unfold feature_columns in E. cbn [app forallb] in E.
  apply andb_prop in E as [E _]. rewrite cell_scored_row_device, Hd in E. done.
Qed.

Lemma report_row_scored c df sc d s :
  is_str d = true →
  report_row (scored_row df (fitted c df) sc d) s =
    (log (if decide (anomaly df (fitted c df) d = (-1)%Z)
          then [Stdout (attention_line c df d)] else []) s, Finished tt).
Proof.
  intros Hd. unfold report_row.
  rewrite cell_scored_row_anomaly, cell_scored_row_score, cell_scored_row_device.
  cbn [py_eq]. case_bool_decide as Ha.
  - rewrite decide_True by done. rewrite IO_bind_unfold. unfold pure. cbn. done.
  - rewrite decide_False by done. unfold mret, IO_ret. by rewrite log_nil.
Qed.

Lemma report_wf c df sc s :
  Forall (λ d, is_str d = true) (devices df) →
  report (scored_frame df (fitted c df) sc) s =
    (log (Stdout <$> (attention_line c df <$> flagged_devices c df)) s, Finished tt).
Proof.
  intros Hstr. unfold report. rewrite iterrows_text by done.
  cbn [scored_frame rows]. rewrite for_each_fmap.
  rewrite (for_each_log (devices df) _
             (λ d, if decide (anomaly df (fitted c df) d = (-1)%Z)
                   then [Stdout (attention_line c df d)] else [])).
  - rewrite (concat_fmap_filter _ (λ d, Stdout (attention_line c df d))).
    by rewrite <- list_fmap_compose.
  - intros d s' Hd. cbn [compose]. apply report_row_scored.
    rewrite Forall_forall in Hstr. by apply Hstr.
Qed.

Lemma analyze_df_full_verbose dir c s :
  well_formed (caller_df (world s)) →
  0 < c ∧ c ≤ Q2Qc (1 # 2) →
  valid_X (features (caller_df (world s))) = true →
  Forall (λ d, is_str d = true) (devices (caller_df (world s))) →
  analyze_df_full false dir c true s =
    ({| world := world_after c (world s);
        trace := trace s ++ (Stdout <$> (attention_line c (caller_df (world s)) <$>
                                           flagged_devices c (caller_df (world s)))) |},
     Finished (list_to_set (flagged_devices c (caller_df (world s))))).
Proof.
  intros Hwf Hc HX Hstr. set (df := caller_df (world s)) in *.
  rewrite analyze_df_full_unfold. unfold mret, IO_ret. cbn beta iota.
  rewrite preprocess_ok by done. cbn [world trace]. fold df.
  rewrite feature_table_ok by done.
  rewrite (score_ok c _ df (fitted c df) (scaler df (fitted c df))).
  - cbn [caller_df fit_log]. rewrite report_wf by done.
    unfold log. cbn [world trace]. by rewrite anomalous_devices_scored.
  - by apply fit_valid.
  - apply features_nonempty_scaler. by apply valid_X_nonempty.
Qed.

(** X12. With [verbose] (and no plots), on a well-formed table that the
    forest accepts and whose device names are text, the call prints one
    line per device it returns and nothing else: the lines are those of
    the returned devices in the order in which the devices first occur in
    the table, each with the name of the device and its raw score, which
    is negative, to four decimals. *)
Theorem X12_one_line_per_anomaly dir c s :
  well_formed (caller_df (world s)) →
  0 < c ∧ c ≤ Q2Qc (1 # 2) →
  valid_X (features (caller_df (world s))) = true →
  Forall (λ d, is_str d = true) (devices (caller_df (world s))) →
  let df := caller_df (world s) in
  analyze_df_full false dir c true s =
    ({| world := world_after c (world s);
        trace := trace s ++
          (Stdout <$> (attention_line c df <$> flagged_devices c df)) |},
     Finished (list_to_set (flagged_devices c df))) ∧
  NoDup (flagged_devices c df) ∧
  (∀ d, d ∈ flagged_devices c df →
     d ∈ devices df ∧ raw_score df (fitted c df) d < 0 ∧
     attention_line c df d =
       "Attention: Device " +:+ py_str d +:+ " is an anomaly (score = " +:+
       format_float 4 (raw_score df (fitted c df) d) +:+ ") — needs investigation.").
Proof.
  intros Hwf Hc HX Hstr df. split; [by apply analyze_df_full_verbose|split].
  - apply NoDup_filter, NoDup_keep_first.
  - intros d Hd. unfold flagged_devices in Hd. apply list_elem_of_filter in Hd as [Ha Hd].
    split; [done|split; [|done]]. unfold anomaly in Ha. by apply label_anomalous.
Qed.

(** ** The figures of [create_plots] *)

(** The call with its options on a well-formed table whose device names
    are text, when the system refuses nothing. *)
Lemma analyze_df_full_wf create_plots dir c verbose names s :
  (∀ h e, os_refuses py h e = false) →
  well_formed (caller_df (world s)) →
  Forall (λ d, is_str d = true) (devices (caller_df (world s))) →
  sorted (devices (caller_df (world s))) = Ok names →
  let df := caller_df (world s) in
  let ok := bool_decide (0 < c ∧ c ≤ Q2Qc (1 # 2)) && valid_X (features df) in
  analyze_df_full create_plots dir c verbose s =
    ({| world := world_after c (world s);
        trace := trace s ++
          (if create_plots then Makedirs dir :: concat (device_figure dir df <$> names)
           else []) ++
          (if verbose && ok
           then Stdout <$> (attention_line c df <$> flagged_devices c df) else []) |},
     if ok then Finished (anomalous_set df (fitted c df)) else Failed (Python ValueError)).
Proof.
  intros Hos Hwf Hstr Hsorted df ok.
  rewrite analyze_df_full_unfold.
  assert ((if create_plots then os_call (Makedirs dir) else mret tt) s =
          (log (if create_plots then [Makedirs dir] else []) s, Finished tt)) as ->.
  { destruct create_plots.
    - unfold os_call. by rewrite Hos.
    - unfold mret, IO_ret. by rewrite log_nil. }
  unfold log at 1 2. cbn [world trace]. rewrite preprocess_ok by done. fold df.
  cbn [world trace].
  assert (∀ s', (if create_plots then plots dir (data_no_proc df) else mret tt) s' =
            (log (if create_plots then concat (device_figure dir df <$> names) else []) s',
             Finished tt)) as ->.
  { intros s'. destruct create_plots.
    - by apply plots_wf.
    - unfold mret, IO_ret. by rewrite log_nil. }
  unfold log at 1 2 3. cbn [world trace].
  rewrite feature_table_ok by done.
  pose proof (fit_outcome c df) as Hfit. fold ok in Hfit.
  assert (trace s ++ (if create_plots then [Makedirs dir] else []) ++
            (if create_plots then concat (device_figure dir df <$> names) else []) =
          trace s ++ (if create_plots
                      then Makedirs dir :: concat (device_figure dir df <$> names)
                      else [])) as Htr by (by destruct create_plots).
  rewrite <- (assoc_L (++)), Htr.
  destruct ok eqn:Hok.
  - apply andb_prop in Hok as [_ HX].
    rewrite (score_ok c _ df (fitted c df) (scaler df (fitted c df)) Hfit)
      by (apply features_nonempty_scaler; by apply valid_X_nonempty).
    cbn [caller_df fit_log]. rewrite anomalous_devices_scored. cbn [of_result].
    destruct verbose; cbn [andb].
    + rewrite report_wf by done. unfold log. cbn [world trace].
      by rewrite <- (assoc_L (++)).
    + unfold mret, IO_ret. by rewrite app_nil_r.
  - rewrite (score_err c _ df ValueError Hfit). cbn [caller_df fit_log].
    rewrite andb_false_r. by rewrite app_nil_r.
Qed.

Lemma elem_of_concat {A} (x : A) (L : list (list A)) :
  x ∈ concat L ↔ ∃ l, x ∈ l ∧ l ∈ L.
Proof.
  induction L as [|l L IH]; cbn [concat].
  - split; [by intros ?%elem_of_nil|]. by intros (l & _ & ?%elem_of_nil).
  - rewrite elem_of_app, IH. split.
    + intros [Hx|(l' & Hx & Hl')]; [exists l; split; [done|by left]|].
      exists l'. split; [done|by right].
    + intros (l' & Hx & Hl'). apply elem_of_cons in Hl' as [->|Hl']; [by left|].
      right. by exists l'.
Qed.

Lemma concat_Forall {A} (P : A → Prop) (L : list (list A)) :
  Forall (Forall P) L → Forall P (concat L).
Proof.
  induction 1 as [|l L Hl _ IH]; [constructor|]. cbn [concat]. by apply Forall_app.
Qed.

Lemma saved_files_app evs evs' :
  saved_files (evs ++ evs') = saved_files evs ++ saved_files evs'.
Proof. apply omap_app. Qed.

Lemma printed_app evs evs' : printed (evs ++ evs') = printed evs ++ printed evs'.
Proof. apply omap_app. Qed.

Lemma saved_files_concat (L : list (list event)) :
  saved_files (concat L) = concat (saved_files <$> L).
Proof.
  induction L as [|l L IH]; [done|].
  cbn [concat fmap list_fmap]. by rewrite saved_files_app, IH.
Qed.

Lemma saved_files_stdout (l : list string) : saved_files (Stdout <$> l) = [].
Proof. by induction l. Qed.

(** The lines of the change points are vertical lines. *)
Lemma change_point_lines_axvline first n cps :
  Forall (λ c, ∃ x label, c = plt_axvline x "blue" "--" (Q2Qc (6 # 10)) label)
    (change_point_lines first n cps).1.
Proof.
  induction cps as [|cp cps IH]; cbn [change_point_lines]; [constructor|].
  case_bool_decide; [|done]. case_bool_decide; [constructor|].
  destruct (change_point_lines first n cps) as [ls e]. cbn [fst] in *.
  constructor; [by eexists _, _|done].
Qed.

Lemma try_block_axvline signal n :
  Forall (λ c, ∃ x label, c = plt_axvline x "blue" "--" (Q2Qc (6 # 10)) label)
    (try_block signal n).1.
Proof.
  unfold try_block. destruct (pelt_predict py "l2" signal 1000); [|constructor].
  apply change_point_lines_axvline.
Qed.

Lemma axvlines_silent (l : list plt_call) :
  Forall (λ c, ∃ x label, c = plt_axvline x "blue" "--" (Q2Qc (6 # 10)) label) l →
  saved_files (Pyplot <$> l) = [] ∧ printed (Pyplot <$> l) = [].
Proof.
  induction 1 as [|c l (x & lb & ->) _ [IH1 IH2]]; [done|].
  split; [apply IH1|apply IH2].
Qed.

Lemma saved_files_device_figure dir df d :
  saved_files (device_figure dir df d) =
    if decide ((device_change_points df d).2 = None) then [statistics_file dir d] else [].
Proof.
  unfold device_figure.
  destruct (axvlines_silent (device_change_points df d).1) as [Hs _];
    [apply try_block_axvline|].
  rewrite saved_files_app.
  change (saved_files (Pyplot <$> plt_figure 10 6 :: device_curve df d ++
                                  (device_change_points df d).1))
    with (saved_files (Pyplot <$> (device_change_points df d).1)).
  rewrite Hs. by destruct ((device_change_points df d).2) as [[t m]|].
Qed.

Lemma printed_device_figure dir df d :
  printed (device_figure dir df d) =
    match (device_change_points df d).2 with
    | Some (t, m) =>
        ["Skipping ruptures plot for " +:+ py_str d +:+ ": " +:+ t +:+ " - " +:+ m]
    | None => []
    end.
Proof.
  unfold device_figure.
  destruct (axvlines_silent (device_change_points df d).1) as [_ Hp];
    [apply try_block_axvline|].
  rewrite printed_app.
  change (printed (Pyplot <$> plt_figure 10 6 :: device_curve df d ++
                              (device_change_points df d).1))
    with (printed (Pyplot <$> (device_change_points df d).1)).
  rewrite Hp. by destruct ((device_change_points df d).2) as [[t m]|].
Qed.

Lemma saved_files_figures dir df names :
  saved_files (concat (device_figure dir df <$> names)) =
    statistics_file dir <$>
      filter (λ d, (device_change_points df d).2 = None) names.
Proof.
  rewrite saved_files_concat, <- list_fmap_compose.
  rewrite <- (concat_fmap_filter _ (statistics_file dir)). f_equal.
  apply list_fmap_ext. intros _ d _. apply saved_files_device_figure.
Qed.

Lemma no_makedirs_device_figure dir df d :
  Forall (λ e, ∀ p, e ≠ Makedirs p) (device_figure dir df d).
Proof.
  unfold device_figure. apply Forall_app. split.
  - apply Forall_fmap, Forall_true. by intros c p.
  - destruct ((device_change_points df d).2) as [[t m]|].
    + by repeat constructor.
    + apply Forall_fmap, Forall_true. by intros c p.
Qed.

Lemma plots_files create_plots dir c verbose s :
  (∀ h e, os_refuses py h e = false) →
  well_formed (caller_df (world s)) →
  Forall (λ d, is_str d = true) (devices (caller_df (world s))) →
  let df := caller_df (world s) in
  ∃ names evs,
    sorted (devices df) = Ok names ∧ names ≡ₚ devices df ∧
    trace (analyze_df_full create_plots dir c verbose s).1 =
      trace s ++ (if create_plots then Makedirs dir :: evs else evs) ∧
    (create_plots = true →
       saved_files evs =
         statistics_file dir <$>
           filter (λ d, (device_change_points df d).2 = None) names ∧
       (∀ d t m, d ∈ names → (device_change_points df d).2 = Some (t, m) →
          ("Skipping ruptures plot for " +:+ py_str d +:+ ": " +:+ t +:+ " - " +:+ m)
            ∈ printed evs) ∧
       (∀ d, d ∈ names → device_figure dir df d ⊆ evs)) ∧
    (create_plots = false → saved_files evs = []) ∧
    Forall (λ e, ∀ p, e ≠ Makedirs p) evs.
Proof.
  intros Hos Hwf Hstr df.
  destruct (sorted_strings _ Hstr) as (names & Hsorted & Hperm). fold df in Hsorted, Hperm.
  rewrite (analyze_df_full_wf create_plots dir c verbose names s Hos Hwf Hstr Hsorted).
  cbn [fst trace]. fold df.
  set (lines := if verbose && _ then _ else _).
  assert (saved_files lines = [] ∧ Forall (λ e, ∀ p, e ≠ Makedirs p) lines) as [Hl1 Hl2].
  { subst lines. destruct (verbose && _); [|done].
    split; [apply saved_files_stdout|]. apply Forall_fmap, Forall_true. by intros l p. }
  exists names, ((if create_plots then concat (device_figure dir df <$> names) else [])
                 ++ lines).
  split; [done|split; [done|split; [by destruct create_plots|split; [|split]]]].
  - intros ->. split; [|split].
    + by rewrite saved_files_app, Hl1, app_nil_r, saved_files_figures.
    + intros d t m Hd Hcaught. rewrite printed_app, elem_of_app. left.
      unfold printed. rewrite list_elem_of_omap.
      exists (Stdout ("Skipping ruptures plot for " +:+ py_str d +:+ ": " +:+ t
                      +:+ " - " +:+ m)).
      split; [|done]. apply elem_of_concat. exists (device_figure dir df d).
      split; [|apply list_elem_of_fmap; by exists d].
      unfold device_figure. rewrite Hcaught, elem_of_app. right. by left.
    + intros d Hd e He. rewrite elem_of_app. left.
      apply elem_of_concat. exists (device_figure dir df d).
      split; [done|]. apply list_elem_of_fmap. by exists d.
  - intros ->. by rewrite app_nil_l.
  - apply Forall_app. split; [|done]. destruct create_plots; [|done].
    apply concat_Forall, Forall_fmap, Forall_true. intros d.
    apply no_makedirs_device_figure.
Qed.

(** X13. With [create_plots], on a well-formed table whose device names
    are text and when the system refuses no file operation, the call first
    creates [output_dir], then handles the devices by increasing name: it
    saves one file per device for which the change
    point detection raised nothing, named
    [os.path.join(output_dir, name + "_statistics.png")], in that order, and
    for every other device it saves no file and prints the line that says
    the plot is skipped; it creates no other directory. *)
Theorem X13_one_file_per_device dir c verbose s :
  (∀ h e, os_refuses py h e = false) →
  well_formed (caller_df (world s)) →
  Forall (λ d, is_str d = true) (devices (caller_df (world s))) →
  let df := caller_df (world s) in
  ∃ names evs,
    sorted (devices df) = Ok names ∧ names ≡ₚ devices df ∧
    StronglySorted (λ a b, py_lt a b = Ok true) names ∧
    trace (analyze_df_full true dir c verbose s).1 = trace s ++ Makedirs dir :: evs ∧
    saved_files evs =
      (λ d, path_join dir (py_str d +:+ "_statistics.png")) <$>
        filter (λ d, (device_change_points df d).2 = None) names ∧
    (∀ d t m, d ∈ names → (device_change_points df d).2 = Some (t, m) →
       ("Skipping ruptures plot for " +:+ py_str d +:+ ": " +:+ t +:+ " - " +:+ m)
         ∈ printed evs) ∧
    Forall (λ e, ∀ p, e ≠ Makedirs p) evs.
Proof.
  intros Hos Hwf Hstr df.
  destruct (plots_files true dir c verbose s Hos Hwf Hstr)
    as (names & evs & H1 & H2 & H3 & H4 & _ & H6).
  destruct (H4 eq_refl) as (H4a & H4b & _).
  exists names, evs. split; [done|split; [done|split; [|done]]].
  apply (sorted_strongly (devices (caller_df (world s)))); [done| |done].
  apply NoDup_keep_first.
Qed.


(** ** Device names that cannot be sorted *)

Lemma py_lt_cases x y : (∃ b, py_lt x y = Ok b) ∨ py_lt x y = Err TypeError.
Proof. destruct x, y; cbn; eauto. Qed.

Lemma py_lt_mixed x y : is_str x ≠ is_str y → py_lt x y = Err TypeError.
Proof. by destruct x, y. Qed.

Lemma insert_sorted_cases x l :
  (∃ l', insert_sorted x l = Ok l' ∧ l' ≡ₚ x :: l) ∨ insert_sorted x l = Err TypeError.
Proof.
  induction l as [|y l IH]; [left; by exists [x]|].
  cbn [insert_sorted]. destruct (py_lt_cases y x) as [[b ->]| ->]; [|by right].
  cbn [mbind Result_bind]. destruct b; [|left; by eexists].
  destruct IH as [(l' & -> & Hl')| ->]; [|by right].
  left. exists (y :: l'). split; [done|]. rewrite Hl'. apply Permutation_swap.
Qed.

Lemma sorted_cases l :
  (∃ s, sorted l = Ok s ∧ s ≡ₚ l) ∨ sorted l = Err TypeError.
Proof.
  induction l as [|x l IH]; [left; by exists []|].
  cbn [sorted]. destruct IH as [(s & -> & Hs)| ->]; [|by right].
  cbn [mbind Result_bind].
  destruct (insert_sorted_cases x s) as [(l' & -> & Hl')| ->]; [|by right].
  left. exists l'. split; [done|]. by rewrite Hl', Hs.
Qed.

(** A list that [sorted] accepts holds text only, or no text. *)
Lemma sorted_Ok_uniform l s :
  sorted l = Ok s → ∀ a b, a ∈ l → b ∈ l → is_str a = is_str b.
Proof.
  revert s. induction l as [|x l IH]; intros s Hs a b Ha Hb;
    [by apply elem_of_nil in Ha|].
  cbn [sorted] in Hs.
  destruct (sorted_cases l) as [(s' & Hs' & Hperm)|Herr]; [|by rewrite Herr in Hs].
  rewrite Hs' in Hs. cbn [mbind Result_bind] in Hs.
  assert (∀ y, y ∈ l → is_str y = is_str x) as Hx.
  { intros y Hy. destruct s' as [|y0 s'].
    { rewrite <- Hperm in Hy. by apply elem_of_nil in Hy. }
    cbn [insert_sorted] in Hs.
    destruct (decide (is_str y0 = is_str x)) as [E|E].
    - rewrite <- E. apply (IH _ Hs'); [done|]. rewrite <- Hperm. by left.
    - by rewrite (py_lt_mixed y0 x E) in Hs. }
  apply elem_of_cons in Ha as [->|Ha], Hb as [->|Hb].
  - done.
  - symmetry. by apply Hx.
  - by apply Hx.
  - by apply (IH _ Hs').
Qed.

Lemma sorted_mixed l a b :
  a ∈ l → b ∈ l → is_str a = true → is_str b = false → sorted l = Err TypeError.
Proof.
  intros Ha Hb Hsa Hsb. destruct (sorted_cases l) as [(s & Hs & _)|Herr]; [|done].
  pose proof (sorted_Ok_uniform l s Hs a b Ha Hb) as E. congruence.
Qed.

Lemma analyze_df_full_mixed_names dir c verbose s a b :
  os_refuses py (trace s) (Makedirs dir) = false →
  well_formed (caller_df (world s)) →
  a ∈ devices (caller_df (world s)) → b ∈ devices (caller_df (world s)) →
  is_str a = true → is_str b = false →
  analyze_df_full true dir c verbose s =
    ({| world := {| caller_df := enriched (caller_df (world s));
                    fit_log := fit_log (world s) |};
        trace := trace s ++ [Makedirs dir] |},
     Failed (Python TypeError)).
Proof.
  intros Hos Hwf Ha Hb Hsa Hsb. set (df := caller_df (world s)) in *.
  rewrite analyze_df_full_unfold. unfold os_call. rewrite Hos. unfold emit, log.
  cbn [world trace]. rewrite preprocess_ok by done. fold df.
  unfold plots. rewrite IO_bind_unfold. unfold pure at 1.
  pose proof (getitem_device_data_no_proc df Hwf) as Hget.
  destruct (getitem "device" (data_no_proc df)) as [col|]; [|done].
  cbn [fmap Result_fmap] in Hget. injection Hget as Hget. cbn [of_result].
  rewrite IO_bind_unfold. unfold pure at 1.
  by rewrite Hget, (sorted_mixed _ a b Ha Hb Hsa Hsb).
Qed.

(** X15. With [create_plots], a well-formed table in which one device
    name is text and another is not cannot be plotted: once the directory
    is created, sorting the names raises [TypeError].  The call fails with
    it after lines 31-32 have written to the caller's table and before the
    forest is fitted, although the same table is analysed without the
    option. *)
Theorem X15_mixed_names_cannot_be_plotted dir c verbose s a b :
  os_refuses py (trace s) (Makedirs dir) = false →
  well_formed (caller_df (world s)) →
  a ∈ devices (caller_df (world s)) → b ∈ devices (caller_df (world s)) →
  is_str a = true → is_str b = false →
  analyze_df_full true dir c verbose s =
    ({| world := {| caller_df := enriched (caller_df (world s));
                    fit_log := fit_log (world s) |};
        trace := trace s ++ [Makedirs dir] |},
     Failed (Python TypeError)) ∧
  fit_log (analyze_df c (world s)).1 =
    fit_log (world s) ++ [(c, 42%Z, features (caller_df (world s)))].
Proof.
  intros Hos Hwf Ha Hb Hsa Hsb.
  split; [by apply (analyze_df_full_mixed_names dir c verbose s a b)|].
  by rewrite analyze_df_outcome.
Qed.

(** ** Refusals of the operating system *)

Lemma for_each_no_OSError {A} (l : list A) (body : A → IO unit) :
  (∀ x s, (body x s).2 ≠ Failed OSError) →
  ∀ s, (for_each l body s).2 ≠ Failed OSError.
Proof.
  intros Hb. induction l as [|x l IH]; intros s; [done|].
  cbn [for_each]. rewrite IO_bind_unfold. pose proof (Hb x s) as Hx.
  destruct (body x s) as [s' [[]|f]]; [apply IH|done].
Qed.

Lemma report_no_OSError T s : (report T s).2 ≠ Failed OSError.
Proof.
  apply for_each_no_OSError. intros r s'. unfold report_row.
  destruct (py_eq _ _); [|done]. rewrite IO_bind_unfold. unfold pure.
  by destruct (format_fixed 4 _).
Qed.

Lemma analyze_df_full_OSError create_plots dir c verbose s :
  (analyze_df_full create_plots dir c verbose s).2 = Failed OSError →
  create_plots = true ∧
  fit_log (world (analyze_df_full create_plots dir c verbose s).1) = fit_log (world s).
Proof.
  rewrite analyze_df_full_unfold.
  set (pre := if create_plots then os_call (Makedirs dir) else mret tt).
  assert (writes_only pre) as Hpre
    by (subst pre; destruct create_plots; [apply writes_only_os_call|apply writes_only_ret]).
  destruct (Hpre s) as [e0 H0].
  assert (create_plots = false → (pre s).2 = Finished tt) as Hquiet0
    by (by intros ->).
  destruct (pre s) as [s0 r0]. cbn [fst snd] in H0, Hquiet0. subst s0.
  unfold log. cbn [world trace].
  destruct r0 as [[]|f].
  2:{ cbn [snd fst world]. intros _. split; [|done].
      destruct create_plots; [done|]. by specialize (Hquiet0 eq_refl). }
  pose proof (no_fit_preprocess (world s)) as Hlog.
  destruct (preprocess (world s)) as [w1 [D|e]]; [|done]. cbn [fst] in Hlog.
  set (mid := if create_plots then plots dir D else mret tt).
  assert (writes_only mid) as Hmid
    by (subst mid; destruct create_plots; [apply writes_only_plots|apply writes_only_ret]).
  destruct (Hmid {| world := w1; trace := trace s ++ e0 |}) as [e2 H2].
  assert (create_plots = false →
          (mid {| world := w1; trace := trace s ++ e0 |}).2 = Finished tt) as Hquiet2
    by (by intros ->).
  destruct (mid _) as [s2 r2]. cbn [fst snd] in H2, Hquiet2. subst s2.
  unfold log. cbn [world trace].
  destruct r2 as [[]|f].
  2:{ cbn [snd fst world]. intros _. split; [|done].
      destruct create_plots; [done|]. by specialize (Hquiet2 eq_refl). }
  destruct (feature_table D) as [F|e]; [|done].
  destruct (score c F w1) as [w3 [T|e]]; [|done].
  set (post := if verbose then report T else mret tt).
  assert (∀ s', (post s').2 ≠ Failed OSError) as Hpost
    by (intros s'; subst post; destruct verbose; [apply report_no_OSError|done]).
  specialize (Hpost {| world := w3; trace := (trace s ++ e0) ++ e2 |}).
  destruct (post _) as [s4 [[]|f]]; cbn [snd] in *.
  - by destruct (anomalous_devices T).
  - by intros [= ->].
Qed.

(** X16. The operating system makes the call fail only with
    [create_plots], and then before the forest is fitted: a call that
    fails with [OSError] has plots on and has not called [fit].  When it
    is the directory that cannot be created the call stops at once:
    nothing is written, the caller's table included. *)
Theorem X16_os_errors_come_first create_plots dir c verbose s :
  ((analyze_df_full create_plots dir c verbose s).2 = Failed OSError →
     create_plots = true ∧
     fit_log (world (analyze_df_full create_plots dir c verbose s).1) =
       fit_log (world s)) ∧
  (create_plots = true → os_refuses py (trace s) (Makedirs dir) = true →
     analyze_df_full create_plots dir c verbose s = (s, Failed OSError)).
Proof.
  split; [apply analyze_df_full_OSError|].
  intros -> Hos. rewrite analyze_df_full_unfold. unfold os_call. by rewrite Hos.
Qed.

(** ** The columns written to the caller's table *)



(** ** Where the files go *)

Lemma prefix_append a b : String.prefix a (a +:+ b) = true.
Proof.
  induction a as [|x a IH]; [by destruct b|].
  simpl. by destruct (Ascii.ascii_dec x x).
Qed.

Lemma prefix_slash_append name suffix :
  String.prefix "/" suffix = false →
  String.prefix "/" (name +:+ suffix) = String.prefix "/" name.
Proof.
  intros Hs. destruct name as [|x name]; [done|].
  change (String x name +:+ suffix) with (String x (name +:+ suffix)).
  cbn [String.prefix].
  match goal with |- context [Ascii.ascii_dec ?a ?b] =>
    destruct (Ascii.ascii_dec a b) end; [|done].
  destruct (name +:+ suffix); by destruct name.
Qed.

Lemma path_join_cases a b :
  (String.prefix "/" b = true ∧ path_join a b = b) ∨
  (String.prefix "/" b = false ∧
   (path_join a b = a +:+ b ∨ path_join a b = a +:+ "/" +:+ b)).
Proof.
  unfold path_join. destruct (String.prefix "/" b); [by left|right].
  split; [done|]. destruct (_ || _); [by left|by right].
Qed.

Lemma statistics_file_cases dir name :
  if String.prefix "/" name
  then statistics_file dir (VStr name) = name +:+ "_statistics.png"
  else String.prefix dir (statistics_file dir (VStr name)) = true ∧
       (statistics_file dir (VStr name) = dir +:+ name +:+ "_statistics.png" ∨
        statistics_file dir (VStr name) = dir +:+ "/" +:+ name +:+ "_statistics.png").
Proof.
  unfold statistics_file. cbn [py_str].
  pose proof (prefix_slash_append name "_statistics.png" eq_refl) as Hp.
  destruct (path_join_cases dir (name +:+ "_statistics.png")) as [[H1 H2]|[H1 H2]];
    rewrite Hp in H1; rewrite H1.
  - done.
  - destruct H2 as [-> | ->]; (split; [apply prefix_append|]); [by left|by right].
Qed.

(** X18. The files of [create_plots] are named after the devices: under
    the conditions of X13 every file saved is the file of a device of the
    table.  Its name starts with [output_dir] when the name of the device
    does not start with a slash; a device whose name starts with a slash
    has its file saved at that absolute path, outside [output_dir], because
    [os.path.join] drops what precedes an absolute component. *)
Theorem X18_files_named_after_devices dir c verbose s :
  (∀ h e, os_refuses py h e = false) →
  well_formed (caller_df (world s)) →
  Forall (λ d, is_str d = true) (devices (caller_df (world s))) →
  ∃ evs,
    trace (analyze_df_full true dir c verbose s).1 = trace s ++ Makedirs dir :: evs ∧
    ∀ f, f ∈ saved_files evs →
      ∃ name, VStr name ∈ devices (caller_df (world s)) ∧
        f = path_join dir (name +:+ "_statistics.png") ∧
        if String.prefix "/" name
        then f = name +:+ "_statistics.png"
        else String.prefix dir f = true ∧
             (f = dir +:+ name +:+ "_statistics.png" ∨
              f = dir +:+ "/" +:+ name +:+ "_statistics.png").
Proof.
  intros Hos Hwf Hstr.
  destruct (plots_files true dir c verbose s Hos Hwf Hstr)
    as (names & evs & H1 & H2 & H3 & H4 & _ & _).
  destruct (H4 eq_refl) as (Hsaved & _ & _).
  exists evs. split; [done|]. intros f Hf. rewrite Hsaved in Hf.
  apply list_elem_of_fmap in Hf as (d & -> & Hd).
  apply list_elem_of_filter in Hd as [_ Hd]. rewrite H2 in Hd.
  rewrite Forall_forall in Hstr. pose proof (Hstr d Hd) as Hsd.
  destruct d as [name| | |]; try done.
  exists name. split; [done|split; [done|]]. apply statistics_file_cases.
Qed.

(** ** Devices named by integers *)

Lemma numeric_frame_scored df m sc :
  Forall (λ d, is_int d = true) (devices df) →
  numeric_frame (scored_frame df m sc) = true.
Proof.
  intros Hint. unfold numeric_frame. cbn [scored_frame rows columns].
  apply forallb_forall. intros r Hr. apply list_elem_of_In, list_elem_of_fmap in Hr
    as (d & -> & Hd).
  rewrite Forall_forall in Hint. specialize (Hint d Hd).
  unfold feature_columns. cbn [app forallb].
  rewrite cell_scored_row_device, cell_scored_row_mean, cell_scored_row_std,
    cell_scored_row_anomaly, cell_scored_row_score, cell_scored_row_normalized.
  unfold mean_difference_count, std_difference_count.
  destruct d; try done. by case_decide.
Qed.

Lemma float_frame_scored df m sc :
  devices df ≠ [] → float_frame (scored_frame df m sc) = true.
Proof.
  intros Hne. unfold float_frame. cbn [scored_frame rows columns].
  destruct (devices df) as [|d ds]; [done|].
  cbn [fmap list_fmap existsb]. apply orb_true_intro. left.
  unfold feature_columns. cbn [app existsb].
  by rewrite cell_scored_row_mean, orb_true_r.
Qed.

Lemma iterrows_integers df m sc :
  Forall (λ d, is_int d = true) (devices df) →
  iterrows (scored_frame df m sc) =
    (λ r : Row, as_float <$> r) <$> rows (scored_frame df m sc).
Proof.
  intros Hint. unfold iterrows. rewrite numeric_frame_scored by done. cbn [andb].
  destruct (decide (devices df = [])) as [E|E].
  - cbn [scored_frame rows]. rewrite E. by destruct (float_frame _).
  - by rewrite float_frame_scored.
Qed.

Lemma report_row_integer c df sc z s :
  report_row (as_float <$> scored_row df (fitted c df) sc (VInt z)) s =
    (log (if decide (anomaly df (fitted c df) (VInt z) = (-1)%Z)
          then [Stdout (attention (float_repr py (Qc_of_Z z))
                          (format_float 4 (raw_score df (fitted c df) (VInt z))))]
          else []) s, Finished tt).
Proof.
  unfold report_row. rewrite !cell_as_float.
  rewrite cell_scored_row_anomaly, cell_scored_row_score, cell_scored_row_device.
  cbn [as_float py_eq py_str]. case_bool_decide as Ha.
  - apply Z2Qc_inj in Ha. rewrite decide_True by done.
    rewrite IO_bind_unfold. unfold pure. cbn. done.
  - rewrite decide_False by (intros E; apply Ha; by rewrite E).
    unfold mret, IO_ret. by rewrite log_nil.
Qed.

Lemma report_integers c df sc s :
  Forall (λ d, is_int d = true) (devices df) →
  report (scored_frame df (fitted c df) sc) s =
    (log (Stdout <$>
            ((λ d, attention (float_repr py (Qc_of_Z (int_of d)))
                     (format_float 4 (raw_score df (fitted c df) d))) <$>
             flagged_devices c df)) s, Finished tt).
Proof.
  intros Hint. unfold report. rewrite iterrows_integers by done.
  cbn [scored_frame rows]. rewrite !for_each_fmap.
  rewrite (for_each_log (devices df) _
             (λ d, if decide (anomaly df (fitted c df) d = (-1)%Z)
                   then [Stdout (attention (float_repr py (Qc_of_Z (int_of d)))
                                   (format_float 4 (raw_score df (fitted c df) d)))]
                   else [])).
  - rewrite (concat_fmap_filter _
               (λ d, Stdout (attention (float_repr py (Qc_of_Z (int_of d)))
                               (format_float 4 (raw_score df (fitted c df) d))))).
    by rewrite <- list_fmap_compose.
  - intros d s' Hd. cbn [compose]. rewrite Forall_forall in Hint.
    pose proof (Hint d Hd) as Hi. destruct d as [|z| |]; try done.
    apply report_row_integer.
Qed.

(** X19. With [verbose], a table whose device names are integers has them
    printed as floats: no column of the scored table holds text, so
    [iterrows] yields rows of floats, and the line of a returned device
    [z] names it by the text of the float [z] (as in [5.0]), not of the
    integer.  The devices returned are the same. *)
Theorem X19_integer_names_print_as_floats dir c s :
  well_formed (caller_df (world s)) →
  0 < c ∧ c ≤ Q2Qc (1 # 2) →
  valid_X (features (caller_df (world s))) = true →
  Forall (λ d, is_int d = true) (devices (caller_df (world s))) →
  let df := caller_df (world s) in
  analyze_df_full false dir c true s =
    ({| world := world_after c (world s);
        trace := trace s ++
          (Stdout <$>
             ((λ d, "Attention: Device " +:+ float_repr py (Qc_of_Z (int_of d)) +:+
                    " is an anomaly (score = " +:+
                    format_float 4 (raw_score df (fitted c df) d) +:+
                    ") — needs investigation.") <$> flagged_devices c df)) |},
     Finished (list_to_set (flagged_devices c df))).
Proof.
  intros Hwf Hc HX Hint df.
  rewrite analyze_df_full_unfold. unfold mret, IO_ret. cbn beta iota.
  rewrite preprocess_ok by done. cbn [world trace]. fold df.
  rewrite feature_table_ok by done.
  rewrite (score_ok c _ df (fitted c df) (scaler df (fitted c df))).
  - cbn [caller_df fit_log]. rewrite report_integers by done.
    unfold log. cbn [world trace]. by rewrite anomalous_devices_scored.
  - by apply fit_valid.
  - apply features_nonempty_scaler. by apply valid_X_nonempty.
Qed.

End Libraries.

(** * Witnesses and counterexamples on the sample tables *)

Lemma df_fleet_well_formed : well_formed df_fleet.
Proof. compute_done. Qed.

Lemma df_single_well_formed : well_formed df_single.
Proof. compute_done. Qed.

Lemma df_varying_well_formed : well_formed df_varying.
Proof. compute_done. Qed.

Lemma df_one_well_formed : well_formed df_one.
Proof. compute_done. Qed.

Lemma df_ten_well_formed : well_formed df_ten.
Proof. compute_done. Qed.

Lemma default_percentage_valid :
  (0 < default_percentage ∧ default_percentage ≤ Q2Qc (1 # 2))%Qc.
Proof. compute_done. Qed.

(** The sample table [df_fleet] under the sample libraries: device [C]
    is returned. *)
Example analyze_df_fleet :
  (analyze_df rational_sqrt true sample_score default_percentage
     (fresh_world df_fleet)).2 = Ok {[VStr "C"]}.
Proof. compute_done. Qed.

(** C1: the theorem at [df_fleet]. *)
Lemma C1_witness :
  well_formed df_fleet ∧
  valid_X true (features rational_sqrt df_fleet) = true ∧
  ∃ T S,
    scored_table rational_sqrt true sample_score default_percentage
      (fresh_world df_fleet)
    = (world_after rational_sqrt default_percentage (fresh_world df_fleet), Ok T) ∧
    analyze_df rational_sqrt true sample_score default_percentage
      (fresh_world df_fleet)
    = (world_after rational_sqrt default_percentage (fresh_world df_fleet), Ok S) ∧
    cell "device" <$> rows T = devices df_fleet ∧
    cell "anomaly" <$> rows T =
      VInt <$> predict sample_score
                 (fitted rational_sqrt sample_score default_percentage df_fleet)
                 (features rational_sqrt df_fleet) ∧
    ∀ d, d ∈ S ↔
      ∃ r, r ∈ rows T ∧ cell "device" r = d ∧ cell "anomaly" r = VInt (-1).
Proof.
  split; [compute_done|]. split; [by vm_compute|].
  apply (C1_returns_the_anomalous_devices rational_sqrt true sample_score
           default_percentage (fresh_world df_fleet)).
  - compute_done.
  - compute_done.
  - by vm_compute.
Defined.

(** C2 fails as stated: in [df_single] device [A] has exactly one scan,
    yet its vector, with the missing standard deviation, is in the matrix
    handed to [fit], whatever the libraries; and when the forest accepts
    missing values, [A] has a row in the scored table, labelled normal. *)
Lemma C2_counterexample :
  scans_of df_single (VStr "A") = [VInt 1] ∧
  for_all_libraries (λ sqrt' accepts_nan' score_samples',
    ∃ X, fit_log (analyze_df sqrt' accepts_nan' score_samples' default_percentage
                    (fresh_world df_single)).1
         = [(default_percentage, 42%Z, X)] ∧
         [VFloat 1; NaN] ∈ X) ∧
  ∃ T, (scored_table rational_sqrt true sample_score default_percentage
          (fresh_world df_single)).2 = Ok T ∧
       (VStr "A", NaN, VInt 1) ∈
         (λ r, (cell "device" r, cell "std_difference_count" r, cell "anomaly" r))
           <$> rows T.
Proof.
  split; [compute_done|split].
  - intros sqrt' accepts_nan' score_samples'.
    rewrite analyze_df_outcome by compute_done.
    eexists. split; [reflexivity|].
    apply list_elem_of_fmap. exists (VStr "A"). split; [|compute_done].
    unfold feature_vector. cbn [caller_df fresh_world].
    assert (mean_difference_count df_single (VStr "A") = VFloat 1) as ->
      by compute_done.
    assert (std_difference_count sqrt' df_single (VStr "A") = NaN) as ->
      by (by vm_compute).
    done.
  - rewrite scored_table_wf by compute_done.
    eexists. split; [by vm_compute|]. compute_done.
Qed.

(** C2, as amended: the theorem at device [A] of [df_single]. *)
Lemma C2_witness :
  well_formed df_single ∧ constant_reported df_single ∧
  VStr "A" ∈ devices df_single ∧ length (scans_of df_single (VStr "A")) = 1%nat ∧
  std_difference_count rational_sqrt df_single (VStr "A") = NaN ∧
  feature_vector rational_sqrt df_single (VStr "A") ∈ features rational_sqrt df_single.
Proof.
  do 4 (split; [compute_done|]).
  pose proof (C2_single_scan_device_is_scored rational_sqrt true sample_score
                default_percentage (fresh_world df_single) (VStr "A")) as H.
  destruct H as (H1 & H2 & _); [compute_done..|]. by split.
Defined.





(** C6 fails as stated: [df_one] has a single device, so fewer than two
    valid feature vectors, and [analyze_df] returns a set, the empty one,
    whatever the libraries. *)
Lemma C6_counterexample :
  devices df_one = [VStr "A"] ∧
  for_all_libraries (λ sqrt' accepts_nan' score_samples',
    (analyze_df sqrt' accepts_nan' score_samples' default_percentage
       (fresh_world df_one)).2 = Ok ∅).
Proof.
  split; [compute_done|]. intros sqrt' accepts_nan' score_samples'.
  apply (analyze_df_equal_features _ _ _ _ _
           (feature_vector sqrt' df_one (VStr "A"))).
  - compute_done.
  - compute_done.
  - by vm_compute.
  - assert (devices df_one = [VStr "A"]) as Hdev by compute_done.
    cbn [caller_df fresh_world]. rewrite Hdev. by repeat constructor.
Qed.

(** C6, as amended: the theorem at [df_one]. *)
Lemma C6_witness :
  well_formed df_one ∧
  (analyze_df rational_sqrt true sample_score default_percentage
     (fresh_world df_one)).2 = Ok ∅.
Proof.
  split; [compute_done|].
  destruct (C6_no_population_check rational_sqrt true sample_score
              default_percentage (fresh_world df_one)) as (_ & _ & H).
  - compute_done.
  - apply (H (VStr "A")); [compute_done|compute_done|by vm_compute].
Defined.




(** C9 fails as stated: with the contamination 2 on [df_fleet] the error
    is the [ValueError] of [fit], raised after the two columns were written
    to the caller's table and the features computed, whatever the libraries;
    and on a table without the index column the same contamination is never
    looked at: the error is the [KeyError] of line 36. *)
Lemma C9_counterexample :
  for_all_libraries (λ sqrt' accepts_nan' score_samples',
    analyze_df sqrt' accepts_nan' score_samples' (Qc_of_Z 2) (fresh_world df_fleet)
    = ({| caller_df := enriched df_fleet;
          fit_log := [(Qc_of_Z 2, 42%Z, features sqrt' df_fleet)] |},
       Err ValueError) ∧
    (analyze_df sqrt' accepts_nan' score_samples' (Qc_of_Z 2)
       (fresh_world df_documented)).2 = Err (KeyError ["Unnamed: 0"])) ∧
  columns (enriched df_fleet) = scan_columns ++ ["total_proc_count"; "difference_count"].
Proof.
  split; [|done]. intros sqrt' accepts_nan' score_samples'. split.
  - rewrite analyze_df_outcome by compute_done.
    by rewrite bool_decide_eq_false_2 by compute_done.
  - by rewrite analyze_df_documented by compute_done.
Qed.

(** C9, as amended: the theorem at the contamination 2 and [df_fleet]. *)
Lemma C9_witness :
  well_formed df_fleet ∧ ¬ (0 < Qc_of_Z 2 ∧ Qc_of_Z 2 ≤ Q2Qc (1 # 2))%Qc ∧
  analyze_df rational_sqrt true sample_score (Qc_of_Z 2) (fresh_world df_fleet)
  = ({| caller_df := enriched df_fleet;
        fit_log := [(Qc_of_Z 2, 42%Z, features rational_sqrt df_fleet)] |},
     Err ValueError).
Proof.
  do 2 (split; [compute_done|]).
  apply (C9_invalid_contamination rational_sqrt true sample_score (Qc_of_Z 2)
           (fresh_world df_fleet)); compute_done.
Defined.

(** C10: the theorem at [df_documented], the sample table without the
    index column. *)
Lemma C10_witness :
  ("Unnamed: 0" ∉ columns df_documented) ∧ documented df_documented ∧
  analyze_df rational_sqrt true sample_score default_percentage
    (fresh_world df_documented)
  = ({| caller_df := enriched df_documented; fit_log := [] |},
     Err (KeyError ["Unnamed: 0"])).
Proof.
  do 2 (split; [compute_done|]).
  destruct (C10_index_column_required rational_sqrt true sample_score
              default_percentage (fresh_world df_documented)) as [_ H].
  - compute_done.
  - apply H. compute_done.
Defined.

(** * The further properties on the sample tables *)

Lemma df_relabelled_well_formed : well_formed df_relabelled.
Proof. compute_done. Qed.

Lemma df_mixed_well_formed : well_formed df_mixed.
Proof. compute_done. Qed.

Lemma df_numbered_well_formed : well_formed df_numbered.
Proof. compute_done. Qed.

Lemma sample_runtime_refuses_nothing h e : os_refuses sample_runtime h e = false.
Proof. done. Qed.

(** The sample table [df_single] with both options: device [A], with its
    single scan, is skipped, and the figures of [B] and [C] are saved. *)
Example analyze_df_full_single :
  let s := (analyze_df_full rational_sqrt true sample_score sample_runtime true
              "Statistics" default_percentage true (fresh_machine df_single)).1 in
  saved_files (trace s) = ["Statistics/B_statistics.png"; "Statistics/C_statistics.png"] ∧
  printed (trace s) = ["Skipping ruptures plot for A: BadSegmentationParameters - "].
Proof. by vm_compute. Qed.

(** The sample table [df_fleet] with [verbose]. *)
Example analyze_df_full_fleet :
  printed (trace (analyze_df_full rational_sqrt true sample_score sample_runtime false
                    "Statistics" default_percentage true (fresh_machine df_fleet)).1) =
    ["Attention: Device C is an anomaly (score = -1.8000) — needs investigation."].
Proof. by vm_compute. Qed.

(** X2: [df_no_device] has no [device] column. *)
Lemma X2_witness :
  "device" ∈ ["procName"; "device"; "scan"] ∧ ("device" ∉ columns df_no_device) ∧
  ∃ miss,
    analyze_df rational_sqrt true sample_score default_percentage
      (fresh_world df_no_device) = (fresh_world df_no_device, Err (KeyError miss)) ∧
    miss ≠ [] ∧
    ∀ y, y ∈ miss → y ∈ ["procName"; "device"; "scan"] ∧ y ∉ columns df_no_device.
Proof.
  split; [compute_done|split; [compute_done|]].
  apply (X2_grouping_columns_required rational_sqrt true sample_score
           default_percentage (fresh_world df_no_device) "device"); compute_done.
Defined.

(** X3: the documented table [df_documented] lacks the index column. *)
Lemma X3_witness :
  "Unnamed: 0" ∈ scan_columns ∧ ("Unnamed: 0" ∉ columns df_documented) ∧
  ∃ e,
    (analyze_df rational_sqrt true sample_score default_percentage
       (fresh_world df_documented)).2 = Err e ∧
    fit_log (analyze_df rational_sqrt true sample_score default_percentage
               (fresh_world df_documented)).1 = [].
Proof.
  split; [compute_done|split; [compute_done|]].
  apply (X3_every_column_required rational_sqrt true sample_score
           default_percentage (fresh_world df_documented) "Unnamed: 0"); compute_done.
Defined.

(** X4: the second record of [df_text_count] reports ["n/a"]. *)
Lemma X4_witness :
  let r := <["scan_proc_count" := VStr "n/a"]> (scan_line 1 "A" 1 "sh" 1) in
  r ∈ rows df_text_count ∧ cell "scan_proc_count" r = VStr "n/a" ∧
  ∃ vals,
    groupby_transform ["device"; "scan"] "procName" agg_count df_text_count = Ok vals ∧
    analyze_df rational_sqrt true sample_score default_percentage
      (fresh_world df_text_count) =
      ({| caller_df := setitem "total_proc_count" vals df_text_count; fit_log := [] |},
       Err TypeError).
Proof.
  cbn zeta. split; [compute_done|split; [compute_done|]].
  apply (X4_text_in_reported_count rational_sqrt true sample_score default_percentage
           (fresh_world df_text_count)
           (<["scan_proc_count" := VStr "n/a"]> (scan_line 1 "A" 1 "sh" 1)) "n/a");
    compute_done.
Defined.


(** X6: [df_fleet] with contamination 0.15 and 0.3. *)
Lemma X6_witness :
  (default_percentage ≤ Q2Qc (3 # 10))%Qc ∧
  ∃ S S',
    (analyze_df rational_sqrt true sample_score default_percentage
       (fresh_world df_fleet)).2 = Ok S ∧
    (analyze_df rational_sqrt true sample_score (Q2Qc (3 # 10))
       (fresh_world df_fleet)).2 = Ok S' ∧
    S ⊆ S'.
Proof.
  split; [compute_done|].
  apply (X6_monotone_in_contamination rational_sqrt true sample_score
           default_percentage (Q2Qc (3 # 10)) (fresh_world df_fleet)).
  - compute_done.
  - compute_done.
  - compute_done.
  - compute_done.
  - by vm_compute.
Defined.

(** X7: the scored table of [df_fleet]. *)
Lemma X7_witness :
  well_formed df_fleet ∧
  ∃ T,
    scored_table rational_sqrt true sample_score default_percentage
      (fresh_world df_fleet) =
      (world_after rational_sqrt default_percentage (fresh_world df_fleet), Ok T) ∧
    (∀ r, r ∈ rows T →
       ∃ l a n, cell "anomaly" r = VInt l ∧ cell "anomaly_score" r = VFloat a ∧
                cell "score_normalized" r = VFloat n ∧
                (l = (-1)%Z ↔ (a < 0)%Qc) ∧ (l = 1%Z ↔ (0 ≤ a)%Qc)) ∧
    (∀ r r' a a' n n', r ∈ rows T → r' ∈ rows T →
       cell "anomaly_score" r = VFloat a → cell "anomaly_score" r' = VFloat a' →
       cell "score_normalized" r = VFloat n → cell "score_normalized" r' = VFloat n' →
       ((a ≤ a')%Qc ↔ (n' ≤ n)%Qc)).
Proof.
  split; [compute_done|].
  apply (X7_labels_and_scores_agree rational_sqrt true sample_score default_percentage
           (fresh_world df_fleet)).
  - compute_done.
  - compute_done.
  - by vm_compute.
Defined.

(** X8: a second call on [df_fleet]. *)
Lemma X8_witness :
  well_formed df_fleet ∧
  let again := analyze_df rational_sqrt true sample_score default_percentage in
  let w1 := (again (fresh_world df_fleet)).1 in
  (again w1).2 = (again (fresh_world df_fleet)).2 ∧
  (scored_table rational_sqrt true sample_score default_percentage w1).2 =
    (scored_table rational_sqrt true sample_score default_percentage
       (fresh_world df_fleet)).2 ∧
  caller_df (again w1).1 = caller_df w1.
Proof.
  split; [compute_done|].
  apply (X8_second_call_same_outcome rational_sqrt true sample_score
           default_percentage default_percentage (fresh_world df_fleet)).
  compute_done.
Defined.

(** X9: [df_fleet] and [df_relabelled] differ in the index, the process
    names and the timestamps only. *)
Lemma X9_witness :
  readings df_fleet = readings df_relabelled ∧ df_fleet ≠ df_relabelled ∧
  (analyze_df rational_sqrt true sample_score default_percentage
     (fresh_world df_fleet)).2 =
  (analyze_df rational_sqrt true sample_score default_percentage
     (fresh_world df_relabelled)).2 ∧
  (scored_table rational_sqrt true sample_score default_percentage
     (fresh_world df_fleet)).2 =
  (scored_table rational_sqrt true sample_score default_percentage
     (fresh_world df_relabelled)).2.
Proof.
  split; [compute_done|split; [compute_done|]].
  apply (X9_outcome_reads_three_columns rational_sqrt true sample_score
           default_percentage (fresh_world df_fleet) (fresh_world df_relabelled));
    compute_done.
Defined.

(** X12: the messages for [df_fleet]. *)
Lemma X12_witness :
  Forall (λ d, is_str d = true) (devices df_fleet) ∧
  let c := default_percentage in
  let m := fitted rational_sqrt sample_score c df_fleet in
  let flagged := flagged_devices rational_sqrt sample_score c df_fleet in
  let line := attention_line rational_sqrt sample_score sample_runtime c df_fleet in
  analyze_df_full rational_sqrt true sample_score sample_runtime false "Statistics" c
    true (fresh_machine df_fleet) =
    ({| world := world_after rational_sqrt c (fresh_world df_fleet);
        trace := [] ++ (Stdout <$> (line <$> flagged)) |},
     Finished (list_to_set flagged)) ∧
  NoDup flagged ∧
  (∀ d, d ∈ flagged →
     d ∈ devices df_fleet ∧ (raw_score rational_sqrt sample_score df_fleet m d < 0)%Qc ∧
     line d =
       "Attention: Device " +:+ py_str sample_runtime d +:+ " is an anomaly (score = " +:+
       format_float 4 (raw_score rational_sqrt sample_score df_fleet m d) +:+
       ") — needs investigation.").
Proof.
  split; [compute_done|].
  apply (X12_one_line_per_anomaly rational_sqrt true sample_score sample_runtime
           "Statistics" default_percentage (fresh_machine df_fleet)).
  - compute_done.
  - compute_done.
  - by vm_compute.
  - compute_done.
Defined.

(** X13: the files of [df_single]. *)
Lemma X13_witness :
  well_formed df_single ∧
  Forall (λ d, is_str d = true) (devices df_single) ∧
  ∃ names evs,
    sorted (devices df_single) = Ok names ∧ names ≡ₚ devices df_single ∧
    StronglySorted (λ a b, py_lt a b = Ok true) names ∧
    trace (analyze_df_full rational_sqrt true sample_score sample_runtime true
             "Statistics" default_percentage false (fresh_machine df_single)).1 =
      [] ++ Makedirs "Statistics" :: evs ∧
    saved_files evs =
      (λ d, path_join "Statistics" (py_str sample_runtime d +:+ "_statistics.png")) <$>
        filter (λ d, (device_change_points sample_runtime df_single d).2 = None) names ∧
    (∀ d t m, d ∈ names →
       (device_change_points sample_runtime df_single d).2 = Some (t, m) →
       ("Skipping ruptures plot for " +:+ py_str sample_runtime d +:+ ": " +:+ t +:+
        " - " +:+ m) ∈ printed evs) ∧
    Forall (λ e, ∀ p, e ≠ Makedirs p) evs.
Proof.
  split; [compute_done|split; [compute_done|]].
  apply (X13_one_file_per_device rational_sqrt true sample_score sample_runtime
           "Statistics" default_percentage false (fresh_machine df_single)).
  - apply sample_runtime_refuses_nothing.
  - compute_done.
  - compute_done.
Defined.


(** X15: [df_mixed] names one device ["A"] and another [7]. *)
Lemma X15_witness :
  VStr "A" ∈ devices df_mixed ∧ VInt 7 ∈ devices df_mixed ∧
  analyze_df_full rational_sqrt true sample_score sample_runtime true "Statistics"
    default_percentage false (fresh_machine df_mixed) =
    ({| world := {| caller_df := enriched df_mixed; fit_log := [] |};
        trace := [] ++ [Makedirs "Statistics"] |},
     Failed (Python TypeError)) ∧
  fit_log (analyze_df rational_sqrt true sample_score default_percentage
             (fresh_world df_mixed)).1 =
    [] ++ [(default_percentage, 42%Z, features rational_sqrt df_mixed)].
Proof.
  split; [compute_done|split; [compute_done|]].
  apply (X15_mixed_names_cannot_be_plotted rational_sqrt true sample_score
           sample_runtime "Statistics" default_percentage false (fresh_machine df_mixed)
           (VStr "A") (VInt 7)); compute_done.
Defined.


(** X18: the names of the files of [df_single]. *)
Lemma X18_witness :
  well_formed df_single ∧
  ∃ evs,
    trace (analyze_df_full rational_sqrt true sample_score sample_runtime true
             "Statistics" default_percentage false (fresh_machine df_single)).1 =
      [] ++ Makedirs "Statistics" :: evs ∧
    ∀ f, f ∈ saved_files evs →
      ∃ name, VStr name ∈ devices df_single ∧
        f = path_join "Statistics" (name +:+ "_statistics.png") ∧
        if String.prefix "/" name
        then f = name +:+ "_statistics.png"
        else String.prefix "Statistics" f = true ∧
             (f = "Statistics" +:+ name +:+ "_statistics.png" ∨
              f = "Statistics" +:+ "/" +:+ name +:+ "_statistics.png").
Proof.
  split; [compute_done|].
  apply (X18_files_named_after_devices rational_sqrt true sample_score sample_runtime
           "Statistics" default_percentage false (fresh_machine df_single)).
  - apply sample_runtime_refuses_nothing.
  - compute_done.
  - compute_done.
Defined.

(** X19: the messages for [df_numbered]. *)
Lemma X19_witness :
  Forall (λ d, is_int d = true) (devices df_numbered) ∧
  let c := default_percentage in
  let m := fitted rational_sqrt sample_score c df_numbered in
  analyze_df_full rational_sqrt true sample_score sample_runtime false "Statistics" c
    true (fresh_machine df_numbered) =
    ({| world := world_after rational_sqrt c (fresh_world df_numbered);
        trace := [] ++
          (Stdout <$>
             ((λ d, "Attention: Device " +:+
                    float_repr sample_runtime (Qc_of_Z (int_of d)) +:+
                    " is an anomaly (score = " +:+
                    format_float 4 (raw_score rational_sqrt sample_score df_numbered m d)
                    +:+ ") — needs investigation.") <$>
              flagged_devices rational_sqrt sample_score c df_numbered)) |},
     Finished (list_to_set (flagged_devices rational_sqrt sample_score c df_numbered))).
Proof.
  split; [compute_done|].
  apply (X19_integer_names_print_as_floats rational_sqrt true sample_score
           sample_runtime "Statistics" default_percentage (fresh_machine df_numbered)).
  - compute_done.
  - compute_done.
  - by vm_compute.
  - compute_done.
Defined.
